(** * personalAgent: orchestration layer and pause/resume state store

    A shallow embedding of [orchestrator_agent.py], [session_manager.py]
    and [state_persistence.py], with the properties of the specification
    stated and proved over it; and of the code around them:
    [memory_bank.py], [chat_with_agent] of [app.py],
    [generate_meal_plan] of [meal_planning_agent.py] with the validation
    of [data_models.py] that it runs, and the recipe searches of
    [recipe_tool.py].

    Modelling conventions.
    - A Python [str] is a [string] of bytes.  [str.lower], the regular
      expression classes [\d] and [\s] and the ranges [[A-Z]], [[a-z]]
      are modelled on the ASCII range; bytes above 127 are left alone by
      [lower] and belong to no class.
    - A Python [int] is a [Z]; [int(text)] on a run of decimal digits has
      no length limit.
    - A [dict] used as a mapping is a [gmap] with string keys; the order of
      [dict.values()] is therefore not modelled.
    - [datetime.now()], [uuid.uuid4()] and [date.today()] are readings of
      oracles that the environment supplies; every reading of the clock or
      of the identifier source advances a counter kept in the state.
    - A [date] is its proleptic Gregorian ordinal; the interpreter's bound
      on dates (year 9999) is not modelled.
    - A raised exception is a value [Raise e]; only instances of
      [Exception] are modelled, which is what [except Exception] handles.
    - A JSON value is null, a boolean, an integer, a text or an object;
      arrays and floating-point numbers play no part in what is proved.
    - The budget 2000.0 is the integer 2000, and an amount of money is an
      integer number of hundredths.  The quantity of an ingredient, a
      finite float that is only compared with 0, is the rational it
      denotes.
    - The storage directory is a map from file names to documents.  A file
      name is the text the code builds from an identifier, which is taken
      as a name component as it stands (no path separators).  File input
      and output never fail, and a JSON document read back is the document
      that was written. *)

From Stdlib Require Import ZArith NArith QArith String Ascii List Bool Lia.
From stdpp Require Import gmap strings list fin_maps pretty.

Set Warnings "-register-all".
Local Open Scope string_scope.
Local Open Scope list_scope.

(* ===================================================================== *)
(** * Text: the [str] operations the code uses *)
(* ===================================================================== *)

Module Text.

Definition in_range (lo hi : nat) (c : ascii) : bool :=
  let n := nat_of_ascii c in (lo <=? n)%nat && (n <=? hi)%nat.

(** [[A-Z]], [[a-z]] and [\d]. *)
Definition is_upper : ascii -> bool := in_range 65 90.
Definition is_lower : ascii -> bool := in_range 97 122.
Definition is_digit : ascii -> bool := in_range 48 57.

(** [\s] of a [str] pattern, on the ASCII range: tab, line feed, vertical
    tab, form feed, carriage return, the four separators 28..31, space. *)
Definition is_space (c : ascii) : bool :=
  in_range 9 13 c || in_range 28 32 c.

Definition lower_char (c : ascii) : ascii :=
  if is_upper c then ascii_of_nat (nat_of_ascii c + 32) else c.

(** [s.lower()] *)
Fixpoint lower (s : string) : string :=
  match s with
  | EmptyString => EmptyString
  | String c s' => String (lower_char c) (lower s')
  end.

(** [sub in s] *)
Fixpoint contains (sub s : string) : bool :=
  String.prefix sub s ||
  match s with
  | EmptyString => false
  | String _ s' => contains sub s'
  end.

(** [any(word in s for word in words)] *)
Definition any_in (words : list string) (s : string) : bool :=
  existsb (fun word => contains word s) words.

Definition digit_value (c : ascii) : Z := Z.of_nat (nat_of_ascii c - 48).

Fixpoint int_acc (acc : Z) (s : string) : Z :=
  match s with
  | EmptyString => acc
  | String c s' => int_acc (10 * acc + digit_value c) s'
  end.

(** [int(text)] for a text made of decimal digits. *)
Definition int_of (s : string) : Z := int_acc 0 s.

(** [sep.join(items)] *)
Fixpoint join (sep : string) (items : list string) : string :=
  match items with
  | [] => ""
  | [x] => x
  | x :: rest => x +:+ sep +:+ join sep rest
  end.

(** [w] occurs in [s] as a substring. *)
Definition occurs (w s : string) : Prop :=
  exists pre post, s = pre +:+ w +:+ post.

(** The text of [s] in front of its suffix [rest]. *)
Definition consumed (s rest : string) : string :=
  String.substring 0 (String.length s - String.length rest) s.

End Text.

(* ===================================================================== *)
(** * Regex: the fragment of [re] that the seven patterns need *)
(* ===================================================================== *)

Module Regex.
Import Text.

(** Repetition is only ever applied to a character class in the source
    patterns, so [Star] and [Plus] take a class.  [Grp] is the capturing
    group (each pattern has exactly one); [Opt] is the greedy [?]. *)
Inductive regex :=
| Lit (w : string)
| Cls (p : ascii -> bool)
| Star (p : ascii -> bool)
| Plus (p : ascii -> bool)
| Seq (r1 r2 : regex)
| Opt (r : regex)
| Grp (r : regex).

(** A match object, reduced to what is read from it: [group(1)]. *)
Record match_obj := MatchObj { m_group1 : option string }.

Definition group1 (m : match_obj) : string := default "" (m_group1 m).

Fixpoint lit_k {A : Type} (w s : string) (k : string -> option A) : option A :=
  match w with
  | EmptyString => k s
  | String c w' =>
      match s with
      | String d s' => if Ascii.eqb c d then lit_k w' s' k else None
      | EmptyString => None
      end
  end.

(** Greedy [p*]: the longest run first, then shorter ones on failure of
    the rest of the pattern. *)
Fixpoint star_k {A : Type} (p : ascii -> bool) (s : string)
    (k : string -> option A) : option A :=
  match s with
  | String c s' =>
      if p c then
        match star_k p s' k with
        | Some r => Some r
        | None => k s
        end
      else k s
  | EmptyString => k s
  end.

(** The backtracking matcher: [k] is the rest of the pattern, called with
    the remaining input and the capture so far. *)
Fixpoint match_k {A : Type} (r : regex) (s : string) (g : option string)
    (k : string -> option string -> option A) : option A :=
  match r with
  | Lit w => lit_k w s (fun s' => k s' g)
  | Cls p =>
      match s with
      | String c s' => if p c then k s' g else None
      | EmptyString => None
      end
  | Star p => star_k p s (fun s' => k s' g)
  | Plus p =>
      match s with
      | String c s' => if p c then star_k p s' (fun s'' => k s'' g) else None
      | EmptyString => None
      end
  | Seq r1 r2 => match_k r1 s g (fun s' g' => match_k r2 s' g' k)
  | Opt r1 =>
      match match_k r1 s g k with
      | Some x => Some x
      | None => k s g
      end
  | Grp r1 => match_k r1 s g (fun s' _ => k s' (Some (consumed s s')))
  end.

(** [re.match(r, s)]: a match anchored at the start of [s]. *)
Definition re_match (r : regex) (s : string) : option match_obj :=
  match_k r s None (fun _ g => Some (MatchObj g)).

(** [re.search(r, s)]: the match at the leftmost position that has one. *)
Fixpoint re_search (r : regex) (s : string) : option match_obj :=
  match re_match r s with
  | Some m => Some m
  | None =>
      match s with
      | String _ s' => re_search r s'
      | EmptyString => None
      end
  end.

(** [for pattern in patterns: match = re.search(pattern, s); if match: ...] *)
Fixpoint first_match (patterns : list regex) (s : string) : option match_obj :=
  match patterns with
  | [] => None
  | p :: rest =>
      match re_search p s with
      | Some m => Some m
      | None => first_match rest s
      end
  end.

Definition seq (rs : list regex) : regex := foldr Seq (Lit "") rs.

(** [days?] *)
Definition days_word : regex := Seq (Lit "day") (Opt (Lit "s")).

(** [(\d+)\s*days?] *)
Definition n_days : regex :=
  seq [Grp (Plus is_digit); Star is_space; days_word].

(** [(\d+)-day] *)
Definition n_dash_day : regex :=
  seq [Grp (Plus is_digit); Lit "-day"].

(** [for\s+(\d+)\s+days?] *)
Definition for_n_days : regex :=
  seq [Lit "for"; Plus is_space; Grp (Plus is_digit); Plus is_space; days_word].

Definition day_patterns : list regex := [n_days; n_dash_day; for_n_days].

(** [[A-Z][a-z]+] *)
Definition cap_word : regex := Seq (Cls is_upper) (Plus is_lower).

(** [([A-Z][a-z]+(?:\s+[A-Z][a-z]+)?)] *)
Definition place : regex :=
  Grp (Seq cap_word (Opt (Seq (Plus is_space) cap_word))).

(** [to\s+(..)], [visit\s+(..)], [trip\s+to\s+(..)], [in\s+(..)] *)
Definition destination_patterns : list regex :=
  [ seq [Lit "to"; Plus is_space; place];
    seq [Lit "visit"; Plus is_space; place];
    seq [Lit "trip"; Plus is_space; Lit "to"; Plus is_space; place];
    seq [Lit "in"; Plus is_space; place] ].

(** ** What a match captures *)

(** The least number of characters a match of [r] takes. *)
Fixpoint min_len (r : regex) : nat :=
  match r with
  | Lit w => String.length w
  | Cls _ | Plus _ => 1
  | Star _ | Opt _ => 0
  | Seq r1 r2 => min_len r1 + min_len r2
  | Grp r1 => min_len r1
  end.

(** Every group of [r] takes at least one character. *)
Fixpoint safe (r : regex) : bool :=
  match r with
  | Seq r1 r2 => safe r1 && safe r2
  | Opt r1 => safe r1
  | Grp r1 => safe r1 && (1 <=? min_len r1)%nat
  | _ => true
  end.

(** Every match of [r] goes through a group. *)
Fixpoint binds (r : regex) : bool :=
  match r with
  | Seq r1 r2 => binds r1 || binds r2
  | Grp _ => true
  | _ => false
  end.

(** The capture holds a text, and the text is not empty. *)
Definition good (g : option string) : Prop :=
  exists t, g = Some t /\ t <> "".

End Regex.

(* ===================================================================== *)
(** * Py: exceptions, truthiness, JSON values, dates *)
(* ===================================================================== *)

Module Py.

(** An exception: its class and [str(e)]. *)
Record exn := Exn { exn_type : string; exn_text : string }.

Inductive res (A : Type) :=
| Ok (a : A)
| Raise (e : exn).
Arguments Ok {A} a.
Arguments Raise {A} e.

(** [x or d] for [x : Optional[int]]: [None] and [0] are both falsy. *)
Definition or_int (x : option Z) (d : Z) : Z :=
  match x with
  | Some n => if (n =? 0)%Z then d else n
  | None => d
  end.

(** [not s] for [s : Optional[str]]: [None] and the empty text. *)
Definition falsy_str (s : option string) : bool :=
  match s with
  | None => true
  | Some t => String.eqb t ""
  end.

(** A JSON document as [json.load] returns it. *)
Inductive json :=
| JNull
| JBool (b : bool)
| JInt (z : Z)
| JStr (s : string)
| JObj (m : gmap string json).

Definition nl : string := String (ascii_of_nat 10) "".

Definition pad2 (n : Z) : string :=
  if (n <? 10)%Z then "0" +:+ pretty n else pretty n.

Definition pad4 (n : Z) : string :=
  if (n <? 10)%Z then "000" +:+ pretty n
  else if (n <? 100)%Z then "00" +:+ pretty n
  else if (n <? 1000)%Z then "0" +:+ pretty n
  else pretty n.

(** [date.fromordinal(n).isoformat()]: day 1 is 0001-01-01. *)
Definition isoformat (n : Z) : string :=
  let z := (n + 305)%Z in
  let era := (z / 146097)%Z in
  let doe := (z - era * 146097)%Z in
  let yoe := ((doe - doe / 1460 + doe / 36524 - doe / 146096) / 365)%Z in
  let doy := (doe - (365 * yoe + yoe / 4 - yoe / 100))%Z in
  let mp := ((5 * doy + 2) / 153)%Z in
  let d := (doy - (153 * mp + 2) / 5 + 1)%Z in
  let m := (if (mp <? 10)%Z then mp + 3 else mp - 9)%Z in
  let y := (yoe + era * 400 + (if (m <=? 2)%Z then 1 else 0))%Z in
  pad4 y +:+ "-" +:+ pad2 m +:+ "-" +:+ pad2 d.

(** [f"{x:.2f}"] for an amount held in hundredths. *)
Definition money (c : Z) : string :=
  (if (c <? 0)%Z then "-" else "") +:+
  pretty (Z.abs c / 100)%Z +:+ "." +:+ pad2 (Z.abs c mod 100)%Z.

End Py.

(* ===================================================================== *)
(** * Orchestrator: [orchestrator_agent.py] over [session_manager.py] *)
(* ===================================================================== *)

Module Orchestrator.
Import Text Regex Py.

Abbreviation preferences := (gmap string json).

(** The domain payloads, reduced to the attributes the orchestrator reads.
    Amounts of money are held in hundredths. *)
Record MealPlan := {
  mp_start_date : Z;
  mp_end_date : Z;
  mp_meals : nat;          (* len(meal_plan.meals) *)
  mp_total_recipes : Z
}.

Record ShoppingList := {
  sl_items : nat;          (* len(shopping_list.items) *)
  sl_categories : nat;     (* len(shopping_list.categories) *)
  sl_estimated_total : Z
}.

Record TripPlan := {
  tp_destination : string;
  tp_start_date : Z;
  tp_end_date : Z;
  tp_accommodation_name : string;
  tp_estimated_cost : Z
}.

Definition mp_duration_days (p : MealPlan) : Z := mp_end_date p - mp_start_date p + 1.
Definition tp_duration_days (p : TripPlan) : Z := tp_end_date p - tp_start_date p + 1.

(** The dictionary a route returns: [success], [message], and [data] when
    the route produced any ([None] stands for an absent key). *)
Inductive payload :=
| PMealPlan (p : MealPlan)
| PShoppingList (l : ShoppingList)
| PTripPlan (p : TripPlan)
| PResults (rs : list route_result)
with route_result :=
| RouteResult (success : bool) (data : option payload) (message : string).

Definition rr_success (r : route_result) : bool :=
  let 'RouteResult s _ _ := r in s.
Definition rr_data (r : route_result) : option payload :=
  let 'RouteResult _ d _ := r in d.
Definition rr_message (r : route_result) : string :=
  let 'RouteResult _ _ m := r in m.

(** The context dictionary: the four keys [process_message] fills in, each
    of its annotated type, and any further keys.  [context['user_id']] is
    read without a default, so that key is required; the others are read
    with [get] and may be absent. *)
Record Context := {
  ctx_user_id : string;
  ctx_session_id : option string;
  ctx_preferences : option preferences;
  ctx_message : option string;
  ctx_extra : gmap string json
}.

(** The collaborators held by [self].  A domain agent is a function from
    its arguments to a plan or a raised exception; the memory bank maps a
    user to the stored preferences. *)
Record Orchestrator := {
  meal_agent : string -> Z -> preferences -> res MealPlan;
  travel_agent : string -> string -> string * string -> Z -> preferences -> res TripPlan;
  memory_bank : gmap string preferences;
  sm_memory_bank : option (gmap string preferences)
}.

(** A call made to a domain agent, with its arguments. *)
Inductive call :=
| GenerateMealPlan (user_id : string) (days : Z) (prefs : preferences)
| PlanTrip (user_id destination : string) (dates : string * string)
    (budget : Z) (prefs : preferences).

Record Env := {
  clock : nat -> string;   (* datetime.now(timezone.utc).isoformat() *)
  uuid4 : nat -> string;   (* str(uuid.uuid4()) *)
  today : Z                (* date.today() *)
}.

(** ** Routing *)

(** A computation that may raise and that records the agent calls made. *)
Definition M (A : Type) : Type := res A * list call.

Definition ret {A : Type} (a : A) : M A := (Ok a, []).

Definition bind {A B : Type} (m : M A) (f : A -> M B) : M B :=
  match m with
  | (Ok a, t) => let '(r, t') := f a in (r, t ++ t')
  | (Raise e, t) => (Raise e, t)
  end.

(** [try: m  except Exception as e: return h e] *)
Definition try_except {A : Type} (m : M A) (h : exn -> A) : M A :=
  match m with
  | (Ok a, t) => (Ok a, t)
  | (Raise e, t) => (Ok (h e), t)
  end.

#[export] Instance M_bind : MBind M := fun A B f m => bind m f.

Definition generate_meal_plan (self : Orchestrator) (user_id : string)
    (days : Z) (prefs : preferences) : M MealPlan :=
  (meal_agent self user_id days prefs, [GenerateMealPlan user_id days prefs]).

Definition plan_trip (self : Orchestrator) (user_id destination : string)
    (dates : string * string) (budget : Z) (prefs : preferences) : M TripPlan :=
  (travel_agent self user_id destination dates budget prefs,
   [PlanTrip user_id destination dates budget prefs]).

Definition _extract_days (message : string) : option Z :=
  match first_match day_patterns (lower message) with
  | Some m => Some (int_of (group1 m))
  | None => if contains "week" (lower message) then Some 7%Z else None
  end.

Definition _extract_destination (message : string) : option string :=
  match first_match destination_patterns message with
  | Some m => Some (group1 m)
  | None => None
  end.

Definition error_result (e : exn) : route_result :=
  RouteResult false None ("Error processing request: " +:+ exn_text e).

(** [route_to_agent].  The method calls itself for a multi-domain request,
    always with one of three literal intents, so two levels of calls are
    all it ever uses; [fuel] bounds the depth. *)
Fixpoint route_to_agent_fuel (fuel : nat) (self : Orchestrator) (env : Env)
    (intent : string) (context : Context) : M route_result :=
  match fuel with
  | O => (Raise (Exn "RecursionError" "maximum recursion depth exceeded"), [])
  | S fuel' =>
  let user_id := ctx_user_id context in
  let prefs := default ∅ (ctx_preferences context) in
  let message := default "" (ctx_message context) in
  try_except
    (if String.eqb intent "meal_planning" then
       let days := or_int (_extract_days message) 7 in
       meal_plan ← generate_meal_plan self user_id days prefs;
       ret (RouteResult true (Some (PMealPlan meal_plan))
              ("Generated " +:+ pretty days +:+ "-day meal plan"))
     else if String.eqb intent "shopping" then
       ret (RouteResult false None
              "Please generate a meal plan first before creating a shopping list")
     else if String.eqb intent "travel" then
       let destination := _extract_destination message in
       if falsy_str destination then
         ret (RouteResult false None "Please specify a destination for your trip")
       else
         let destination := default "" destination in
         let start_date := (today env + 30)%Z in
         let end_date := (start_date + 7)%Z in
         let budget := 2000%Z in
         trip_plan ← plan_trip self user_id destination
                        (isoformat start_date, isoformat end_date) budget prefs;
         ret (RouteResult true (Some (PTripPlan trip_plan))
                ("Created trip plan for " +:+ destination))
     else if String.eqb intent "multi_domain" then
       let results := [] in
       results ←
         (if contains "meal" (lower message) then
            meal_result ← route_to_agent_fuel fuel' self env "meal_planning" context;
            ret (results ++ [meal_result])
          else ret results);
       results ←
         (if contains "shop" (lower message) then
            shop_result ← route_to_agent_fuel fuel' self env "shopping" context;
            ret (results ++ [shop_result])
          else ret results);
       results ←
         (if contains "travel" (lower message) || contains "trip" (lower message) then
            travel_result ← route_to_agent_fuel fuel' self env "travel" context;
            ret (results ++ [travel_result])
          else ret results);
       ret (RouteResult true (Some (PResults results)) "Completed multi-domain request")
     else
       ret (RouteResult false None ("Unknown intent: " +:+ intent)))
    error_result
  end.

Definition route_to_agent : Orchestrator -> Env -> string -> Context -> M route_result :=
  route_to_agent_fuel 2.

(** ** Intent classification *)

Definition meal_words : list string :=
  ["meal"; "recipe"; "cook"; "eat"; "food"; "dinner"; "lunch"; "breakfast"].
Definition shopping_words : list string :=
  ["shop"; "grocery"; "groceries"; "buy"; "ingredient"; "store"].
Definition travel_words : list string :=
  ["travel"; "trip"; "vacation"; "visit"; "hotel"; "flight"].

Definition _parse_intent (message : string) : string :=
  let message_lower := lower message in
  let domains := [] in
  let domains :=
    if any_in meal_words message_lower then domains ++ ["meal_planning"] else domains in
  let domains :=
    if any_in shopping_words message_lower then domains ++ ["shopping"] else domains in
  let domains :=
    if any_in travel_words message_lower then domains ++ ["travel"] else domains in
  match domains with
  | [] => "ambiguous"
  | [d] => d
  | _ => "multi_domain"
  end.

(** A keyword of the set occurs in the lower-cased message. *)
Definition present (words : list string) (message : string) : Prop :=
  exists w, In w words /\ occurs w (lower message).

Definition _generate_clarifying_questions (message : string) : string :=
  "I'm not sure what you'd like help with. " +:+
  "I can assist with:" +:+ nl +:+
  "- Meal planning (creating weekly meal plans)" +:+ nl +:+
  "- Shopping lists (generating grocery lists)" +:+ nl +:+
  "- Travel planning (planning trips and itineraries)" +:+ nl +:+ nl +:+
  "What would you like to do?".

(** ** Summaries *)

Definition bullet (s : string) : string := "  - " +:+ s.

(** [_generate_summary].  Reading a plan's attributes off a payload of
    another kind raises; no route produces such a result. *)
Definition _generate_summary (intent : string) (result : route_result) : res string :=
  let wrong_kind := Raise (Exn "AttributeError" "payload of another kind") in
  if negb (rr_success result) then Ok (rr_message result)
  else if String.eqb intent "meal_planning" then
    match rr_data result with
    | Some (PMealPlan meal_plan) =>
        Ok ("✓ Created a " +:+ pretty (mp_duration_days meal_plan) +:+
            "-day meal plan with " +:+ pretty (mp_meals meal_plan) +:+
            " meals using " +:+ pretty (mp_total_recipes meal_plan) +:+ " recipes.")
    | Some _ => wrong_kind
    | None => Ok (rr_message result)
    end
  else if String.eqb intent "shopping" then
    match rr_data result with
    | Some (PShoppingList shopping_list) =>
        Ok ("✓ Generated shopping list with " +:+ pretty (sl_items shopping_list) +:+
            " items across " +:+ pretty (sl_categories shopping_list) +:+
            " categories. Estimated total: $" +:+
            money (sl_estimated_total shopping_list))
    | Some _ => wrong_kind
    | None => Ok (rr_message result)
    end
  else if String.eqb intent "travel" then
    match rr_data result with
    | Some (PTripPlan trip_plan) =>
        Ok ("✓ Planned " +:+ pretty (tp_duration_days trip_plan) +:+
            "-day trip to " +:+ tp_destination trip_plan +:+
            ". Accommodation: " +:+ tp_accommodation_name trip_plan +:+
            ". Estimated cost: $" +:+ money (tp_estimated_cost trip_plan))
    | Some _ => wrong_kind
    | None => Ok (rr_message result)
    end
  else if String.eqb intent "multi_domain" then
    match rr_data result with
    | Some (PResults results) =>
        let summaries := map rr_message (filter (fun r => rr_success r = true) results) in
        Ok ("✓ Completed multiple tasks:" +:+ nl +:+ join nl (map bullet summaries))
    | Some _ => wrong_kind
    | None => Ok ("✓ Completed multiple tasks:" +:+ nl)
    end
  else Ok (rr_message result).

(** ** Sessions *)

(** An entry of [session.messages], as [process_message] appends it. *)
Record Message := { role : string; content : string }.

Record Session := {
  s_session_id : string;
  s_user_id : string;
  s_messages : list Message;
  s_created_at : string;
  s_updated_at : string;
  s_metadata : gmap string json
}.

(** The mutable state: the session service's dictionary, and how many
    readings of the clock and of the identifier source were taken. *)
Record World := {
  sessions : gmap string Session;
  ticks : nat;
  draws : nat
}.

Definition get_all_preferences (bank : gmap string preferences) (user_id : string)
    : preferences :=
  default ∅ (bank !! user_id).

(** [SessionManager.create_session] *)
Definition create_session (self : Orchestrator) (env : Env) (w : World)
    (user_id : string) : string * World :=
  let session_id := uuid4 env (draws w) in
  let metadata : gmap string json :=
    match sm_memory_bank self with
    | Some bank => {[ "preferences" := JObj (get_all_preferences bank user_id) ]}
    | None => ∅
    end in
  let session :=
    {| s_session_id := session_id;
       s_user_id := user_id;
       s_messages := [];
       s_created_at := clock env (ticks w);
       s_updated_at := clock env (S (ticks w));
       s_metadata := metadata |} in
  (session_id,
   {| sessions := <[session_id := session]> (sessions w);
      ticks := S (S (ticks w));
      draws := S (draws w) |}).

(** [SessionManager.update_session].  The session object is changed in
    place, so the entry it was read from changes too; [save] then files it
    under its own identifier. *)
Definition update_session (env : Env) (w : World) (session_id : string)
    (msgs : list Message) : World :=
  match sessions w !! session_id with
  | Some session =>
      let session' :=
        {| s_session_id := s_session_id session;
           s_user_id := s_user_id session;
           s_messages := s_messages session ++ msgs;
           s_created_at := s_created_at session;
           s_updated_at := clock env (ticks w);
           s_metadata := s_metadata session |} in
      {| sessions :=
           <[s_session_id session' := session']> (<[session_id := session']> (sessions w));
         ticks := S (ticks w);
         draws := draws w |}
  | None => w
  end.

(** ** The entry point *)

(** A value of the dictionary [process_message] returns. *)
Inductive rval :=
| RStr (s : string)
| RBool (b : bool)
| RData (d : option payload).

(** [process_message]: the returned dictionary (or the exception), the
    state afterwards, and the agent calls made. *)
Definition process_message (self : Orchestrator) (env : Env) (w : World)
    (user_id message : string) (session_id : option string)
    : res (gmap string rval) * World * list call :=
  let '(session_id, w) :=
    if falsy_str session_id then create_session self env w user_id
    else (default "" session_id, w) in
  let prefs := get_all_preferences (memory_bank self) user_id in
  let intent := _parse_intent message in
  if String.eqb intent "ambiguous" then
    (Ok ({[ "response" := RStr (_generate_clarifying_questions message);
            "intent" := RStr "ambiguous";
            "requires_clarification" := RBool true ]} : gmap string rval), w, [])
  else
    let context :=
      {| ctx_user_id := user_id;
         ctx_session_id := Some session_id;
         ctx_preferences := Some prefs;
         ctx_message := Some message;
         ctx_extra := ∅ |} in
    match route_to_agent self env intent context with
    | (Raise e, calls) => (Raise e, w, calls)
    | (Ok result, calls) =>
        match _generate_summary intent result with
        | Raise e => (Raise e, w, calls)
        | Ok summary =>
            let w :=
              update_session env w session_id
                [ {| role := "user"; content := message |};
                  {| role := "assistant"; content := summary |} ] in
            (Ok ({[ "response" := RStr summary;
                    "intent" := RStr intent;
                    "data" := RData (rr_data result);
                    "session_id" := RStr session_id ]} : gmap string rval), w, calls)
        end
    end.

(** ** The claims, in the specification's words *)

(** The day count as the specification words it: the number of the first
    pattern that matches, the patterns taken in order; failing that, 7 for
    a message that mentions a week, and 7 otherwise. *)
Definition claimed_days (message : string) : Z :=
  let text := lower message in
  match re_search n_days text with
  | Some m => int_of (group1 m)
  | None =>
      match re_search n_dash_day text with
      | Some m => int_of (group1 m)
      | None =>
          match re_search for_n_days text with
          | Some m => int_of (group1 m)
          | None => if contains "week" text then 7%Z else 7%Z
          end
      end
  end.

(** The budget as the specification words it: 2000 unless the context
    supplies one. *)
Definition claimed_budget (context : Context) : Z :=
  match ctx_extra context !! "budget" with
  | Some (JInt b) => b
  | _ => 2000%Z
  end.

(** The sub-routes of a multi-domain request, in call order: one for each
    domain whose word occurs in the lower-cased message. *)
Definition sub_intents (message : string) : list string :=
  (if contains "meal" (lower message) then ["meal_planning"] else []) ++
  (if contains "shop" (lower message) then ["shopping"] else []) ++
  (if contains "travel" (lower message) || contains "trip" (lower message)
   then ["travel"] else []).

(** The day count reaches the meal agent as the specification words it. *)
Definition days_as_claimed (self : Orchestrator) (env : Env) (context : Context)
    : Prop :=
  snd (route_to_agent self env "meal_planning" context) =
  [GenerateMealPlan (ctx_user_id context)
     (claimed_days (default "" (ctx_message context)))
     (default ∅ (ctx_preferences context))].

(** The travel route as the specification words it: a clarification
    request when no destination is found, and otherwise a call with the
    default dates and the budget of [claimed_budget]. *)
Definition travel_as_claimed (self : Orchestrator) (env : Env) (context : Context)
    : Prop :=
  match _extract_destination (default "" (ctx_message context)) with
  | None =>
      exists r, fst (route_to_agent self env "travel" context) = Ok r /\
                rr_success r = false
  | Some d =>
      snd (route_to_agent self env "travel" context) =
      [PlanTrip (ctx_user_id context) d
         (isoformat (today env + 30), isoformat (today env + 30 + 7))
         (claimed_budget context)
         (default ∅ (ctx_preferences context))]
  end.

(** ** An orchestrator for the examples *)

(** The meal agent refuses a day count below 1, as [generate_meal_plan]
    does; the travel agent plans whatever it is asked. *)
Definition demo : Orchestrator :=
  {| meal_agent := fun _ days _ =>
       if (days <? 1)%Z then Raise (Exn "ValueError" "Days must be at least 1")
       else Ok {| mp_start_date := 1; mp_end_date := days;
                  mp_meals := 3; mp_total_recipes := 3 |};
     travel_agent := fun _ destination _ budget _ =>
       Ok {| tp_destination := destination; tp_start_date := 1; tp_end_date := 8;
             tp_accommodation_name := "Inn"; tp_estimated_cost := budget |};
     memory_bank := ∅;
     sm_memory_bank := Some ∅ |}.

Definition demo_env : Env :=
  {| clock := fun n => "t" +:+ pretty n;
     uuid4 := fun n => "session-" +:+ pretty n;
     today := 739923 |}.

Definition demo_context (message : string) (extra : gmap string json) : Context :=
  {| ctx_user_id := "u";
     ctx_session_id := None;
     ctx_preferences := None;
     ctx_message := Some message;
     ctx_extra := extra |}.

Definition empty_world : World := {| sessions := ∅; ticks := 0; draws := 0 |}.

(** The exchange leaves the session service's dictionary as it was. *)
Definition store_untouched (self : Orchestrator) (env : Env) (w : World)
    (user_id message : string) (session_id : option string) : Prop :=
  sessions (snd (fst (process_message self env w user_id message session_id))) =
  sessions w.

End Orchestrator.

(* ===================================================================== *)
(** * StatePersistence: [state_persistence.py] *)
(* ===================================================================== *)

Module StatePersistence.
Import Text Py.

Abbreviation dict := (gmap string json).

(** The environment: the clock, and [str_of v], the text an f-string puts
    for the value [v] (for a [str], the text itself). *)
Record Env := {
  clock : nat -> string;
  str_of : json -> string
}.

(** The storage directory: every file holds one JSON object, and is named
    by its path below [storage_path]. *)
Record Store := {
  files : gmap string dict;
  ticks : nat
}.

Definition write_file (w : Store) (path : string) (doc : dict) : Store :=
  {| files := <[path := doc]> (files w); ticks := ticks w |}.

Definition unlink (w : Store) (path : string) : Store :=
  {| files := delete path (files w); ticks := ticks w |}.

Definition tick (w : Store) : Store :=
  {| files := files w; ticks := S (ticks w) |}.

(** [bool(d)] for a dictionary *)
Definition truthy (d : dict) : bool := negb (Nat.eqb (size d) 0).

(** [f"{task_id}.json"] *)
Definition _get_state_file (task_id : string) : string :=
  task_id +:+ ".json".

(** [f"user_{user_id}_index.json"] *)
Definition _get_user_index_file (env : Env) (user_id : json) : string :=
  "user_" +:+ str_of env user_id +:+ "_index.json".

Definition _load_user_index (env : Env) (w : Store) (user_id : json) : dict :=
  default ∅ (files w !! _get_user_index_file env user_id).

Definition _save_user_index (env : Env) (w : Store) (user_id : json) (index : dict)
    : Store :=
  write_file w (_get_user_index_file env user_id) index.

(** The index entry [save_state] writes for a task. *)
Definition projection (task_id : string) (state : dict) (saved_at : string) : dict :=
  <["saved_at" := JStr saved_at]>
  (<["status" := default (JStr "paused") (state !! "status")]>
  (<["agent_type" := default (JStr "unknown") (state !! "agent_type")]>
  (<["task_id" := JStr task_id]> ∅))).

(** [save_state].  [state] is only read: the stored record is the new
    dictionary [{**state, 'task_id': .., 'saved_at': ..}]. *)
Definition save_state (env : Env) (w : Store) (task_id : string) (state : dict)
    : res unit * Store :=
  match state !! "user_id" with
  | None => (Raise (Exn "ValueError" "State must include 'user_id' field"), w)
  | Some user_id =>
      let saved_at := clock env (ticks w) in
      let w := tick w in
      let state_with_metadata :=
        <["saved_at" := JStr saved_at]> (<["task_id" := JStr task_id]> state) in
      let w := write_file w (_get_state_file task_id) state_with_metadata in
      let index := _load_user_index env w user_id in
      let index := <[task_id := JObj (projection task_id state saved_at)]> index in
      (Ok tt, _save_user_index env w user_id index)
  end.

Definition load_state (w : Store) (task_id : string) : option dict :=
  files w !! _get_state_file task_id.

Definition delete_state (env : Env) (w : Store) (task_id : string) : Store :=
  let state := load_state w task_id in
  let w := unlink w (_get_state_file task_id) in
  match state with
  | Some st =>
      match st !! "user_id" with
      | Some user_id =>
          let index := _load_user_index env w user_id in
          match index !! task_id with
          | Some _ => _save_user_index env w user_id (delete task_id index)
          | None => w
          end
      | None => w
      end
  | None => w
  end.

(** [list(index.values())], in no particular order *)
Definition list_paused_tasks (env : Env) (w : Store) (user_id : string) : list json :=
  (map_to_list (_load_user_index env w (JStr user_id))).*2.

Definition task_exists (w : Store) (task_id : string) : bool :=
  bool_decide (is_Some (files w !! _get_state_file task_id)).

Definition update_task_status (env : Env) (w : Store) (task_id status : string)
    : res unit * Store :=
  match load_state w task_id with
  | Some state =>
      if truthy state then
        let state := <["status" := JStr status]> state in
        let state := <["updated_at" := JStr (clock env (ticks w))]> state in
        save_state env (tick w) task_id state
      else (Ok tt, w)
  | None => (Ok tt, w)
  end.

(** ** Runs of the store *)

Inductive op :=
| SaveState (task_id : string) (state : dict)
| DeleteState (task_id : string)
| UpdateTaskStatus (task_id status : string).

Definition step (env : Env) (w : Store) (o : op) : res unit * Store :=
  match o with
  | SaveState t st => save_state env w t st
  | DeleteState t => (Ok tt, delete_state env w t)
  | UpdateTaskStatus t s => update_task_status env w t s
  end.

(** The store after a run; an operation that raises leaves what it had
    already written and the run goes on. *)
Definition run (env : Env) (w : Store) (ops : list op) : Store :=
  foldl (fun w o => snd (step env w o)) w ops.

Definition empty_store : Store := {| files := ∅; ticks := 0 |}.

(** ** What the index is a view of *)

(** The value is an index entry for task [t]. *)
Definition entry_for (t : string) (v : json) : bool :=
  match v with
  | JObj p =>
      match p !! "task_id" with
      | Some (JStr t') => String.eqb t' t
      | _ => false
      end
  | _ => false
  end.

(** User [u]'s index lists task [t]. *)
Definition in_index (env : Env) (w : Store) (u t : string) : Prop :=
  is_Some (_load_user_index env w (JStr u) !! t).

(** A record is stored for task [t], and it belongs to user [u]. *)
Definition has_record (w : Store) (u t : string) : Prop :=
  exists st, load_state w t = Some st /\ st !! "user_id" = Some (JStr u).

(** Every value of the index is the entry of the task it is filed under. *)
Definition index_keyed (index : dict) : Prop :=
  forall k v, index !! k = Some v -> entry_for k v = true.

(** How many values of user [u]'s index are entries for task [t]. *)
Definition entries_for (env : Env) (w : Store) (u t : string) : nat :=
  length (filter (fun v => entry_for t v = true) (list_paused_tasks env w u)).

(** The name a task needs for its record to be filed as user [u]'s index. *)
Definition index_name (u : string) : string := "user_" +:+ u +:+ "_index".

(** [s] without its prefix [p], when it has it. *)
Fixpoint strip_prefix (p s : string) : option string :=
  match p with
  | EmptyString => Some s
  | String c p' =>
      match s with
      | String d s' => if Ascii.eqb c d then strip_prefix p' s' else None
      | EmptyString => None
      end
  end.

(** [s] without its suffix [sfx], when it has it. *)
Fixpoint strip_suffix (sfx s : string) : option string :=
  if String.eqb s sfx then Some ""
  else
    match s with
    | String c s' => String c <$> strip_suffix sfx s'
    | EmptyString => None
    end.

(** The user whose index file a record of task [t] would be filed as. *)
Definition index_user (t : string) : option string :=
  strip_prefix "user_" t ≫= strip_suffix "_index".

(** The task id names no user's index file. *)
Definition clean (t : string) : Prop := forall u, t <> index_name u.

(** The entry user [u]'s index should hold for the record [st] of task [t]. *)
Definition view_of (t : string) (st : dict) (v : json) : Prop :=
  exists stamp, st !! "saved_at" = Some (JStr stamp) /\
                v = JObj (projection t st stamp).

(** An operation that keeps to the store's intended use: the task id names
    no index file, a saved state names its user by a text, and a task that
    has a record is saved again for the same user only. *)
Inductive well_used (w : Store) : op -> Prop :=
| wu_save t st u :
    clean t ->
    st !! "user_id" = Some (JStr u) ->
    (forall st0, load_state w t = Some st0 -> st0 !! "user_id" = Some (JStr u)) ->
    well_used w (SaveState t st)
| wu_delete t : clean t -> well_used w (DeleteState t)
| wu_update t s : clean t -> well_used w (UpdateTaskStatus t s).

Inductive well_run (env : Env) : Store -> list op -> Prop :=
| wr_nil w : well_run env w []
| wr_cons w o ops :
    well_used w o -> well_run env (snd (step env w o)) ops ->
    well_run env w (o :: ops).

(** The index is a view of the records. *)
Definition consistent (env : Env) (w : Store) : Prop :=
  forall u t,
    (in_index env w u t <-> has_record w u t) /\
    (forall v, _load_user_index env w (JStr u) !! t = Some v ->
               exists st, load_state w t = Some st /\ view_of t st v).

(** What the proof carries along a well-used run. *)
Record inv (env : Env) (w : Store) : Prop := {
  inv_record : forall t st,
    clean t -> load_state w t = Some st ->
    exists u stamp, st !! "user_id" = Some (JStr u) /\
                    st !! "saved_at" = Some (JStr stamp);
  inv_entry : forall u t v,
    _load_user_index env w (JStr u) !! t = Some v ->
    clean t /\
    exists st, load_state w t = Some st /\
               st !! "user_id" = Some (JStr u) /\ view_of t st v;
  inv_listed : forall u t st,
    clean t -> load_state w t = Some st -> st !! "user_id" = Some (JStr u) ->
    is_Some (_load_user_index env w (JStr u) !! t)
}.

(** The f-string of a [str] is the text itself. *)
Definition str_of_text (env : Env) : Prop :=
  forall s, str_of env (JStr s) = s.

(** The environment of the examples below; none of them formats an
    object. *)
Definition plain_env : Env :=
  {| clock := fun n => "t" +:+ pretty n;
     str_of := fun v =>
       match v with
       | JStr s => s
       | JInt z => pretty z
       | JBool true => "True"
       | JBool false => "False"
       | JNull => "None"
       | JObj _ => "{}"
       end |}.

(** A state of the examples: a meal task of user u at step 2 of 5. *)
Definition a_state : dict :=
  <["current_step" := JInt 2]> (<["total_steps" := JInt 5]>
  (<["agent_type" := JStr "meal"]> {[ "user_id" := JStr "u" ]})).

End StatePersistence.

(* ===================================================================== *)
(** * SessionManager: the rest of [session_manager.py] *)
(* ===================================================================== *)

Module SessionManager.
Import Text Py Orchestrator.

(** [SessionManager.get_session], that is [InMemorySessionService.get] *)
Definition get_session (w : World) (session_id : string) : option Session :=
  sessions w !! session_id.

(** [SessionManager.close_session], that is
    [InMemorySessionService.delete] *)
Definition close_session (w : World) (session_id : string) : World :=
  match sessions w !! session_id with
  | Some _ =>
      {| sessions := delete session_id (sessions w);
         ticks := ticks w;
         draws := draws w |}
  | None => w
  end.

(** [SessionManager.get_conversation_history] *)
Definition get_conversation_history (w : World) (session_id : string)
    : list Message :=
  match sessions w !! session_id with
  | Some session => s_messages session
  | None => []
  end.

(** [SessionManager.list_user_sessions], that is
    [InMemorySessionService.list_by_user]; the order of the dictionary's
    values is not modelled. *)
Definition list_user_sessions (w : World) (user_id : string) : list Session :=
  filter (fun s => s_user_id s = user_id) (map_to_list (sessions w)).*2.

(** [SessionManager.update_session_metadata].  As in [update_session], the
    session object is changed in place and then filed under its own
    identifier. *)
Definition update_session_metadata (env : Env) (w : World) (session_id : string)
    (key : string) (value : json) : World :=
  match sessions w !! session_id with
  | Some session =>
      let session' :=
        {| s_session_id := s_session_id session;
           s_user_id := s_user_id session;
           s_messages := s_messages session;
           s_created_at := s_created_at session;
           s_updated_at := clock env (ticks w);
           s_metadata := <[key := value]> (s_metadata session) |} in
      {| sessions :=
           <[s_session_id session' := session']> (<[session_id := session']> (sessions w));
         ticks := S (ticks w);
         draws := draws w |}
  | None => w
  end.

(** Every session is filed under its own identifier. *)
Definition keyed (w : World) : Prop :=
  forall k s, sessions w !! k = Some s -> s_session_id s = k.

(** The operations of the session manager, and runs of them. *)
Inductive op :=
| CreateSession (user_id : string)
| UpdateSession (session_id : string) (msgs : list Message)
| UpdateSessionMetadata (session_id key : string) (value : json)
| CloseSession (session_id : string).

Definition step (self : Orchestrator) (env : Env) (w : World) (o : op) : World :=
  match o with
  | CreateSession u => snd (create_session self env w u)
  | UpdateSession sid msgs => update_session env w sid msgs
  | UpdateSessionMetadata sid k v => update_session_metadata env w sid k v
  | CloseSession sid => close_session w sid
  end.

Definition run (self : Orchestrator) (env : Env) (w : World) (ops : list op) : World :=
  foldl (step self env) w ops.

(** Two messages for the examples. *)
Definition hello : Message := {| role := "user"; content := "hello" |}.
Definition hi : Message := {| role := "assistant"; content := "hi" |}.

End SessionManager.

(* ===================================================================== *)
(** * The chat entry of [app.py] *)
(* ===================================================================== *)

Module App.
Import Text Py Orchestrator.

(** The module's state: the orchestrator's sessions, and [user_sessions],
    the session identifier kept for each user. *)
Record State := {
  world : World;
  user_sessions : gmap string string
}.

(** The text of a value of the reply.  [process_message] files texts under
    the two keys read below, so the other kinds never come here. *)
Definition text_of (v : rval) : string :=
  match v with
  | RStr s => s
  | _ => ""
  end.

(** [chat_with_agent]: the text returned, the state afterwards and the
    agent calls made.  What was written before an exception stays written;
    [str(e)] of the [KeyError] for a missing key is the key's [repr]. *)
Definition chat_with_agent (self : Orchestrator) (env : Env) (st : State)
    (message user_id : string) : string * State * list call :=
  let session_id := user_sessions st !! user_id in
  let '(response, w, calls) :=
    process_message self env (world st) user_id message session_id in
  match response with
  | Raise e =>
      ("Error: " +:+ exn_text e,
       {| world := w; user_sessions := user_sessions st |}, calls)
  | Ok response =>
      match response !! "session_id" with
      | None =>
          ("Error: 'session_id'",
           {| world := w; user_sessions := user_sessions st |}, calls)
      | Some sid =>
          let user_sessions' := <[user_id := text_of sid]> (user_sessions st) in
          match response !! "response" with
          | None =>
              ("Error: 'response'",
               {| world := w; user_sessions := user_sessions' |}, calls)
          | Some text =>
              (text_of text, {| world := w; user_sessions := user_sessions' |}, calls)
          end
      end
  end.

Definition initial : State :=
  {| world := empty_world; user_sessions := ∅ |}.

End App.

(* ===================================================================== *)
(** * MemoryBank: [memory_bank.py] *)
(* ===================================================================== *)

Module MemoryBank.
Import Text Py.

(** A user's file: the three sections every file written by the class has.
    A feedback entry is the dictionary [update_feedback] builds; a rating is
    stored and returned, never computed with. *)
Record UserData := {
  preferences : gmap string json;
  feedback : list (gmap string json);
  pantry : list string
}.

Record Env := { clock : nat -> string }.

(** The storage directory, by file name, and the readings of the clock. *)
Record Bank := {
  files : gmap string UserData;
  ticks : nat
}.

(** [f"{user_id}.json"] *)
Definition _get_user_file (user_id : string) : string := user_id +:+ ".json".

Definition _load_user_data (b : Bank) (user_id : string) : UserData :=
  match files b !! _get_user_file user_id with
  | Some data => data
  | None => {| preferences := ∅; feedback := []; pantry := [] |}
  end.

Definition _save_user_data (b : Bank) (user_id : string) (data : UserData) : Bank :=
  {| files := <[_get_user_file user_id := data]> (files b); ticks := ticks b |}.

Definition save_preference (b : Bank) (user_id key : string) (value : json) : Bank :=
  let data := _load_user_data b user_id in
  let data :=
    {| preferences := <[key := value]> (preferences data);
       feedback := feedback data;
       pantry := pantry data |} in
  _save_user_data b user_id data.

Definition get_preference (b : Bank) (user_id key : string) : option json :=
  preferences (_load_user_data b user_id) !! key.

Definition get_all_preferences (b : Bank) (user_id : string) : gmap string json :=
  preferences (_load_user_data b user_id).

Definition update_feedback (env : Env) (b : Bank) (user_id item_id : string)
    (rating : json) : Bank :=
  let data := _load_user_data b user_id in
  let feedback_entry : gmap string json :=
    <["timestamp" := JStr (clock env (ticks b))]>
    (<["rating" := rating]> (<["item_id" := JStr item_id]> ∅)) in
  let b := {| files := files b; ticks := S (ticks b) |} in
  let data :=
    {| preferences := preferences data;
       feedback := feedback data ++ [feedback_entry];
       pantry := pantry data |} in
  _save_user_data b user_id data.

Definition get_feedback_history (b : Bank) (user_id : string)
    : list (gmap string json) :=
  feedback (_load_user_data b user_id).

Definition save_pantry_items (b : Bank) (user_id : string) (items : list string)
    : Bank :=
  let data := _load_user_data b user_id in
  let data :=
    {| preferences := preferences data;
       feedback := feedback data;
       pantry := items |} in
  _save_user_data b user_id data.

Definition get_pantry_items (b : Bank) (user_id : string) : list string :=
  pantry (_load_user_data b user_id).

(** [item in items] *)
Definition mem (item : string) (items : list string) : bool :=
  existsb (String.eqb item) items.

(** [items.remove(item)]: the first occurrence goes. *)
Fixpoint remove_first (item : string) (items : list string) : list string :=
  match items with
  | [] => []
  | x :: rest => if String.eqb x item then rest else x :: remove_first item rest
  end.

Definition add_pantry_item (b : Bank) (user_id item : string) : Bank :=
  let data := _load_user_data b user_id in
  if negb (mem item (pantry data)) then
    let data :=
      {| preferences := preferences data;
         feedback := feedback data;
         pantry := pantry data ++ [item] |} in
    _save_user_data b user_id data
  else b.

Definition remove_pantry_item (b : Bank) (user_id item : string) : Bank :=
  let data := _load_user_data b user_id in
  if mem item (pantry data) then
    let data :=
      {| preferences := preferences data;
         feedback := feedback data;
         pantry := remove_first item (pantry data) |} in
    _save_user_data b user_id data
  else b.

Definition empty_bank : Bank := {| files := ∅; ticks := 0 |}.

(** The writing operations, and runs of them. *)
Inductive op :=
| SavePreference (user_id key : string) (value : json)
| UpdateFeedback (user_id item_id : string) (rating : json)
| SavePantryItems (user_id : string) (items : list string)
| AddPantryItem (user_id item : string)
| RemovePantryItem (user_id item : string).

Definition step (env : Env) (b : Bank) (o : op) : Bank :=
  match o with
  | SavePreference u k v => save_preference b u k v
  | UpdateFeedback u i r => update_feedback env b u i r
  | SavePantryItems u items => save_pantry_items b u items
  | AddPantryItem u i => add_pantry_item b u i
  | RemovePantryItem u i => remove_pantry_item b u i
  end.

Definition run (env : Env) (b : Bank) (ops : list op) : Bank :=
  foldl (step env) b ops.

(** The user whose file the operation writes, and the section it is
    meant to change. *)
Definition user_of (o : op) : string :=
  match o with
  | SavePreference u _ _ | UpdateFeedback u _ _ | SavePantryItems u _
  | AddPantryItem u _ | RemovePantryItem u _ => u
  end.

Inductive section := Preferences | Feedback | Pantry.

Definition section_of (o : op) : section :=
  match o with
  | SavePreference _ _ _ => Preferences
  | UpdateFeedback _ _ _ => Feedback
  | SavePantryItems _ _ | AddPantryItem _ _ | RemovePantryItem _ _ => Pantry
  end.

End MemoryBank.

(* ===================================================================== *)
(** * MealPlanningAgent: [generate_meal_plan] of [meal_planning_agent.py]
      and the validation of [data_models.py] it runs *)
(* ===================================================================== *)

Module MealPlanningAgent.
Import Text Py.

(** An ingredient of a recipe dictionary, and the recipe with the keys the
    code reads: [id], [name] and [cuisine] are read with [recipe[...]], the
    other keys with [get] and a default.  A quantity is a finite float,
    held as the rational it is. *)
Record RecipeIngredient := {
  ri_name : string;
  ri_quantity : Q;
  ri_unit : string
}.

Record Recipe := {
  r_id : string;
  r_name : string;
  r_cuisine : string;
  r_dietary_tags : option (list string);
  r_ingredients : option (list RecipeIngredient);
  r_instructions : option string;
  r_prep_time : option Z;
  r_cook_time : option Z
}.

Record Ingredient := {
  i_name : string;
  i_quantity : Q;
  i_unit : string
}.

Record Meal := {
  meal_type : string;
  recipe_id : string;
  recipe_name : string;
  ingredients : list Ingredient;
  instructions : string;
  prep_time : Z;
  cook_time : Z
}.

Record MealPlan := {
  plan_id : string;
  user_id : string;
  start_date : Z;
  end_date : Z;
  meals : list Meal;
  total_recipes : Z
}.

Definition ValueError {A : Type} (text : string) : res A :=
  Raise (Exn "ValueError" text).

(** [for x in xs: f(x)], stopping at the first exception *)
Fixpoint for_each {A : Type} (f : A -> res unit) (xs : list A) : res unit :=
  match xs with
  | [] => Ok tt
  | x :: rest =>
      match f x with
      | Ok _ => for_each f rest
      | Raise e => Raise e
      end
  end.

(** [Ingredient.validate] *)
Definition ingredient_validate (self : Ingredient) : res unit :=
  if String.eqb (i_name self) "" then ValueError "Ingredient name is required"
  else if Qle_bool (i_quantity self) 0 then
    ValueError "Ingredient quantity must be positive"
  else if String.eqb (i_unit self) "" then ValueError "Ingredient unit is required"
  else Ok tt.

(** [[mt.value for mt in MealType]] *)
Definition meal_type_values : list string :=
  ["breakfast"; "lunch"; "dinner"; "snack"].

(** [Meal.validate] *)
Definition meal_validate (self : Meal) : res unit :=
  if negb (existsb (String.eqb (meal_type self)) meal_type_values) then
    ValueError ("Invalid meal_type: " +:+ meal_type self)
  else if String.eqb (recipe_id self) "" then ValueError "recipe_id is required"
  else if String.eqb (recipe_name self) "" then ValueError "recipe_name is required"
  else if Nat.eqb (length (ingredients self)) 0 then
    ValueError "Meal must have at least one ingredient"
  else if String.eqb (instructions self) "" then ValueError "instructions are required"
  else if (prep_time self <? 0)%Z then ValueError "prep_time must be non-negative"
  else if (cook_time self <? 0)%Z then ValueError "cook_time must be non-negative"
  else for_each ingredient_validate (ingredients self).

(** [len(set(m.recipe_id for m in meals))] *)
Definition unique_recipe_count (meals : list Meal) : Z :=
  Z.of_nat (length (remove_dups (map recipe_id meals))).

(** [MealPlan.validate] *)
Definition meal_plan_validate (self : MealPlan) : res unit :=
  if String.eqb (plan_id self) "" then ValueError "plan_id is required"
  else if String.eqb (user_id self) "" then ValueError "user_id is required"
  else if (end_date self <? start_date self)%Z then
    ValueError "start_date must be before or equal to end_date"
  else if Nat.eqb (length (meals self)) 0 then
    ValueError "Meal plan must have at least one meal"
  else if negb (total_recipes self =? unique_recipe_count (meals self))%Z then
    ValueError "total_recipes must match unique recipe count"
  else for_each meal_validate (meals self).

(** [MealPlan.duration_days] *)
Definition duration_days (self : MealPlan) : Z :=
  end_date self - start_date self + 1.

(** The recipe tool as the agent uses it: a search is a function of its
    arguments; the random selection also depends on which selection of the
    call it is.  Neither raises. *)
Record RecipeTool := {
  search_recipes : option string -> list string -> Z -> list Recipe;
  get_random_recipes : nat -> Z -> list string -> list Recipe
}.

(** What one call reads of its surroundings: [date.today()] and
    [uuid.uuid4().hex[:8]]. *)
Record Env := {
  today : Z;
  uuid_hex8 : string
}.

(** The keys of the preferences dictionary that the agent reads. *)
Record Prefs := {
  dietary_restrictions : option (list string);
  cuisine_preferences : option (list string);
  meals_per_day : option Z
}.

Definition _get_meal_types (meals_per_day : Z) : list string :=
  if (meals_per_day =? 1)%Z then ["dinner"]
  else if (meals_per_day =? 2)%Z then ["lunch"; "dinner"]
  else if (meals_per_day =? 3)%Z then ["breakfast"; "lunch"; "dinner"]
  else ["breakfast"; "lunch"; "snack"; "dinner"].

Definition _recipe_to_meal (recipe : Recipe) (meal_type : string) : Meal :=
  let ingredients :=
    map (fun ing => {| i_name := ri_name ing;
                       i_quantity := ri_quantity ing;
                       i_unit := ri_unit ing |})
        (default [] (r_ingredients recipe)) in
  {| meal_type := meal_type;
     recipe_id := r_id recipe;
     recipe_name := r_name recipe;
     ingredients := ingredients;
     instructions := default "" (r_instructions recipe);
     prep_time := default 0%Z (r_prep_time recipe);
     cook_time := default 0%Z (r_cook_time recipe) |}.

(** The body of the inner loop: the meals so far and the number of random
    selections made, before and after one meal type of one day. *)
Definition plan_one_meal (tool : RecipeTool) (dietary_restrictions : list string)
    (cuisine_preferences : list string) (st : list Meal * nat) (meal_type : string)
    : list Meal * nat :=
  let '(meals, selections) := st in
  let cuisine :=
    match cuisine_preferences with
    | [] => None
    | _ => cuisine_preferences !! (length meals mod length cuisine_preferences)%nat
    end in
  let recipes := search_recipes tool cuisine dietary_restrictions 5 in
  let '(recipes, selections) :=
    match recipes with
    | [] => (get_random_recipes tool selections 5 dietary_restrictions, S selections)
    | _ => (recipes, selections)
    end in
  match recipes with
  | recipe :: _ => (meals ++ [_recipe_to_meal recipe meal_type], selections)
  | [] => (meals, selections)
  end.

(** [generate_meal_plan] *)
Definition generate_meal_plan (tool : RecipeTool) (env : Env) (user_id : string)
    (days : Z) (preferences : option Prefs) : res MealPlan :=
  if (days <? 1)%Z then ValueError "Days must be at least 1"
  else
    let dietary_restrictions := default [] (preferences ≫= dietary_restrictions) in
    let cuisine_preferences := default [] (preferences ≫= cuisine_preferences) in
    let meals_per_day := default 3%Z (preferences ≫= meals_per_day) in
    let start_date := today env in
    let end_date := (start_date + (days - 1))%Z in
    let meal_types := _get_meal_types meals_per_day in
    let '(meals, _) :=
      foldl (fun st (_ : nat) =>
               foldl (plan_one_meal tool dietary_restrictions cuisine_preferences)
                     st meal_types)
            ([], 0%nat) (seq 0 (Z.to_nat days)) in
    let plan_id := "plan_" +:+ uuid_hex8 env in
    let unique_recipes := unique_recipe_count meals in
    let meal_plan :=
      {| plan_id := plan_id;
         user_id := user_id;
         start_date := start_date;
         end_date := end_date;
         meals := meals;
         total_recipes := unique_recipes |} in
    match meal_plan_validate meal_plan with
    | Ok _ => Ok meal_plan
    | Raise e => Raise e
    end.

(** The recipe makes a meal that passes [Meal.validate] for every meal type
    the agent plans. *)
Definition usable (recipe : Recipe) : bool :=
  match meal_validate (_recipe_to_meal recipe "dinner") with
  | Ok _ => true
  | Raise _ => false
  end.

(** The tool finds a usable recipe for every search the agent makes with
    these restrictions. *)
Definition well_stocked (tool : RecipeTool) (restrictions : list string) : Prop :=
  forall cuisine, exists recipe rest,
    search_recipes tool cuisine restrictions 5 = recipe :: rest /\
    usable recipe = true.

(** The meal agent as the orchestrator holds it: the plan reduced to the
    attributes the orchestrator reads.  [read] gives the keys the agent
    reads of the orchestrator's preferences dictionary. *)
Definition as_meal_agent (tool : RecipeTool) (env : Env)
    (read : gmap string json -> option Prefs)
    : string -> Z -> gmap string json -> res Orchestrator.MealPlan :=
  fun user_id days prefs =>
    match generate_meal_plan tool env user_id days (read prefs) with
    | Ok plan =>
        Ok {| Orchestrator.mp_start_date := start_date plan;
              Orchestrator.mp_end_date := end_date plan;
              Orchestrator.mp_meals := length (meals plan);
              Orchestrator.mp_total_recipes := total_recipes plan |}
    | Raise e => Raise e
    end.

(** A tool and recipes for the examples. *)
Definition pasta : Recipe :=
  {| r_id := "r1"; r_name := "Pasta";
     r_cuisine := "Italian"; r_dietary_tags := Some ["vegetarian"];
     r_ingredients := Some [ {| ri_name := "spaghetti"; ri_quantity := 200 # 1;
                                ri_unit := "g" |} ];
     r_instructions := Some "Boil.";
     r_prep_time := Some 5%Z; r_cook_time := Some 10%Z |}.

Definition pasta_tool : RecipeTool :=
  {| search_recipes := fun _ _ _ => [pasta];
     get_random_recipes := fun _ _ _ => [pasta] |}.

Definition a_day : Env := {| today := 739923; uuid_hex8 := "0123abcd" |}.

(** An orchestrator whose meal agent is this agent over [pasta_tool], with
    no preferences read. *)
Definition kitchen : Orchestrator.Orchestrator :=
  {| Orchestrator.meal_agent := as_meal_agent pasta_tool a_day (fun _ => None);
     Orchestrator.travel_agent := Orchestrator.travel_agent Orchestrator.demo;
     Orchestrator.memory_bank := ∅;
     Orchestrator.sm_memory_bank := None |}.

End MealPlanningAgent.

(* ===================================================================== *)
(** * RecipeDatabaseTool: [recipe_tool.py] *)
(* ===================================================================== *)

Module RecipeDatabaseTool.
Import Text Py MealPlanningAgent.

(** The tool: [max_retries], and the source of [random.sample], which
    gives for each selection made a choice of [k] of the recipes.  The
    counter [call_count], kept for tests, is left out. *)
Record Tool := {
  max_retries : nat;
  sample : nat -> list Recipe -> nat -> list Recipe
}.

Definition ingredient (name : string) (quantity : Q) (unit : string)
    : RecipeIngredient :=
  {| ri_name := name; ri_quantity := quantity; ri_unit := unit |}.

(** [_get_mock_recipes], with the keys that are read. *)
Definition _get_mock_recipes : list Recipe :=
  [ {| r_id := "recipe_001";
       r_name := "Vegetarian Pasta Primavera";
       r_cuisine := "Italian";
       r_dietary_tags := Some ["vegetarian"; "dairy"];
       r_ingredients := Some
         [ ingredient "pasta" 1 "lb";
           ingredient "bell peppers" 2 "whole";
           ingredient "zucchini" 1 "whole";
           ingredient "olive oil" 2 "tbsp";
           ingredient "parmesan cheese" (1 # 2) "cup" ];
       r_instructions := Some "1. Cook pasta according to package. 2. Sauté vegetables in olive oil. 3. Combine pasta and vegetables. 4. Top with parmesan.";
       r_prep_time := Some 15%Z;
       r_cook_time := Some 20%Z |};
    {| r_id := "recipe_002";
       r_name := "Grilled Chicken Tacos";
       r_cuisine := "Mexican";
       r_dietary_tags := Some ["gluten-free"];
       r_ingredients := Some
         [ ingredient "chicken breast" (3 # 2) "lb";
           ingredient "corn tortillas" 12 "whole";
           ingredient "avocado" 2 "whole";
           ingredient "lime" 2 "whole";
           ingredient "cilantro" (1 # 2) "cup" ];
       r_instructions := Some "1. Season and grill chicken. 2. Warm tortillas. 3. Slice chicken and avocado. 4. Assemble tacos with toppings.";
       r_prep_time := Some 20%Z;
       r_cook_time := Some 15%Z |};
    {| r_id := "recipe_003";
       r_name := "Vegan Buddha Bowl";
       r_cuisine := "Asian";
       r_dietary_tags := Some ["vegan"; "gluten-free"];
       r_ingredients := Some
         [ ingredient "quinoa" 1 "cup";
           ingredient "chickpeas" 1 "can";
           ingredient "sweet potato" 1 "whole";
           ingredient "kale" 2 "cups";
           ingredient "tahini" (1 # 4) "cup" ];
       r_instructions := Some "1. Cook quinoa. 2. Roast sweet potato and chickpeas. 3. Massage kale. 4. Assemble bowl and drizzle with tahini.";
       r_prep_time := Some 25%Z;
       r_cook_time := Some 30%Z |};
    {| r_id := "recipe_004";
       r_name := "Classic Beef Burger";
       r_cuisine := "American";
       r_dietary_tags := Some [];
       r_ingredients := Some
         [ ingredient "ground beef" (3 # 2) "lb";
           ingredient "burger buns" 4 "whole";
           ingredient "lettuce" 4 "leaves";
           ingredient "tomato" 1 "whole";
           ingredient "cheddar cheese" 4 "slices" ];
       r_instructions := Some "1. Form beef into patties. 2. Grill burgers to desired doneness. 3. Toast buns. 4. Assemble burgers with toppings.";
       r_prep_time := Some 10%Z;
       r_cook_time := Some 15%Z |};
    {| r_id := "recipe_005";
       r_name := "Mediterranean Salad";
       r_cuisine := "Mediterranean";
       r_dietary_tags := Some ["vegetarian"; "gluten-free"];
       r_ingredients := Some
         [ ingredient "mixed greens" 6 "cups";
           ingredient "cucumber" 1 "whole";
           ingredient "cherry tomatoes" 2 "cups";
           ingredient "feta cheese" (1 # 2) "cup";
           ingredient "olives" (1 # 2) "cup";
           ingredient "olive oil" 3 "tbsp" ];
       r_instructions := Some "1. Chop vegetables. 2. Combine all ingredients in bowl. 3. Drizzle with olive oil and lemon juice. 4. Toss and serve.";
       r_prep_time := Some 15%Z;
       r_cook_time := Some 0%Z |};
    {| r_id := "recipe_006";
       r_name := "Teriyaki Salmon";
       r_cuisine := "Japanese";
       r_dietary_tags := Some ["gluten-free"; "pescatarian"];
       r_ingredients := Some
         [ ingredient "salmon fillets" 2 "whole";
           ingredient "teriyaki sauce" (1 # 4) "cup";
           ingredient "rice" 1 "cup";
           ingredient "broccoli" 2 "cups";
           ingredient "sesame seeds" 1 "tbsp" ];
       r_instructions := Some "1. Marinate salmon in teriyaki. 2. Cook rice. 3. Bake salmon at 400°F for 15 min. 4. Steam broccoli. 5. Serve with sesame seeds.";
       r_prep_time := Some 10%Z;
       r_cook_time := Some 20%Z |} ].

(** [_matches_restrictions] *)
Definition _matches_restrictions (recipe : Recipe) (restrictions : list string)
    : bool :=
  let recipe_tags := map lower (default [] (r_dietary_tags recipe)) in
  forallb (fun restriction =>
             existsb (String.eqb (lower restriction)) recipe_tags)
          restrictions.

(** [filtered = [r for r in recipes if keep(r)]], and
    [if filtered: recipes = filtered] *)
Definition narrowed (keep : Recipe -> bool) (recipes : list Recipe) : list Recipe :=
  match List.filter keep recipes with
  | [] => recipes
  | filtered => filtered
  end.

(** [recipes[:n]] *)
Definition slice_to (n : Z) (recipes : list Recipe) : list Recipe :=
  if (0 <=? n)%Z then take (Z.to_nat n) recipes
  else take (length recipes - Z.to_nat (- n)) recipes.

(** The filters [search_recipes] and [get_random_recipes] share. *)
Definition by_cuisine (cuisine : option string) (recipes : list Recipe)
    : list Recipe :=
  match cuisine with
  | Some c =>
      if String.eqb c "" then recipes
      else narrowed (fun r => String.eqb (lower (r_cuisine r)) (lower c)) recipes
  | None => recipes
  end.

Definition by_restrictions (dietary_restrictions : option (list string))
    (recipes : list Recipe) : list Recipe :=
  match dietary_restrictions with
  | Some (x :: rest) =>
      narrowed (fun r => _matches_restrictions r (x :: rest)) recipes
  | _ => recipes
  end.

(** [search_recipes].  Nothing in the body of the retry loop raises, so the
    first attempt returns; with no attempt allowed the method returns
    [None]. *)
Definition search_recipes (self : Tool) (query : string) (cuisine : option string)
    (dietary_restrictions : option (list string)) (max_results : Z)
    : option (list Recipe) :=
  match max_retries self with
  | O => None
  | S _ =>
      let recipes := _get_mock_recipes in
      let recipes := by_cuisine cuisine recipes in
      let recipes := by_restrictions dietary_restrictions recipes in
      let recipes :=
        if String.eqb query "" then recipes
        else narrowed (fun r => contains (lower query) (lower (r_name r))) recipes in
      Some (slice_to max_results recipes)
  end.

(** [get_random_recipes]; [selection] tells which use of [random.sample]
    this is. *)
Definition get_random_recipes (self : Tool) (selection : nat) (count : Z)
    (cuisine : option string) (dietary_restrictions : option (list string))
    : res (list Recipe) :=
  let recipes := _get_mock_recipes in
  let recipes := by_cuisine cuisine recipes in
  let recipes := by_restrictions dietary_restrictions recipes in
  let k := Z.min count (Z.of_nat (length recipes)) in
  if (k <? 0)%Z then
    Raise (Exn "ValueError" "Sample larger than population or is negative")
  else Ok (sample self selection recipes (Z.to_nat k)).

(** The tool as the meal agent calls it: a search with the cuisine, the
    restrictions and [max_results], of which the agent reads whether
    anything came back and the first recipe; and a random selection of 5,
    which does not raise. *)
Definition as_recipe_tool (self : Tool) : RecipeTool :=
  {| MealPlanningAgent.search_recipes := fun cuisine restrictions max_results =>
       default [] (search_recipes self "" cuisine (Some restrictions) max_results);
     MealPlanningAgent.get_random_recipes := fun selection count restrictions =>
       match get_random_recipes self selection count None (Some restrictions) with
       | Ok recipes => recipes
       | Raise _ => []
       end |}.

(** The tool as [app.py] builds it, [RecipeDatabaseTool()], over a source
    of selections. *)
Definition shipped (sample : nat -> list Recipe -> nat -> list Recipe) : Tool :=
  {| max_retries := 3; sample := sample |}.

(** A source of selections for the examples: the first [k] recipes. *)
Definition first_k : nat -> list Recipe -> nat -> list Recipe :=
  fun _ recipes k => take k recipes.

End RecipeDatabaseTool.

(* ===================================================================== *)
(** * The texts a pattern matches *)
(* ===================================================================== *)

Module Language.
Import Text Regex.

(** Every character of [t] is in the class. *)
Fixpoint all_in (p : ascii -> bool) (t : string) : bool :=
  match t with
  | EmptyString => true
  | String c t' => p c && all_in p t'
  end.

(** [t] is a text that the pattern matches from its first character to its
    last. *)
Fixpoint lang (r : regex) (t : string) : Prop :=
  match r with
  | Lit w => t = w
  | Cls p => exists c, t = String c "" /\ p c = true
  | Star p => all_in p t = true
  | Plus p => t <> "" /\ all_in p t = true
  | Seq r1 r2 => exists a b, t = a +:+ b /\ lang r1 a /\ lang r2 b
  | Opt r1 => t = "" \/ lang r1 t
  | Grp r1 => lang r1 t
  end.

(** Every text a group of [r] matches satisfies [Q]. *)
Fixpoint groups (Q : string -> Prop) (r : regex) : Prop :=
  match r with
  | Seq r1 r2 => groups Q r1 /\ groups Q r2
  | Opt r1 => groups Q r1
  | Grp r1 => groups Q r1 /\ forall t, lang r1 t -> Q t
  | _ => True
  end.

(** The capture after matching [pre]: the one before, or a piece of [pre]
    that satisfies [Q]. *)
Definition captured (Q : string -> Prop) (pre : string) (g g' : option string)
    : Prop :=
  g' = g \/ exists a t b, pre = a +:+ t +:+ b /\ g' = Some t /\ Q t.

(** A capital letter followed by one or more small letters: [[A-Z][a-z]+]. *)
Definition capitalised (w : string) : Prop :=
  exists c rest,
    w = String c rest /\ is_upper c = true /\ rest <> "" /\
    all_in is_lower rest = true.

(** One capitalised word, or two with whitespace between them. *)
Definition place_name (d : string) : Prop :=
  exists w1, capitalised w1 /\
    (d = w1 \/
     exists sp w2, d = w1 +:+ sp +:+ w2 /\ sp <> "" /\
                   all_in is_space sp = true /\ capitalised w2).

(** A run of one or more decimal digits. *)
Definition digits (t : string) : Prop :=
  t <> "" /\ all_in is_digit t = true.

End Language.

(* ===================================================================== *)
(** * Facts about text *)
(* ===================================================================== *)

Module TextFacts.
Import Text.

Lemma prefix_iff (sub s : string) :
  String.prefix sub s = true <-> exists post, s = sub +:+ post.
Proof.
  revert s. induction sub as [|c sub IH]; intros s.
  - split; [intros _; exists s; reflexivity | intros _; destruct s; reflexivity].
  - destruct s as [|d s]; simpl.
    + split; [discriminate | intros [post H]; discriminate].
    + destruct (ascii_dec c d) as [->|Hne].
      * rewrite IH. split; intros [post H]; exists post; [now rewrite H | now inversion H].
      * split; [discriminate | intros [post H]; injection H as E1 E2; congruence].
Qed.

Lemma contains_iff (sub s : string) :
  contains sub s = true <-> occurs sub s.
Proof.
  unfold occurs. induction s as [|c s IH]; cbn [contains].
  - rewrite orb_false_r, prefix_iff. split.
    + intros [post H]. exists "", post. exact H.
    + intros [pre [post H]]. destruct pre; [|discriminate].
      exists post. exact H.
  - rewrite orb_true_iff, prefix_iff, IH. split.
    + intros [[post H]|[pre [post H]]].
      * exists "", post. exact H.
      * exists (String c pre), post. simpl. now rewrite H.
    + intros [pre [post H]]. destruct pre as [|c' pre].
      * left. exists post. exact H.
      * right. exists pre, post. now injection H.
Qed.

Lemma any_in_iff (words : list string) (s : string) :
  any_in words s = true <-> exists w, In w words /\ occurs w s.
Proof.
  unfold any_in. rewrite existsb_exists.
  split; intros [w [Hin H]]; exists w; (split; [exact Hin|]);
    now apply contains_iff.
Qed.

Lemma any_in_false (words : list string) (s : string) :
  any_in words s = false <-> ~ exists w, In w words /\ occurs w s.
Proof.
  rewrite <- any_in_iff. destruct (any_in words s); split; congruence.
Qed.

End TextFacts.

(* ===================================================================== *)
(** * Facts about matching *)
(* ===================================================================== *)

Module RegexFacts.
Import Text Regex.

Lemma lit_k_inv {A : Type} (w s : string) (k : string -> option A) (x : A) :
  lit_k w s k = Some x ->
  exists s', k s' = Some x /\ String.length s' + String.length w <= String.length s.
Proof.
  revert s. induction w as [|c w IH]; intros s H; simpl in H.
  - exists s. split; [exact H | simpl; lia].
  - destruct s as [|d s]; [discriminate|].
    destruct (Ascii.eqb c d); [|discriminate].
    destruct (IH _ H) as [s' [Hk Hl]]. exists s'. split; [exact Hk | simpl; lia].
Qed.

Lemma star_k_inv {A : Type} (p : ascii -> bool) (s : string)
    (k : string -> option A) (x : A) :
  star_k p s k = Some x ->
  exists s', k s' = Some x /\ String.length s' <= String.length s.
Proof.
  induction s as [|c s IH]; intros H; simpl in H.
  - exists "". split; [exact H | lia].
  - destruct (p c).
    + destruct (star_k p s k) as [y|] eqn:E.
      * injection H as ->. destruct (IH eq_refl) as [s' [Hk Hl]].
        exists s'. split; [exact Hk | simpl; lia].
      * exists (String c s). split; [exact H | lia].
    + exists (String c s). split; [exact H | lia].
Qed.

Lemma consumed_nonempty (s s' : string) :
  String.length s' + 1 <= String.length s -> consumed s s' <> "".
Proof.
  unfold consumed. intros H.
  destruct s as [|c s]; simpl in H; [lia|].
  replace (String.length (String c s) - String.length s')
    with (S (String.length s - String.length s')) by (simpl; lia).
  simpl. discriminate.
Qed.

Lemma match_k_inv {A : Type} (r : regex) :
  safe r = true ->
  forall (s : string) (g : option string)
         (k : string -> option string -> option A) (x : A),
  match_k r s g k = Some x ->
  exists s' g',
    k s' g' = Some x /\
    String.length s' + min_len r <= String.length s /\
    (good g -> good g') /\
    (binds r = true -> good g').
Proof.
  induction r as [w|p|p|p|r1 IH1 r2 IH2|r1 IH1|r1 IH1];
    intros Hs s g k x H; simpl in H, Hs |- *.
  - destruct (lit_k_inv _ _ _ _ H) as [s' [Hk Hl]].
    exists s', g. repeat split; [exact Hk | lia | tauto | discriminate].
  - destruct s as [|c s]; [discriminate|]. destruct (p c); [|discriminate].
    exists s, g. repeat split; [exact H | simpl; lia | tauto | discriminate].
  - destruct (star_k_inv _ _ _ _ H) as [s' [Hk Hl]].
    exists s', g. repeat split; [exact Hk | lia | tauto | discriminate].
  - destruct s as [|c s]; [discriminate|]. destruct (p c); [|discriminate].
    destruct (star_k_inv _ _ _ _ H) as [s' [Hk Hl]].
    exists s', g. repeat split; [exact Hk | simpl; lia | tauto | discriminate].
  - apply andb_true_iff in Hs as [Hs1 Hs2].
    destruct (IH1 Hs1 _ _ _ _ H) as [s1 [g1 [H1 [Hl1 [Hg1 Hb1]]]]].
    destruct (IH2 Hs2 _ _ _ _ H1) as [s2 [g2 [H2 [Hl2 [Hg2 Hb2]]]]].
    exists s2, g2. repeat split; [exact H2 | lia | tauto |].
    intros Hb. apply orb_true_iff in Hb as [Hb|Hb]; tauto.
  - destruct (match_k r1 s g k) as [y|] eqn:E.
    + injection H as ->.
      destruct (IH1 Hs _ _ _ _ E) as [s1 [g1 [H1 [Hl1 [Hg1 _]]]]].
      exists s1, g1. repeat split; [exact H1 | lia | tauto | discriminate].
    + exists s, g. repeat split; [exact H | lia | tauto | discriminate].
  - apply andb_true_iff in Hs as [Hs1 Hs2].
    assert (1 <= min_len r1) by (destruct (min_len r1); [discriminate | lia]).
    destruct (IH1 Hs1 _ _ _ _ H) as [s1 [g1 [H1 [Hl1 _]]]].
    exists s1, (Some (consumed s s1)).
    assert (good (Some (consumed s s1))).
    { eexists. split; [reflexivity|]. apply consumed_nonempty. lia. }
    repeat split; [exact H1 | lia | tauto | tauto].
Qed.

Lemma re_match_group (r : regex) (s : string) (m : match_obj) :
  safe r = true -> binds r = true ->
  re_match r s = Some m -> good (m_group1 m).
Proof.
  intros Hs Hb H. unfold re_match in H.
  destruct (match_k_inv r Hs _ _ _ _ H) as [s' [g' [Hk [_ [_ Hg]]]]].
  injection Hk as <-. simpl. auto.
Qed.

Lemma re_search_group (r : regex) (s : string) (m : match_obj) :
  safe r = true -> binds r = true ->
  re_search r s = Some m -> good (m_group1 m).
Proof.
  intros Hs Hb. induction s as [|c s IH]; simpl; intros H.
  - destruct (re_match r "") eqn:E; [|discriminate].
    injection H as ->. eapply re_match_group; eauto.
  - destruct (re_match r (String c s)) eqn:E.
    + injection H as ->. eapply re_match_group; eauto.
    + auto.
Qed.

Lemma first_match_group (ps : list regex) (s : string) (m : match_obj) :
  forallb (fun r => safe r && binds r) ps = true ->
  first_match ps s = Some m -> good (m_group1 m).
Proof.
  induction ps as [|r ps IH]; simpl; [discriminate|].
  intros Hps H. apply andb_true_iff in Hps as [Hr Hps].
  apply andb_true_iff in Hr as [Hs Hb].
  destruct (re_search r s) eqn:E.
  - injection H as ->. eapply re_search_group; eauto.
  - auto.
Qed.

End RegexFacts.

(* ===================================================================== *)
(** * The intent classifier *)
(* ===================================================================== *)

Module Classifier.
Import Text Orchestrator TextFacts.

Lemma present_dec (words : list string) (message : string) :
  (any_in words (lower message) = true /\ present words message) \/
  (any_in words (lower message) = false /\ ~ present words message).
Proof.
  unfold present. destruct (any_in words (lower message)) eqn:E.
  - left. split; [reflexivity|]. now apply any_in_iff.
  - right. split; [reflexivity|]. now apply any_in_false.
Qed.


End Classifier.

(* ===================================================================== *)
(** * The router *)
(* ===================================================================== *)

Module Router.
Import Text Regex Py Orchestrator RegexFacts.

Section Routes.
Variables (self : Orchestrator) (env : Env) (context : Context).

Let user_id := ctx_user_id context.
Let prefs : gmap string json := default ∅ (ctx_preferences context).
Let message := default "" (ctx_message context).

Lemma try_except_ok {A : Type} (m : M A) (h : exn -> A) :
  exists r, fst (try_except m h) = Ok r.
Proof. destruct m as [[a|e] t]; simpl; eauto. Qed.

(** One level of calls is enough for every intent but [multi_domain]. *)
Lemma leaf_fuel (n : nat) (intent : string) :
  intent <> "multi_domain" ->
  route_to_agent_fuel (S n) self env intent context =
  route_to_agent_fuel 1 self env intent context.
Proof.
  intros Hne. cbn [route_to_agent_fuel].
  destruct (String.eqb intent "meal_planning"); [reflexivity|].
  destruct (String.eqb intent "shopping"); [reflexivity|].
  destruct (String.eqb intent "travel"); [reflexivity|].
  destruct (String.eqb intent "multi_domain") eqn:E; [|reflexivity].
  apply String.eqb_eq in E. contradiction.
Qed.

Lemma route_ok (n : nat) (intent : string) :
  exists r, fst (route_to_agent_fuel (S n) self env intent context) = Ok r.
Proof. cbn [route_to_agent_fuel]. apply try_except_ok. Qed.

Lemma route_ok_pair (n : nat) (intent : string) :
  exists r t, route_to_agent_fuel (S n) self env intent context = (Ok r, t).
Proof.
  destruct (route_ok n intent) as [r Hr]. exists r.
  destruct (route_to_agent_fuel (S n) self env intent context) as [x t].
  exists t. simpl in Hr. now subst.
Qed.

Lemma route_multi_unfold (n : nat) :
  route_to_agent_fuel (S n) self env "multi_domain" context =
  try_except
    (results ←
       (if contains "meal" (lower message) then
          r ← route_to_agent_fuel n self env "meal_planning" context; ret ([] ++ [r])
        else ret []);
     results ←
       (if contains "shop" (lower message) then
          r ← route_to_agent_fuel n self env "shopping" context; ret (results ++ [r])
        else ret results);
     results ←
       (if contains "travel" (lower message) || contains "trip" (lower message) then
          r ← route_to_agent_fuel n self env "travel" context; ret (results ++ [r])
        else ret results);
     ret (RouteResult true (Some (PResults results)) "Completed multi-domain request"))
    error_result.
Proof. reflexivity. Qed.

(** Two levels of calls are enough for every intent. *)
Lemma enough_fuel (n : nat) (intent : string) :
  route_to_agent_fuel (S (S n)) self env intent context =
  route_to_agent self env intent context.
Proof.
  unfold route_to_agent.
  destruct (String.eqb intent "multi_domain") eqn:E.
  - apply String.eqb_eq in E. subst intent.
    rewrite !route_multi_unfold.
    rewrite (leaf_fuel n "meal_planning"), (leaf_fuel n "shopping"), (leaf_fuel n "travel") by discriminate.
    reflexivity.
  - apply String.eqb_neq in E.
    rewrite (leaf_fuel (S n) intent), (leaf_fuel 1 intent) by assumption.
    reflexivity.
Qed.


(** The day count the meal agent is asked for, in terms of [claimed_days]. *)
Lemma extract_days_claimed (msg : string) :
  or_int (_extract_days msg) 7 =
  (let n := claimed_days msg in if (n =? 0)%Z then 7%Z else n).
Proof.
  unfold _extract_days, claimed_days, day_patterns. cbn [first_match].
  destruct (re_search n_days (lower msg)); [reflexivity|].
  destruct (re_search n_dash_day (lower msg)); [reflexivity|].
  destruct (re_search for_n_days (lower msg)); [reflexivity|].
  destruct (contains "week" (lower msg)); reflexivity.
Qed.

(** An extracted destination is never the empty text. *)
Lemma extracted_destination_nonempty (msg d : string) :
  _extract_destination msg = Some d -> d <> "".
Proof.
  unfold _extract_destination.
  destruct (first_match destination_patterns msg) as [m|] eqn:E; [|discriminate].
  intros H. injection H as <-.
  destruct (first_match_group destination_patterns msg m eq_refl E) as [t [Ht Hne]].
  unfold group1. now rewrite Ht.
Qed.

Lemma extracted_destination_truthy (msg d : string) :
  _extract_destination msg = Some d -> falsy_str (Some d) = false.
Proof.
  intros H. apply extracted_destination_nonempty in H.
  simpl. now apply String.eqb_neq.
Qed.

Lemma meal_route_unfold (n : nat) :
  route_to_agent_fuel (S n) self env "meal_planning" context =
  let days := or_int (_extract_days message) 7 in
  match meal_agent self user_id days prefs with
  | Ok plan =>
      (Ok (RouteResult true (Some (PMealPlan plan))
             ("Generated " +:+ pretty days +:+ "-day meal plan")),
       [GenerateMealPlan user_id days prefs])
  | Raise e => (Ok (error_result e), [GenerateMealPlan user_id days prefs])
  end.
Proof.
  cbn [route_to_agent_fuel].
  change (String.eqb "meal_planning" "meal_planning") with true. cbv iota.
  fold user_id prefs message.
  unfold generate_meal_plan. cbn [mbind M_bind bind].
  destruct (meal_agent self user_id (or_int (_extract_days message) 7) prefs);
    reflexivity.
Qed.

Lemma travel_route_unfold (n : nat) :
  route_to_agent_fuel (S n) self env "travel" context =
  let destination := _extract_destination message in
  if falsy_str destination then
    (Ok (RouteResult false None "Please specify a destination for your trip"), [])
  else
    let d := default "" destination in
    let dates := (isoformat (today env + 30), isoformat (today env + 30 + 7)) in
    match travel_agent self user_id d dates 2000 prefs with
    | Ok plan =>
        (Ok (RouteResult true (Some (PTripPlan plan)) ("Created trip plan for " +:+ d)),
         [PlanTrip user_id d dates 2000 prefs])
    | Raise e => (Ok (error_result e), [PlanTrip user_id d dates 2000 prefs])
    end.
Proof.
  cbn [route_to_agent_fuel].
  change (String.eqb "travel" "meal_planning") with false.
  change (String.eqb "travel" "shopping") with false.
  change (String.eqb "travel" "travel") with true. cbv iota.
  fold user_id prefs message.
  destruct (falsy_str (_extract_destination message)); [reflexivity|].
  unfold plan_trip. cbn [mbind M_bind bind].
  destruct (travel_agent self user_id _ _ 2000 prefs); reflexivity.
Qed.




(** C4, as amended.  When the ordered patterns "to X", "visit X",
    "trip to X", "in X" extract no destination, the travel route returns
    [success = false] with a request for the destination and calls no
    agent; otherwise it calls the travel agent once, with the start date 30
    days after today, the end date 7 days later and the budget 2000,
    whatever else the context holds: no key of the context overrides the
    dates or the budget. *)
Theorem travel_route_defaults :
  match _extract_destination message with
  | None =>
      route_to_agent self env "travel" context =
      (Ok (RouteResult false None "Please specify a destination for your trip"), [])
  | Some d =>
      snd (route_to_agent self env "travel" context) =
      [PlanTrip user_id d
         (isoformat (today env + 30), isoformat (today env + 30 + 7)) 2000 prefs]
  end.
Proof.
  unfold route_to_agent. rewrite travel_route_unfold. cbv zeta.
  destruct (_extract_destination message) as [d|] eqn:E; [|reflexivity].
  rewrite (extracted_destination_truthy _ _ E). cbn [default from_option id].
  destruct (travel_agent self user_id d _ 2000 prefs); reflexivity.
Qed.

End Routes.


(** C4, the counterexample.  A context that carries a budget of 500 still
    has the travel agent called with 2000. *)
Lemma budget_override_ignored :
  ~ travel_as_claimed demo demo_env
      (demo_context "Plan a trip to Tokyo" {[ "budget" := JInt 500 ]}).
Proof.
  unfold travel_as_claimed. intros H. vm_compute in H. discriminate H.
Qed.

End Router.

(* ===================================================================== *)
(** * The entry point *)
(* ===================================================================== *)

Module Entry.
Import Text Regex Py Orchestrator.

Section Exchange.
Variables (self : Orchestrator) (env : Env) (w : World).
Variables (user_id message : string) (session_id : option string).

Lemma ambiguous_exchange :
  _parse_intent message = "ambiguous" ->
  process_message self env w user_id message session_id =
  (Ok {[ "response" := RStr (_generate_clarifying_questions message);
         "intent" := RStr "ambiguous";
         "requires_clarification" := RBool true ]},
   (if falsy_str session_id then snd (create_session self env w user_id) else w),
   []).
Proof.
  intros H. unfold process_message.
  destruct (falsy_str session_id); cbn [create_session fst snd]; now rewrite H.
Qed.

(** C3, as amended.  For a message classified [ambiguous],
    [process_message] returns at once with the one fixed clarification
    text, which names the three domains, and calls no agent.  When a
    session id is supplied the state is left exactly as it was; when none
    is supplied the only change to the session store is the session created
    for the user before classification, whose message list is empty.  No
    message is appended to any session. *)
Theorem ambiguous_reply_and_sessions :
  _parse_intent message = "ambiguous" ->
  let '(reply, w', calls) := process_message self env w user_id message session_id in
  let text := _generate_clarifying_questions message in
  reply = Ok {[ "response" := RStr text;
                "intent" := RStr "ambiguous";
                "requires_clarification" := RBool true ]} /\
  text = _generate_clarifying_questions "" /\
  contains "Meal planning" text && contains "Shopping lists" text &&
    contains "Travel planning" text = true /\
  calls = [] /\
  if falsy_str session_id then
    exists s,
      s_user_id s = user_id /\ s_messages s = [] /\
      sessions w' = <[uuid4 env (draws w) := s]> (sessions w)
  else w' = w.
Proof.
  intros H. rewrite (ambiguous_exchange H).
  split; [reflexivity|]. split; [reflexivity|]. split; [reflexivity|].
  split; [reflexivity|].
  destruct (falsy_str session_id); [|reflexivity].
  eexists. cbn [create_session snd sessions]. repeat split; reflexivity.
Qed.

(** On every other path the reply has the four fields. *)
Lemma routed_reply_fields (d : gmap string rval) :
  _parse_intent message <> "ambiguous" ->
  fst (fst (process_message self env w user_id message session_id)) = Ok d ->
  is_Some (d !! "response") /\ is_Some (d !! "intent") /\
  is_Some (d !! "data") /\ is_Some (d !! "session_id").
Proof.
  intros Hne. unfold process_message.
  destruct (if falsy_str session_id then _ else _) as [sid w1].
  apply String.eqb_neq in Hne. rewrite Hne.
  destruct (route_to_agent _ _ _ _) as [[result|e] calls]; [|discriminate].
  destruct (_generate_summary _ result) as [summary|e]; [|discriminate].
  cbn [fst]. intros H. injection H as <-.
  repeat split; simplify_map_eq; eauto.
Qed.

(** On the ambiguous path it has neither [data] nor [session_id]. *)
Lemma ambiguous_reply_fields :
  _parse_intent message = "ambiguous" ->
  exists d,
    fst (fst (process_message self env w user_id message session_id)) = Ok d /\
    d !! "data" = None /\ d !! "session_id" = None.
Proof.
  intros H. rewrite (ambiguous_exchange H). eexists. split; [reflexivity|].
  split; reflexivity.
Qed.

End Exchange.

Lemma ambiguous_reply_at_hello_there :
  _parse_intent "hello there" = "ambiguous" /\
  let '(reply, w', calls) :=
    process_message demo demo_env empty_world "u" "hello there" None in
  let text := _generate_clarifying_questions "hello there" in
  reply = Ok {[ "response" := RStr text;
                "intent" := RStr "ambiguous";
                "requires_clarification" := RBool true ]} /\
  text = _generate_clarifying_questions "" /\
  contains "Meal planning" text && contains "Shopping lists" text &&
    contains "Travel planning" text = true /\
  calls = [] /\
  if falsy_str None then
    exists s,
      s_user_id s = "u" /\ s_messages s = [] /\
      sessions w' = <[uuid4 demo_env (draws empty_world) := s]> (sessions empty_world)
  else w' = empty_world.
Proof.
  split; [reflexivity|].
  apply (ambiguous_reply_and_sessions demo demo_env empty_world "u" "hello there" None).
  reflexivity.
Defined.

(** C3, the counterexample.  Without a session id the exchange "hello
    there" leaves a new session in a store that was empty. *)
Lemma ambiguous_exchange_creates_session :
  ~ store_untouched demo demo_env empty_world "u" "hello there" None.
Proof.
  unfold store_untouched. intros H.
  apply (f_equal (fun m => bool_decide (is_Some (m !! "session-0")))) in H.
  vm_compute in H. discriminate H.
Qed.

(** C2, at the failing input.  The reply to "hello there" has no [data]
    and no [session_id], which [chat_with_agent] in [app.py] reads from
    every reply. *)
Lemma hello_there_reply_lacks_fields :
  exists d,
    fst (fst (process_message demo demo_env empty_world "default_user"
                "hello there" None)) = Ok d /\
    d !! "data" = None /\ d !! "session_id" = None.
Proof. eexists. split; [reflexivity|]. split; reflexivity. Qed.

End Entry.

(* ===================================================================== *)
(** * The scenarios of the specification *)
(* ===================================================================== *)

Module Scenarios.
Import Text Regex Py Orchestrator.

Example five_day_plan_is_meal_planning :
  _parse_intent "Create a 5-day vegetarian meal plan" = "meal_planning" /\
  _extract_days "Create a 5-day vegetarian meal plan" = Some 5%Z.
Proof. split; reflexivity. Qed.

Example trip_to_tokyo_is_travel :
  _parse_intent "Plan a trip to Tokyo for 5 days" = "travel" /\
  _extract_destination "Plan a trip to Tokyo for 5 days" = Some "Tokyo".
Proof. split; reflexivity. Qed.

Example hello_there_is_ambiguous : _parse_intent "hello there" = "ambiguous".
Proof. reflexivity. Qed.

Example shopping_needs_a_meal_plan :
  route_to_agent demo demo_env "shopping" (demo_context "a grocery list" ∅) =
  (Ok (RouteResult false None
         "Please generate a meal plan first before creating a shopping list"), []).
Proof. reflexivity. Qed.

Example meals_and_trip_is_multi_domain :
  let message := "Cook dinner plans and a trip to Rome" in
  _parse_intent message = "multi_domain" /\
  sub_intents message = ["travel"] /\
  snd (route_to_agent demo demo_env "multi_domain" (demo_context message ∅)) =
  [PlanTrip "u" "Rome" ("2026-12-03", "2026-12-10") 2000 ∅].
Proof. cbv zeta. repeat split; vm_compute; reflexivity. Qed.

End Scenarios.

(* ===================================================================== *)
(** * The state store *)
(* ===================================================================== *)

Module Paths.
Import Text Py StatePersistence.

Lemma append_cons (x : ascii) (a b : string) :
  String x a +:+ b = String x (a +:+ b).
Proof. reflexivity. Qed.

Lemma append_assoc (a b c : string) : (a +:+ b) +:+ c = a +:+ (b +:+ c).
Proof.
  induction a as [|x a IH]; [reflexivity|].
  rewrite !append_cons. now f_equal.
Qed.

Lemma append_length (a b : string) :
  String.length (a +:+ b) = String.length a + String.length b.
Proof.
  induction a as [|x a IH]; [reflexivity|].
  rewrite append_cons. simpl. now f_equal.
Qed.

Lemma append_cancel_l (a b c : string) : a +:+ b = a +:+ c -> b = c.
Proof.
  induction a as [|x a IH]; intros H; [exact H|].
  rewrite !append_cons in H. injection H. auto.
Qed.

Lemma append_cancel_r (a b c : string) : a +:+ c = b +:+ c -> a = b.
Proof.
  revert b. induction a as [|x a IH]; intros [|y b] H.
  - reflexivity.
  - apply (f_equal String.length) in H.
    rewrite append_cons in H. simpl in H. rewrite !append_length in H.
    simpl in H. lia.
  - apply (f_equal String.length) in H.
    rewrite append_cons in H. simpl in H. rewrite !append_length in H.
    simpl in H. lia.
  - rewrite !append_cons in H. injection H as -> H. f_equal. auto.
Qed.

Lemma index_file_name (env : Env) (u : string) :
  str_of_text env ->
  _get_user_index_file env (JStr u) = _get_state_file (index_name u).
Proof.
  intros H. unfold _get_user_index_file, _get_state_file, index_name.
  rewrite H. now rewrite !append_assoc.
Qed.

Lemma state_file_inj (t t' : string) :
  _get_state_file t = _get_state_file t' -> t = t'.
Proof. apply append_cancel_r. Qed.

Lemma state_file_not_index (env : Env) (t u : string) :
  str_of_text env -> t <> index_name u ->
  _get_state_file t <> _get_user_index_file env (JStr u).
Proof.
  intros H Hne E. rewrite (index_file_name env u H) in E.
  now apply state_file_inj in E.
Qed.

Lemma index_file_inj (env : Env) (u u' : string) :
  str_of_text env ->
  _get_user_index_file env (JStr u) = _get_user_index_file env (JStr u') -> u = u'.
Proof.
  intros H E. rewrite !(index_file_name env _ H) in E.
  apply state_file_inj in E. unfold index_name in E.
  apply append_cancel_l in E. now apply append_cancel_r in E.
Qed.

End Paths.

Module StoreProps.
Import Text Py StatePersistence Paths.

Lemma entry_for_unique (t t' : string) (v : json) :
  entry_for t v = true -> entry_for t' v = true -> t = t'.
Proof.
  unfold entry_for. destruct v as [| | | |p]; try discriminate.
  destruct (p !! "task_id") as [[| | |x|]|]; try discriminate.
  intros H1 H2. apply String.eqb_eq in H1, H2. congruence.
Qed.

Lemma entry_for_projection (t : string) (state : dict) (stamp : string) :
  entry_for t (JObj (projection t state stamp)) = true.
Proof.
  unfold entry_for, projection.
  rewrite !lookup_insert_ne by done. rewrite lookup_insert_eq.
  apply String.eqb_refl.
Qed.

Lemma no_entries (t : string) (l : list json) :
  (forall v, v ∈ l -> entry_for t v = false) ->
  filter (fun v => entry_for t v = true) l = [].
Proof.
  induction l as [|v l IH]; intros H; [reflexivity|].
  rewrite filter_cons. destruct (decide (entry_for t v = true)) as [E|E].
  - rewrite H in E by left. discriminate.
  - apply IH. intros v' Hv'. apply H. now right.
Qed.

(** In a keyed index that has just received the entry of task [t], that
    entry is the only one for [t]. *)
Lemma one_entry (index : dict) (t : string) (p : dict) :
  index_keyed index -> entry_for t (JObj p) = true ->
  length (filter (fun v => entry_for t v = true)
            (map_to_list (<[t := JObj p]> index)).*2) = 1.
Proof.
  intros Hk Hp. rewrite <- insert_delete_eq.
  rewrite (map_to_list_insert (delete t index) t (JObj p))
    by apply lookup_delete_eq.
  rewrite fmap_cons, filter_cons. cbn [snd].
  destruct (decide (entry_for t (JObj p) = true)); [|contradiction].
  rewrite no_entries; [reflexivity|].
  intros v Hv. apply list_elem_of_fmap in Hv as [[k v'] [-> Hkv]].
  apply elem_of_map_to_list in Hkv. cbn [snd].
  apply lookup_delete_Some in Hkv as [Hne Hkv].
  destruct (entry_for t v') eqn:E; [|reflexivity].
  exfalso. apply Hne. symmetry. eapply entry_for_unique; eauto.
Qed.

Section Saving.
Variables (env : Env) (w : Store) (t : string) (state : dict) (u : string).
Hypothesis Hstr : str_of_text env.
Hypothesis Huser : state !! "user_id" = Some (JStr u).
Hypothesis Hclash : t <> index_name u.

Let stamp := clock env (ticks w).
Let stamped : dict := <["saved_at" := JStr stamp]> (<["task_id" := JStr t]> state).

Lemma save_state_unfold :
  save_state env w t state =
  (Ok tt,
   {| files :=
        <[_get_user_index_file env (JStr u) :=
            <[t := JObj (projection t state stamp)]> (_load_user_index env w (JStr u))]>
        (<[_get_state_file t := stamped]> (files w));
      ticks := S (ticks w) |}).
Proof.
  unfold save_state. rewrite Huser.
  unfold _save_user_index, _load_user_index, write_file, tick. cbn [files ticks].
  rewrite lookup_insert_ne by (now apply state_file_not_index).
  reflexivity.
Qed.


(** Away from a clash of file names, [save_state] does what C8 says. *)
Lemma save_state_effect :
  let w' := snd (save_state env w t state) in
  fst (save_state env w t state) = Ok tt /\
  load_state w' t = Some stamped /\
  _load_user_index env w' (JStr u) =
    <[t := JObj (projection t state stamp)]> (_load_user_index env w (JStr u)) /\
  (forall path,
     path <> _get_state_file t -> path <> _get_user_index_file env (JStr u) ->
     files w' !! path = files w !! path) /\
  (index_keyed (_load_user_index env w (JStr u)) -> entries_for env w' u t = 1).
Proof.
  rewrite save_state_unfold. cbn [fst snd].
  assert (Hne : _get_state_file t <> _get_user_index_file env (JStr u))
    by now apply state_file_not_index.
  split; [reflexivity|]. split.
  { unfold load_state. cbn [files]. now rewrite lookup_insert_ne, lookup_insert_eq. }
  assert (Hidx : _load_user_index env
            {| files :=
                 <[_get_user_index_file env (JStr u) :=
                     <[t := JObj (projection t state stamp)]>
                       (_load_user_index env w (JStr u))]>
                 (<[_get_state_file t := stamped]> (files w));
               ticks := S (ticks w) |} (JStr u) =
          <[t := JObj (projection t state stamp)]> (_load_user_index env w (JStr u))).
  { unfold _load_user_index at 1. cbn [files]. now rewrite lookup_insert_eq. }
  split; [exact Hidx|]. split.
  { intros path H1 H2. cbn [files]. now rewrite !lookup_insert_ne. }
  intros Hk. unfold entries_for, list_paused_tasks. rewrite Hidx.
  apply one_entry; [exact Hk | apply entry_for_projection].
Qed.

End Saving.

(** [save_state] raises exactly when the state has no [user_id], the
    exception is a [ValueError], and nothing is written. *)
Lemma save_state_raises_iff (env : Env) (w : Store) (t : string) (state : dict) :
  (state !! "user_id" = None <->
   save_state env w t state =
   (Raise (Exn "ValueError" "State must include 'user_id' field"), w)) /\
  (state !! "user_id" <> None <-> fst (save_state env w t state) = Ok tt).
Proof.
  unfold save_state. destruct (state !! "user_id"); cbn [fst].
  - split; split; intros H; try reflexivity; try discriminate; congruence.
  - split; split; intros H; try reflexivity; try discriminate; congruence.
Qed.

Section Updating.
Variables (env : Env) (w : Store) (t status : string) (st : dict) (u : string).
Hypothesis Hstr : str_of_text env.
Hypothesis Hrecord : load_state w t = Some st.
Hypothesis Huser : st !! "user_id" = Some (JStr u).
Hypothesis Hclash : t <> index_name u.

(** X5.  Away from a clash of file names, [update_task_status] on a stored
    record does what C10 says: it returns normally, and the record loaded
    afterwards has the new status, the time of the update under
    [updated_at], and every other field but the two stamps of [save_state]
    as it was. *)
Lemma update_task_status_effect :
  let w' := snd (update_task_status env w t status) in
  fst (update_task_status env w t status) = Ok tt /\
  exists st',
    load_state w' t = Some st' /\
    st' !! "status" = Some (JStr status) /\
    st' !! "updated_at" = Some (JStr (clock env (ticks w))) /\
    forall k,
      k <> "status" -> k <> "updated_at" -> k <> "task_id" -> k <> "saved_at" ->
      st' !! k = st !! k.
Proof.
  unfold update_task_status. rewrite Hrecord.
  assert (Ht : truthy st = true).
  { unfold truthy. apply negb_true_iff, Nat.eqb_neq.
    apply (map_size_ne_0_lookup_2 st "user_id"). now rewrite Huser. }
  rewrite Ht.
  set (st1 := <["updated_at" := JStr (clock env (ticks w))]>
                (<["status" := JStr status]> st)).
  assert (Hu1 : st1 !! "user_id" = Some (JStr u)).
  { unfold st1. now rewrite !lookup_insert_ne by done. }
  destruct (save_state_effect env (tick w) t st1 u Hstr Hu1 Hclash)
    as [Hok [Hload _]].
  split; [exact Hok|]. eexists. split; [exact Hload|].
  split; [|split].
  - unfold st1. rewrite !lookup_insert_ne by done. apply lookup_insert_eq.
  - unfold st1. rewrite !lookup_insert_ne by done. apply lookup_insert_eq.
  - intros k H1 H2 H3 H4. unfold st1. now rewrite !lookup_insert_ne by done.
Qed.

End Updating.

(** With no record stored for the task, [update_task_status] does nothing. *)
Lemma update_task_status_absent (env : Env) (w : Store) (t status : string) :
  load_state w t = None -> update_task_status env w t status = (Ok tt, w).
Proof. intros H. unfold update_task_status. now rewrite H. Qed.


(** C8, at the failing input.  Saved under the name of alice's index file,
    a record of alice's is overwritten by the index: what [load_state]
    returns is not the stamped state but the index, which holds the state's
    fields and stamps beside the entry of the task, and
    [list_paused_tasks] returns those fields among its four values.  When
    the state carries the task id in its context, two of the values
    returned are entries with that task id. *)
Lemma clashing_task_id_loses_record :
  let t := "user_alice_index" in
  let st : dict := {[ "user_id" := JStr "alice" ]} in
  let stamped : dict := <["saved_at" := JStr "t0"]> (<["task_id" := JStr t]> st) in
  let w := snd (save_state plain_env empty_store t st) in
  let st2 : dict := <["context" := JObj {[ "task_id" := JStr t ]}]> st in
  let w2 := snd (save_state plain_env empty_store t st2) in
  fst (save_state plain_env empty_store t st) = Ok tt /\
  load_state w t = Some (<[t := JObj (projection t st "t0")]> stamped) /\
  load_state w t <> Some stamped /\
  length (list_paused_tasks plain_env w "alice") = 4 /\
  JStr "alice" ∈ list_paused_tasks plain_env w "alice" /\
  entries_for plain_env w2 "alice" t = 2.
Proof.
  cbv zeta. split; [reflexivity|]. split; [reflexivity|]. split.
  - intros H.
    apply (f_equal (fun o => bool_decide
             (is_Some (o ≫= fun d : dict => d !! "user_alice_index")))) in H.
    vm_compute in H. discriminate H.
  - split; [reflexivity|]. split; [|vm_compute; reflexivity].
    apply list_elem_of_In. vm_compute. tauto.
Qed.

(** C9, at the failing input.  A task saved for alice and then saved again
    for bob belongs to bob, and alice's index still lists it. *)
Lemma reassigned_task_stays_indexed :
  let w := run plain_env empty_store
             [ SaveState "task" {[ "user_id" := JStr "alice" ]};
               SaveState "task" {[ "user_id" := JStr "bob" ]} ] in
  in_index plain_env w "alice" "task" /\
  has_record w "bob" "task" /\
  ~ has_record w "alice" "task".
Proof.
  cbv zeta. split; [|split].
  - unfold in_index. vm_compute. eauto.
  - eexists. split; reflexivity.
  - intros [st [H1 H2]].
    assert (E : load_state
                  (run plain_env empty_store
                     [ SaveState "task" {[ "user_id" := JStr "alice" ]};
                       SaveState "task" {[ "user_id" := JStr "bob" ]} ]) "task"
                ≫= (fun d : dict => d !! "user_id") = Some (JStr "alice"))
      by (rewrite H1; exact H2).
    vm_compute in E. discriminate E.
Qed.

(** C10, at the failing input.  No task was saved as "user_u_index", yet
    [update_task_status] on that id reads u's index as its record and
    raises. *)
Lemma update_on_index_name_raises :
  let w := run plain_env empty_store [ SaveState "a" {[ "user_id" := JStr "u" ]} ] in
  fst (update_task_status plain_env w "user_u_index" "completed") =
  Raise (Exn "ValueError" "State must include 'user_id' field").
Proof. vm_compute. reflexivity. Qed.

End StoreProps.

Module Views.
Import Text Py StatePersistence Paths StoreProps.

Lemma projection_ext (t stamp : string) (st st' : dict) :
  st' !! "status" = st !! "status" ->
  st' !! "agent_type" = st !! "agent_type" ->
  projection t st' stamp = projection t st stamp.
Proof. intros H1 H2. unfold projection. now rewrite H1, H2. Qed.

Lemma strip_prefix_iff (p s x : string) :
  strip_prefix p s = Some x <-> s = p +:+ x.
Proof.
  revert s. induction p as [|c p IH]; intros s; simpl.
  - split; [now intros [= ->] | now intros ->].
  - destruct s as [|d s]; [split; discriminate|].
    rewrite append_cons. destruct (Ascii.eqb_spec c d) as [->|Hne].
    + rewrite IH. split; [now intros -> | now intros [= ->]].
    + split; [discriminate | intros [= -> _]; contradiction].
Qed.

Lemma append_nil_inv (x sfx : string) : "" = x +:+ sfx -> x = "" /\ sfx = "".
Proof.
  destruct x as [|d x].
  - intros H. change ("" = sfx) in H. now subst.
  - rewrite append_cons. discriminate.
Qed.

Lemma strip_suffix_iff (sfx s x : string) :
  strip_suffix sfx s = Some x <-> s = x +:+ sfx.
Proof.
  revert x. induction s as [|c s IH]; intros x; cbn [strip_suffix].
  - destruct (String.eqb_spec "" sfx) as [<-|Hne].
    + split.
      * now intros [= <-].
      * intros H. apply append_nil_inv in H as [-> _]. reflexivity.
    + split; [discriminate|].
      intros H. apply append_nil_inv in H as [_ ->]. now contradiction Hne.
  - destruct (String.eqb_spec (String c s) sfx) as [<-|Hne].
    + split.
      * now intros [= <-].
      * intros H. f_equal. symmetry.
        apply (append_cancel_r _ _ (String c s)). symmetry. exact H.
    + destruct x as [|d x].
      * split; [|intros H; now contradiction Hne].
        destruct (strip_suffix sfx s); discriminate.
      * rewrite append_cons. specialize (IH x).
        destruct (strip_suffix sfx s) as [y|]; cbn [fmap option_fmap option_map].
        -- split.
           ++ intros [= <- <-]. f_equal. now apply IH.
           ++ intros [= <- H]. apply IH in H. congruence.
        -- split; [discriminate|].
           intros [= <- H]. apply IH in H. discriminate.
Qed.

Lemma index_user_iff (t x : string) :
  index_user t = Some x <-> t = index_name x.
Proof.
  unfold index_user, index_name. split.
  - destruct (strip_prefix "user_" t) as [r|] eqn:E; [|discriminate].
    simpl. intros H. apply strip_prefix_iff in E. apply strip_suffix_iff in H.
    now subst.
  - intros ->. rewrite (proj2 (strip_prefix_iff "user_" _ (x +:+ "_index")) eq_refl).
    simpl. now apply strip_suffix_iff.
Qed.

Lemma clean_or_index_name (t : string) : clean t \/ exists x, t = index_name x.
Proof.
  destruct (index_user t) as [x|] eqn:E.
  - right. exists x. now apply index_user_iff.
  - left. intros u H. apply index_user_iff in H. congruence.
Qed.

Lemma clean_not_index (env : Env) (t u : string) :
  str_of_text env -> clean t ->
  _get_state_file t <> _get_user_index_file env (JStr u).
Proof. intros H Hc. apply state_file_not_index; auto. Qed.

Section Invariant.
Variable env : Env.
Hypothesis Hstr : str_of_text env.

Local Abbreviation inv := (StatePersistence.inv env).

Lemma inv_files (w w' : Store) : files w' = files w -> inv w -> inv w'.
Proof.
  intros E [A B C].
  split; unfold load_state, _load_user_index in *; rewrite E; auto.
Qed.

Lemma inv_empty : inv empty_store.
Proof.
  split; unfold load_state, _load_user_index; cbn [files empty_store].
  - intros t st _ H. now rewrite lookup_empty in H.
  - intros u t v H. rewrite lookup_empty in H. cbn in H.
    now rewrite lookup_empty in H.
  - intros u t st _ H. now rewrite lookup_empty in H.
Qed.

Lemma inv_consistent (w : Store) : inv w -> consistent env w.
Proof.
  intros [A B C] u t. split; [split|].
  - intros [v Hv]. destruct (B _ _ _ Hv) as [_ [st [H1 [H2 _]]]].
    exists st. auto.
  - intros [st [H1 H2]].
    destruct (clean_or_index_name t) as [Hc|[x ->]]; [now apply (C u t st)|].
    exfalso. unfold load_state in H1.
    rewrite <- (index_file_name env x Hstr) in H1.
    assert (E : _load_user_index env w (JStr x) = st)
      by (unfold _load_user_index; now rewrite H1).
    rewrite <- E in H2.
    destruct (B _ _ _ H2) as [_ [st' [_ [_ [stamp [_ Hv]]]]]]. discriminate Hv.
  - intros v Hv. destruct (B _ _ _ Hv) as [_ [st [H1 [_ H3]]]]. eauto.
Qed.


Section Save.
Variables (w : Store) (t : string) (st : dict) (u : string).
Hypothesis Hinv : inv w.
Hypothesis Hclean : clean t.
Hypothesis Huser : st !! "user_id" = Some (JStr u).
Hypothesis Howner :
  forall st0, load_state w t = Some st0 -> st0 !! "user_id" = Some (JStr u).

Let stamp := clock env (ticks w).
Let stamped : dict := <["saved_at" := JStr stamp]> (<["task_id" := JStr t]> st).
Let entry : json := JObj (projection t st stamp).
Let w' := snd (save_state env w t st).

Lemma save_reads_record (t' : string) :
  clean t' ->
  load_state w' t' = if decide (t' = t) then Some stamped else load_state w t'.
Proof.
  intros Hc. unfold w'. rewrite (save_state_unfold env w t st u Hstr Huser (Hclean u)).
  unfold load_state. cbn [snd files].
  rewrite lookup_insert_ne by (intros E; now apply (clean_not_index env t' u Hstr Hc)).
  destruct (decide (t' = t)) as [->|Hne].
  - apply lookup_insert_eq.
  - apply lookup_insert_ne. intros E. apply state_file_inj in E. congruence.
Qed.

Lemma save_reads_index (u' : string) :
  _load_user_index env w' (JStr u') =
  if decide (u' = u) then <[t := entry]> (_load_user_index env w (JStr u))
  else _load_user_index env w (JStr u').
Proof.
  unfold w'. rewrite (save_state_unfold env w t st u Hstr Huser (Hclean u)).
  unfold _load_user_index at 1. cbn [snd files].
  destruct (decide (u' = u)) as [->|Hne].
  - now rewrite lookup_insert_eq.
  - rewrite lookup_insert_ne
      by (intros E; apply (index_file_inj env _ _ Hstr) in E; congruence).
    rewrite lookup_insert_ne
      by (intros E; now apply (clean_not_index env t u' Hstr Hclean)).
    reflexivity.
Qed.

Lemma stamped_user : stamped !! "user_id" = Some (JStr u).
Proof. unfold stamped. now rewrite !lookup_insert_ne by done. Qed.

Lemma stamped_view : view_of t stamped entry.
Proof.
  exists stamp. split.
  - unfold stamped. apply lookup_insert_eq.
  - unfold entry. f_equal. symmetry. apply projection_ext;
      unfold stamped; now rewrite !lookup_insert_ne by done.
Qed.

Lemma inv_save : inv w'.
Proof.
  destruct Hinv as [A B C]. split.
  - intros t' s Hc. rewrite (save_reads_record t' Hc).
    destruct (decide (t' = t)) as [->|Hne]; [|now apply A].
    intros [= <-]. exists u, stamp. split; [apply stamped_user|].
    unfold stamped. apply lookup_insert_eq.
  - intros u' t' v. rewrite save_reads_index.
    destruct (decide (u' = u)) as [->|Hu].
    + destruct (decide (t' = t)) as [->|Ht].
      * rewrite lookup_insert_eq. intros [= <-]. split; [exact Hclean|].
        exists stamped. rewrite (save_reads_record t Hclean).
        rewrite decide_True by reflexivity.
        split; [reflexivity|]. split; [apply stamped_user | apply stamped_view].
      * rewrite lookup_insert_ne by congruence. intros Hv.
        destruct (B _ _ _ Hv) as [Hc [s [H1 H2]]]. split; [exact Hc|].
        exists s. rewrite (save_reads_record t' Hc).
        rewrite decide_False by exact Ht. auto.
    + intros Hv. destruct (B _ _ _ Hv) as [Hc [s [H1 [H2 H3]]]].
      split; [exact Hc|]. exists s. rewrite (save_reads_record t' Hc).
      destruct (decide (t' = t)) as [->|Ht]; [|auto].
      apply Howner in H1. congruence.
  - intros u' t' s Hc. rewrite (save_reads_record t' Hc), save_reads_index.
    destruct (decide (t' = t)) as [->|Ht].
    + intros [= <-]. rewrite stamped_user. intros [= <-].
      rewrite decide_True by reflexivity. rewrite lookup_insert_eq. eauto.
    + intros H1 H2. pose proof (C _ _ _ Hc H1 H2) as H3.
      destruct (decide (u' = u)) as [->|Hu]; [|exact H3].
      now rewrite lookup_insert_ne by congruence.
Qed.

End Save.

Section Delete.
Variables (w : Store) (t : string).
Hypothesis Hinv : inv w.
Hypothesis Hclean : clean t.

Let w' := delete_state env w t.

Lemma unlink_index (u : string) :
  _load_user_index env (unlink w (_get_state_file t)) (JStr u) =
  _load_user_index env w (JStr u).
Proof.
  unfold _load_user_index, unlink. cbn [files].
  rewrite lookup_delete_ne
    by (intros E; now apply (clean_not_index env t u Hstr Hclean)).
  reflexivity.
Qed.

Lemma delete_reads_record (t' : string) :
  clean t' ->
  load_state w' t' = if decide (t' = t) then None else load_state w t'.
Proof.
  intros Hc.
  assert (Hun : load_state (unlink w (_get_state_file t)) t' =
                if decide (t' = t) then None else load_state w t').
  { unfold load_state, unlink. cbn [files].
    destruct (decide (t' = t)) as [->|Hne]; [apply lookup_delete_eq|].
    apply lookup_delete_ne. intros E. apply state_file_inj in E. congruence. }
  unfold w', delete_state.
  destruct (load_state w t) as [st|] eqn:E; [|exact Hun].
  destruct (st !! "user_id") as [uid|] eqn:Eu; [|exact Hun].
  destruct (inv_record env w Hinv t st Hclean E) as [u [stamp [Hu _]]].
  rewrite Eu in Hu. injection Hu as ->.
  destruct (_load_user_index env _ (JStr u) !! t); [|exact Hun].
  rewrite <- Hun. unfold load_state, _save_user_index, write_file. cbn [files].
  apply lookup_insert_ne. intros E'. now apply (clean_not_index env t' u Hstr Hc).
Qed.

Lemma delete_reads_index (u' : string) :
  _load_user_index env w' (JStr u') = _load_user_index env w (JStr u') \/
  _load_user_index env w' (JStr u') = delete t (_load_user_index env w (JStr u')).
Proof.
  unfold w', delete_state.
  destruct (load_state w t) as [st|] eqn:E; [|left; apply unlink_index].
  destruct (st !! "user_id") as [uid|] eqn:Eu; [|left; apply unlink_index].
  destruct (inv_record env w Hinv t st Hclean E) as [u [stamp [Hu _]]].
  rewrite Eu in Hu. injection Hu as ->. rewrite unlink_index.
  destruct (_load_user_index env w (JStr u) !! t) eqn:Ei; [|left; apply unlink_index].
  unfold _save_user_index, write_file.
  destruct (decide (u' = u)) as [->|Hne].
  - right. unfold _load_user_index at 1. cbn [files].
    now rewrite lookup_insert_eq.
  - left. unfold _load_user_index at 1. cbn [files].
    rewrite lookup_insert_ne
      by (intros E'; apply (index_file_inj env _ _ Hstr) in E'; congruence).
    apply unlink_index.
Qed.

Lemma delete_reads_owner (st : dict) (u : string) :
  load_state w t = Some st -> st !! "user_id" = Some (JStr u) ->
  _load_user_index env w' (JStr u) !! t = None.
Proof.
  intros E Eu. unfold w', delete_state. rewrite E, Eu, unlink_index.
  destruct (_load_user_index env w (JStr u) !! t) eqn:Ei.
  - unfold _save_user_index, write_file, _load_user_index. cbn [files].
    rewrite lookup_insert_eq. apply lookup_delete_eq.
  - now rewrite unlink_index.
Qed.

Lemma inv_delete : inv w'.
Proof.
  pose proof Hinv as [A B C]. split.
  - intros t' s Hc. rewrite (delete_reads_record t' Hc).
    destruct (decide (t' = t)); [discriminate | now apply A].
  - intros u' t' v Hv.
    assert (Hold : _load_user_index env w (JStr u') !! t' = Some v).
    { destruct (delete_reads_index u') as [E|E]; rewrite E in Hv; [exact Hv|].
      now apply lookup_delete_Some in Hv. }
    destruct (B _ _ _ Hold) as [Hc [s [H1 [H2 H3]]]].
    split; [exact Hc|]. exists s. rewrite (delete_reads_record t' Hc).
    destruct (decide (t' = t)) as [->|Ht]; [|auto].
    rewrite (delete_reads_owner s u' H1 H2) in Hv. discriminate.
  - intros u' t' s Hc. rewrite (delete_reads_record t' Hc).
    destruct (decide (t' = t)) as [->|Ht]; [discriminate|].
    intros H1 H2. pose proof (C _ _ _ Hc H1 H2) as H3.
    destruct (delete_reads_index u') as [E|E]; rewrite E; [exact H3|].
    now rewrite lookup_delete_ne by congruence.
Qed.

End Delete.

Lemma inv_update (w : Store) (t status : string) :
  inv w -> clean t -> inv (snd (update_task_status env w t status)).
Proof.
  intros Hinv Hc. unfold update_task_status.
  destruct (load_state w t) as [st|] eqn:E; [|exact Hinv].
  destruct (truthy st); [|exact Hinv].
  destruct (inv_record env w Hinv t st Hc E) as [u [stamp [Hu _]]].
  apply (inv_save (tick w) t _ u).
  - now apply (inv_files w).
  - exact Hc.
  - now rewrite !lookup_insert_ne by done.
  - intros st0 H. change (load_state w t = Some st0) in H. congruence.
Qed.

Lemma inv_step (w : Store) (o : op) :
  inv w -> well_used w o -> inv (snd (step env w o)).
Proof.
  intros Hinv [t st u Hc Hu Ho|t Hc|t s Hc]; cbn [step snd].
  - now apply (inv_save w t st u).
  - now apply inv_delete.
  - now apply inv_update.
Qed.

Lemma inv_run (ops : list op) (w : Store) :
  inv w -> well_run env w ops -> inv (run env w ops).
Proof.
  revert w. induction ops as [|o ops IH]; intros w Hinv Hrun; [exact Hinv|].
  inversion Hrun as [|? ? ? Ho Hrest]; subst.
  cbn [run foldl]. apply IH; [now apply inv_step | exact Hrest].
Qed.


End Invariant.
End Views.

(* ===================================================================== *)
(** * The store lemmas at work *)
(* ===================================================================== *)

Module StoreExamples.
Import Text Py StatePersistence Paths StoreProps Views.

Lemma plain_env_str : str_of_text plain_env.
Proof. intros s. reflexivity. Qed.

Lemma clean_a : clean "a".
Proof. intros u H. apply index_user_iff in H. vm_compute in H. discriminate H. Qed.

Lemma a_run_is_well_used :
  well_run plain_env empty_store
    [ SaveState "a" a_state; UpdateTaskStatus "a" "completed"; DeleteState "a" ].
Proof.
  constructor.
  - apply (wu_save _ "a" a_state "u"); [apply clean_a | reflexivity |].
    intros st0 H. vm_compute in H. discriminate H.
  - constructor; [apply wu_update, clean_a|].
    constructor; [apply wu_delete, clean_a|]. constructor.
Qed.


Lemma save_a_effect :
  let w' := snd (save_state plain_env empty_store "a" a_state) in
  fst (save_state plain_env empty_store "a" a_state) = Ok tt /\
  load_state w' "a" =
    Some (<["saved_at" := JStr "t0"]> (<["task_id" := JStr "a"]> a_state)) /\
  entries_for plain_env w' "u" "a" = 1.
Proof.
  destruct (save_state_effect plain_env empty_store "a" a_state "u"
              plain_env_str eq_refl (clean_a "u")) as [H1 [H2 [_ [_ H5]]]].
  split; [exact H1|]. split; [exact H2|]. apply H5.
  intros k v H. vm_compute in H. discriminate H.
Defined.

Lemma update_a_effect :
  let w := snd (save_state plain_env empty_store "a" a_state) in
  let w' := snd (update_task_status plain_env w "a" "completed") in
  exists st',
    load_state w' "a" = Some st' /\
    st' !! "status" = Some (JStr "completed") /\
    st' !! "current_step" = Some (JInt 2) /\
    st' !! "total_steps" = Some (JInt 5) /\
    st' !! "user_id" = Some (JStr "u") /\
    st' !! "agent_type" = Some (JStr "meal").
Proof.
  cbv zeta.
  destruct (update_task_status_effect plain_env
              (snd (save_state plain_env empty_store "a" a_state)) "a" "completed"
              (<["saved_at" := JStr "t0"]> (<["task_id" := JStr "a"]> a_state)) "u"
              plain_env_str eq_refl eq_refl (clean_a "u"))
    as [_ [st' [H1 [H2 [_ H4]]]]].
  exists st'. split; [exact H1|]. split; [exact H2|].
  repeat split; (rewrite H4 by done; reflexivity).
Defined.

End StoreExamples.

(* ===================================================================== *)
(** * The state store: deleting, reading back, and what is left alone *)
(* ===================================================================== *)

Module StoreRoundTrips.
Import Text Py StatePersistence Paths StoreProps StoreExamples.

Lemma store_eq (w w' : Store) :
  files w = files w' -> ticks w = ticks w' -> w = w'.
Proof. destruct w, w'. simpl. now intros -> ->. Qed.

(** Whatever the store holds, no file is left under the task's name. *)
Lemma delete_state_gone (env : Env) (w : Store) (t : string) :
  load_state (delete_state env w t) t = None.
Proof.
  assert (Hun : load_state (unlink w (_get_state_file t)) t = None)
    by apply lookup_delete_eq.
  unfold delete_state.
  destruct (load_state w t) as [st|]; [|exact Hun].
  destruct (st !! "user_id") as [uid|]; [|exact Hun].
  destruct (_load_user_index env _ uid !! t) as [v|] eqn:Ei; [|exact Hun].
  unfold load_state, _save_user_index, write_file. cbn [files].
  destruct (decide (_get_user_index_file env uid = _get_state_file t)) as [E|Hne].
  - exfalso. unfold _load_user_index, unlink in Ei. cbn [files] in Ei.
    rewrite E, lookup_delete_eq in Ei. cbn in Ei.
    now rewrite lookup_empty in Ei.
  - rewrite lookup_insert_ne by exact Hne. exact Hun.
Qed.

Lemma delete_state_absent (env : Env) (w : Store) (t : string) :
  load_state w t = None -> delete_state env w t = w.
Proof.
  intros H. unfold delete_state. rewrite H.
  apply store_eq; [|reflexivity]. cbn [unlink files].
  now apply delete_id.
Qed.

(** X1.  After [delete_state] no record is stored for the task, whatever
    the store held and whatever the task id is, a name that clashes with
    an index file included; deleting again, or deleting a task that has
    no record, changes nothing. *)
Theorem delete_state_removes_record (env : Env) (w : Store) (t : string) :
  let w' := delete_state env w t in
  load_state w' t = None /\
  task_exists w' t = false /\
  delete_state env w' t = w' /\
  (task_exists w t = false -> w' = w).
Proof.
  cbv zeta. split; [apply delete_state_gone|]. split; [|split].
  - unfold task_exists. apply bool_decide_eq_false.
    pose proof (delete_state_gone env w t) as H. unfold load_state in H.
    rewrite H. now intros [x Hx].
  - apply delete_state_absent, delete_state_gone.
  - intros H. apply delete_state_absent.
    unfold task_exists in H. apply bool_decide_eq_false in H.
    unfold load_state. destruct (files w !! _get_state_file t); [|reflexivity].
    exfalso. apply H. eauto.
Qed.

Section Saved.
Variables (env : Env) (w : Store) (t : string) (state : dict) (u : string).
Hypothesis Hstr : str_of_text env.
Hypothesis Huser : state !! "user_id" = Some (JStr u).
Hypothesis Hclash : t <> index_name u.

(** X2.  Away from a clash of file names, a state saved is the state loaded:
    [load_state] returns it with the task id and the time of saving filed
    under [task_id] and [saved_at], [task_exists] holds, and the entry of
    the task is among what [list_paused_tasks] returns for the state's
    user. *)
Theorem save_state_round_trip :
  let w' := snd (save_state env w t state) in
  let stamp := clock env (ticks w) in
  load_state w' t =
    Some (<["saved_at" := JStr stamp]> (<["task_id" := JStr t]> state)) /\
  task_exists w' t = true /\
  JObj (projection t state stamp) ∈ list_paused_tasks env w' u.
Proof.
  destruct (save_state_effect env w t state u Hstr Huser Hclash)
    as [_ [Hload [Hidx _]]].
  cbv zeta. split; [exact Hload|]. split.
  - unfold task_exists. apply bool_decide_eq_true.
    unfold load_state in Hload. rewrite Hload. eauto.
  - unfold list_paused_tasks. rewrite Hidx.
    apply list_elem_of_fmap. exists (t, JObj (projection t state (clock env (ticks w)))).
    split; [reflexivity|]. apply elem_of_map_to_list, lookup_insert_eq.
Qed.

(** X3.  Away from a clash of file names, [save_state] touches the record and
    the index entry of its task only: every other task loads as before,
    the other entries of the user's index are as before, and so is what
    [list_paused_tasks] returns for any other user. *)
Theorem save_state_frame :
  let w' := snd (save_state env w t state) in
  (forall t', t' <> t -> t' <> index_name u ->
     load_state w' t' = load_state w t') /\
  (forall t', t' <> t ->
     _load_user_index env w' (JStr u) !! t' = _load_user_index env w (JStr u) !! t') /\
  (forall u', u' <> u -> t <> index_name u' ->
     list_paused_tasks env w' u' = list_paused_tasks env w u').
Proof.
  destruct (save_state_effect env w t state u Hstr Huser Hclash)
    as [_ [_ [Hidx [Hframe _]]]].
  cbv zeta. split; [|split].
  - intros t' H1 H2. unfold load_state. apply Hframe.
    + intros E. now apply state_file_inj in E.
    + now apply state_file_not_index.
  - intros t' H1. rewrite Hidx. now apply lookup_insert_ne.
  - intros u' H1 H2. unfold list_paused_tasks, _load_user_index.
    rewrite Hframe; [reflexivity| |].
    + intros E. symmetry in E. revert E. now apply state_file_not_index.
    + intros E. now apply index_file_inj in E.
Qed.

(** X4.  Away from a clash of file names, [delete_state] undoes [save_state]:
    the record is gone, the user's index is what it was less the entry of
    the task, and every other file is as it was. *)
Theorem save_then_delete :
  let w1 := snd (save_state env w t state) in
  let w2 := delete_state env w1 t in
  load_state w2 t = None /\
  _load_user_index env w2 (JStr u) = delete t (_load_user_index env w (JStr u)) /\
  (forall path,
     path <> _get_state_file t -> path <> _get_user_index_file env (JStr u) ->
     files w2 !! path = files w !! path).
Proof.
  cbv zeta. split; [apply delete_state_gone|].
  rewrite (save_state_unfold env w t state u Hstr Huser Hclash). cbn [snd].
  assert (Hne : _get_state_file t <> _get_user_index_file env (JStr u))
    by now apply state_file_not_index.
  unfold delete_state, load_state. cbn [files].
  rewrite lookup_insert_ne by congruence. rewrite lookup_insert_eq.
  rewrite !lookup_insert_ne by done. rewrite Huser.
  set (W := {| files := _; ticks := S (ticks w) |}).
  assert (Hix : _load_user_index env (unlink W (_get_state_file t)) (JStr u) =
                <[t := JObj (projection t state (clock env (ticks w)))]>
                  (_load_user_index env w (JStr u))).
  { unfold _load_user_index at 1. unfold unlink, W. cbn [files].
    rewrite lookup_delete_ne by exact Hne. now rewrite lookup_insert_eq. }
  rewrite Hix, lookup_insert_eq.
  unfold _save_user_index, write_file, _load_user_index at 1. cbn [files].
  rewrite lookup_insert_eq. cbn [default from_option id].
  split; [apply delete_insert_eq|].
  intros path H1 H2. rewrite lookup_insert_ne by congruence.
  unfold unlink, W. cbn [files].
  rewrite lookup_delete_ne by congruence.
  now rewrite !lookup_insert_ne by congruence.
Qed.

End Saved.

Section Updated.
Variables (env : Env) (w : Store) (t status : string) (st : dict) (u : string).
Hypothesis Hstr : str_of_text env.
Hypothesis Hrecord : load_state w t = Some st.
Hypothesis Huser : st !! "user_id" = Some (JStr u).
Hypothesis Hclash : t <> index_name u.

(** X6.  Away from a clash of file names, [update_task_status] on a stored
    record refreshes the entry of the task in its user's index: the entry
    has the new status, the record's agent type ("unknown" when it has
    none) and the time of saving that the record now carries. *)
Theorem update_task_status_refreshes_index :
  let w' := snd (update_task_status env w t status) in
  exists p stamp,
    _load_user_index env w' (JStr u) !! t = Some (JObj p) /\
    p !! "task_id" = Some (JStr t) /\
    p !! "status" = Some (JStr status) /\
    p !! "agent_type" = Some (default (JStr "unknown") (st !! "agent_type")) /\
    p !! "saved_at" = Some (JStr stamp) /\
    load_state w' t ≫= (fun d : dict => d !! "saved_at") = Some (JStr stamp).
Proof.
  unfold update_task_status. rewrite Hrecord.
  assert (Ht : truthy st = true).
  { unfold truthy. apply negb_true_iff, Nat.eqb_neq.
    apply (map_size_ne_0_lookup_2 st "user_id"). now rewrite Huser. }
  rewrite Ht.
  set (st1 := <["updated_at" := JStr (clock env (ticks w))]>
                (<["status" := JStr status]> st)).
  assert (Hu1 : st1 !! "user_id" = Some (JStr u)).
  { unfold st1. now rewrite !lookup_insert_ne by done. }
  destruct (save_state_effect env (tick w) t st1 u Hstr Hu1 Hclash)
    as [_ [Hload [Hidx _]]].
  cbv zeta. eexists _, _. rewrite Hidx, Hload, lookup_insert_eq.
  split; [reflexivity|]. unfold projection.
  split; [now rewrite !lookup_insert_ne by done|].
  split.
  { rewrite !lookup_insert_ne by done. rewrite lookup_insert_eq.
    unfold st1. rewrite !lookup_insert_ne by done. now rewrite lookup_insert_eq. }
  split.
  { rewrite !lookup_insert_ne by done. rewrite lookup_insert_eq.
    unfold st1. now rewrite !lookup_insert_ne by done. }
  split; [apply lookup_insert_eq|].
  cbn. apply lookup_insert_eq.
Qed.

End Updated.

Lemma save_state_round_trip_at_a :
  let w' := snd (save_state plain_env empty_store "a" a_state) in
  load_state w' "a" =
    Some (<["saved_at" := JStr "t0"]> (<["task_id" := JStr "a"]> a_state)) /\
  task_exists w' "a" = true /\
  JObj (projection "a" a_state "t0") ∈ list_paused_tasks plain_env w' "u".
Proof.
  exact (save_state_round_trip plain_env empty_store "a" a_state "u"
           plain_env_str eq_refl (clean_a "u")).
Defined.

Lemma save_state_frame_at_a :
  let w' := snd (save_state plain_env empty_store "a" a_state) in
  load_state w' "b" = load_state empty_store "b" /\
  list_paused_tasks plain_env w' "v" = list_paused_tasks plain_env empty_store "v".
Proof.
  destruct (save_state_frame plain_env empty_store "a" a_state "u"
              plain_env_str eq_refl (clean_a "u")) as [H1 [_ H3]].
  split.
  - apply H1; [discriminate|]. intros E. discriminate E.
  - apply H3; [discriminate|]. apply clean_a.
Defined.

Lemma save_then_delete_at_a :
  let w1 := snd (save_state plain_env empty_store "a" a_state) in
  load_state (delete_state plain_env w1 "a") "a" = None /\
  _load_user_index plain_env (delete_state plain_env w1 "a") (JStr "u") =
    delete "a" (_load_user_index plain_env empty_store (JStr "u")).
Proof.
  destruct (save_then_delete plain_env empty_store "a" a_state "u"
              plain_env_str eq_refl (clean_a "u")) as [H1 [H2 _]].
  split; [exact H1 | exact H2].
Defined.

Lemma update_refreshes_index_at_a :
  let w := snd (save_state plain_env empty_store "a" a_state) in
  let w' := snd (update_task_status plain_env w "a" "completed") in
  exists p stamp,
    _load_user_index plain_env w' (JStr "u") !! "a" = Some (JObj p) /\
    p !! "status" = Some (JStr "completed") /\
    p !! "agent_type" = Some (JStr "meal") /\
    p !! "saved_at" = Some (JStr stamp).
Proof.
  cbv zeta.
  destruct (update_task_status_refreshes_index plain_env
              (snd (save_state plain_env empty_store "a" a_state)) "a" "completed"
              (<["saved_at" := JStr "t0"]> (<["task_id" := JStr "a"]> a_state)) "u"
              plain_env_str eq_refl eq_refl (clean_a "u"))
    as [p [stamp [H1 [_ [H3 [H4 [H5 _]]]]]]].
  exists p, stamp. split; [exact H1|]. split; [exact H3|]. split; [exact H4|exact H5].
Defined.

End StoreRoundTrips.

(* ===================================================================== *)
(** * Sessions *)
(* ===================================================================== *)

Module SessionProps.
Import Text Py Orchestrator SessionManager.

Lemma keyed_empty : keyed empty_world.
Proof. intros k s H. cbn in H. now rewrite lookup_empty in H. Qed.

Lemma keyed_create (self : Orchestrator) (env : Env) (w : World) (u : string) :
  keyed w -> keyed (snd (create_session self env w u)).
Proof.
  intros Hk k s. cbn [create_session snd sessions].
  destruct (decide (k = uuid4 env (draws w))) as [->|Hne].
  - rewrite lookup_insert_eq. intros H. injection H as <-. reflexivity.
  - rewrite lookup_insert_ne by congruence. apply Hk.
Qed.

Lemma keyed_update (env : Env) (w : World) (sid : string) (msgs : list Message) :
  keyed w -> keyed (update_session env w sid msgs).
Proof.
  intros Hk. unfold update_session.
  destruct (sessions w !! sid) as [s0|] eqn:E; [|exact Hk].
  pose proof (Hk _ _ E) as Hid. intros k s. cbn [sessions s_session_id].
  rewrite Hid, insert_insert_eq.
  destruct (decide (k = sid)) as [->|Hne].
  - rewrite lookup_insert_eq. intros H. injection H as <-. reflexivity.
  - rewrite lookup_insert_ne by congruence. apply Hk.
Qed.

Lemma keyed_metadata (env : Env) (w : World) (sid key : string) (value : json) :
  keyed w -> keyed (update_session_metadata env w sid key value).
Proof.
  intros Hk. unfold update_session_metadata.
  destruct (sessions w !! sid) as [s0|] eqn:E; [|exact Hk].
  pose proof (Hk _ _ E) as Hid. intros k s. cbn [sessions s_session_id].
  rewrite Hid, insert_insert_eq.
  destruct (decide (k = sid)) as [->|Hne].
  - rewrite lookup_insert_eq. intros H. injection H as <-. reflexivity.
  - rewrite lookup_insert_ne by congruence. apply Hk.
Qed.

Lemma keyed_close (w : World) (sid : string) : keyed w -> keyed (close_session w sid).
Proof.
  intros Hk. unfold close_session.
  destruct (sessions w !! sid) as [s0|]; [|exact Hk].
  intros k s. cbn [sessions]. intros H.
  apply lookup_delete_Some in H as [_ H]. now apply Hk.
Qed.

Lemma keyed_step (self : Orchestrator) (env : Env) (w : World) (o : op) :
  keyed w -> keyed (step self env w o).
Proof.
  destruct o; cbn [step].
  - apply keyed_create.
  - apply keyed_update.
  - apply keyed_metadata.
  - apply keyed_close.
Qed.

Lemma keyed_run (self : Orchestrator) (env : Env) (ops : list op) (w : World) :
  keyed w -> keyed (run self env w ops).
Proof.
  revert w. induction ops as [|o ops IH]; intros w Hk; [exact Hk|].
  cbn [run foldl]. apply IH. now apply keyed_step.
Qed.

(** The history of a session after [update_session]. *)
Lemma update_session_history (env : Env) (w : World) (sid : string)
    (msgs : list Message) (s : Session) :
  sessions w !! sid = Some s ->
  exists s',
    sessions (update_session env w sid msgs) !! sid = Some s' /\
    s_messages s' = s_messages s ++ msgs /\
    s_user_id s' = s_user_id s /\
    s_session_id s' = s_session_id s /\
    s_created_at s' = s_created_at s /\
    s_metadata s' = s_metadata s.
Proof.
  intros E. unfold update_session. rewrite E. cbn [sessions s_session_id].
  destruct (decide (s_session_id s = sid)) as [Heq|Hne].
  - eexists. split.
    + apply lookup_insert_Some. left. split; [exact Heq | reflexivity].
    + repeat split; reflexivity.
  - eexists. split.
    + rewrite lookup_insert_ne by exact Hne. apply lookup_insert_eq.
    + repeat split; reflexivity.
Qed.

Lemma update_session_draws (env : Env) (w : World) (sid : string)
    (msgs : list Message) :
  draws (update_session env w sid msgs) = draws w.
Proof. unfold update_session. destruct (sessions w !! sid); reflexivity. Qed.

Lemma update_session_others (env : Env) (w : World) (sid : string)
    (msgs : list Message) (k : string) :
  keyed w -> k <> sid ->
  sessions (update_session env w sid msgs) !! k = sessions w !! k.
Proof.
  intros Hk Hne. unfold update_session.
  destruct (sessions w !! sid) as [s0|] eqn:E; [|reflexivity].
  cbn [sessions s_session_id]. rewrite (Hk _ _ E).
  now rewrite !lookup_insert_ne by congruence.
Qed.

(** X8.  Every run of the session manager from a store in which each
    session is filed under its own identifier leaves the store so: what
    [get_session] returns for an identifier is a session with that
    identifier. *)
Theorem sessions_stay_keyed (self : Orchestrator) (env : Env) (w : World)
    (ops : list op) :
  keyed w ->
  forall sid s, get_session (run self env w ops) sid = Some s -> s_session_id s = sid.
Proof. intros Hk. apply (keyed_run self env ops w Hk). Qed.

(** X9.  [update_session] appends the messages, in order, to the session's
    history and keeps its user, identifier, creation time and metadata; two
    updates append one after the other; and in a keyed store no other
    session changes. *)
Theorem update_session_appends (env : Env) (w : World) (sid : string)
    (a b : list Message) (s : Session) :
  get_session w sid = Some s ->
  let w1 := update_session env w sid a in
  let w2 := update_session env w1 sid b in
  get_conversation_history w1 sid = s_messages s ++ a /\
  get_conversation_history w2 sid = s_messages s ++ a ++ b /\
  (exists s2, get_session w2 sid = Some s2 /\
     s_user_id s2 = s_user_id s /\ s_session_id s2 = s_session_id s /\
     s_created_at s2 = s_created_at s /\ s_metadata s2 = s_metadata s) /\
  (keyed w -> forall k, k <> sid -> get_session w2 k = get_session w k).
Proof.
  intros E. cbv zeta. unfold get_session in *.
  destruct (update_session_history env w sid a s E)
    as [s1 [E1 [M1 [U1 [I1 [C1 D1]]]]]].
  destruct (update_session_history env _ sid b s1 E1)
    as [s2 [E2 [M2 [U2 [I2 [C2 D2]]]]]].
  unfold get_conversation_history. rewrite E1, E2.
  split; [exact M1|]. split; [now rewrite M2, M1, app_assoc|]. split.
  - exists s2. split; [reflexivity|]. repeat split; congruence.
  - intros Hk k Hne.
    rewrite update_session_others by (try apply keyed_update; assumption).
    now apply update_session_others.
Qed.

(** The session [create_session] files, after a first [update_session]. *)
Lemma new_session_updated (self : Orchestrator) (env : Env) (w : World)
    (u : string) (msgs : list Message) :
  let sid := fst (create_session self env w u) in
  let w1 := snd (create_session self env w u) in
  sid = uuid4 env (draws w) /\
  draws w1 = S (draws w) /\
  (exists s1, sessions w1 !! sid = Some s1 /\ s_messages s1 = [] /\ s_user_id s1 = u) /\
  exists s, sessions (update_session env w1 sid msgs) !! sid = Some s /\
            s_messages s = msgs /\ s_user_id s = u /\ s_session_id s = sid.
Proof.
  cbn [create_session fst snd].
  set (sid := uuid4 env (draws w)).
  set (w1 := {| sessions := _; ticks := S (S (ticks w)); draws := S (draws w) |}).
  assert (E1 : sessions w1 !! sid =
               Some {| s_session_id := sid; s_user_id := u; s_messages := [];
                       s_created_at := clock env (ticks w);
                       s_updated_at := clock env (S (ticks w));
                       s_metadata :=
                         match sm_memory_bank self with
                         | Some bank => {[ "preferences" := JObj (get_all_preferences bank u) ]}
                         | None => ∅
                         end |}) by apply lookup_insert_eq.
  destruct (update_session_history env w1 sid msgs _ E1)
    as [s2 [E2 [M2 [U2 [I2 _]]]]].
  split; [reflexivity|]. split; [reflexivity|]. split.
  - eexists. split; [exact E1|]. split; reflexivity.
  - exists s2. repeat split; assumption.
Qed.

(** X10.  A session just created has an empty history, and messages sent
    to it with [update_session] are its history, whatever the store held
    before; it is listed among its user's sessions. *)
Theorem new_session_history (self : Orchestrator) (env : Env) (w : World)
    (u : string) (msgs : list Message) :
  let '(sid, w1) := create_session self env w u in
  let w2 := update_session env w1 sid msgs in
  get_conversation_history w1 sid = [] /\
  get_conversation_history w2 sid = msgs /\
  exists s, get_session w2 sid = Some s /\ s_session_id s = sid /\
            s_user_id s = u /\ s ∈ list_user_sessions w2 u.
Proof.
  pose proof (new_session_updated self env w u msgs) as H. cbv zeta in H.
  destruct (create_session self env w u) as [sid w1]. cbn [fst snd] in H.
  destruct H as [_ [_ [[s1 [E1 [M1 _]]] [s [E [M [U I]]]]]]].
  unfold get_conversation_history, get_session. rewrite E1, E.
  split; [exact M1|]. split; [exact M|].
  exists s. split; [reflexivity|]. split; [exact I|]. split; [exact U|].
  unfold list_user_sessions. apply list_elem_of_filter. split; [exact U|].
  apply list_elem_of_fmap. exists (sid, s). split; [reflexivity|].
  now apply elem_of_map_to_list.
Qed.

(** After [close_session] the session is gone: [get_session] finds
    nothing, its history reads as empty, and an [update_session] sent to it
    changes nothing.  The other sessions are as before. *)
Lemma close_session_forgets (env : Env) (w : World) (sid : string)
    (msgs : list Message) :
  let w' := close_session w sid in
  get_session w' sid = None /\
  get_conversation_history w' sid = [] /\
  update_session env w' sid msgs = w' /\
  (forall k, k <> sid -> get_session w' k = get_session w k) /\
  close_session w' sid = w'.
Proof.
  cbv zeta.
  assert (E : sessions (close_session w sid) !! sid = None).
  { unfold close_session. destruct (sessions w !! sid) eqn:E0; [|exact E0].
    apply lookup_delete_eq. }
  unfold get_session, get_conversation_history, update_session.
  rewrite E. split; [reflexivity|]. split; [reflexivity|]. split; [reflexivity|].
  split.
  - intros k Hne. unfold close_session.
    destruct (sessions w !! sid); [|reflexivity].
    cbn [sessions]. now apply lookup_delete_ne.
  - unfold close_session at 1. now rewrite E.
Qed.

(** When the identifier drawn is not in use, [create_session] adds exactly
    one session to its user's list and none to any other user's. *)
Lemma create_session_lists (self : Orchestrator) (env : Env) (w : World)
    (u : string) :
  sessions w !! uuid4 env (draws w) = None ->
  let '(sid, w') := create_session self env w u in
  (exists s, get_session w' sid = Some s /\ s_messages s = [] /\
     list_user_sessions w' u ≡ₚ s :: list_user_sessions w u) /\
  (forall u', u' <> u -> list_user_sessions w' u' ≡ₚ list_user_sessions w u').
Proof.
  intros Hfresh. cbn [create_session].
  unfold get_session, list_user_sessions. cbn [sessions].
  split.
  - eexists. split; [apply lookup_insert_eq|]. split; [reflexivity|].
    rewrite (map_to_list_insert _ _ _ Hfresh). rewrite fmap_cons. cbn [snd].
    rewrite filter_cons_True by reflexivity. reflexivity.
  - intros u' Hne.
    rewrite (map_to_list_insert _ _ _ Hfresh). rewrite fmap_cons. cbn [snd].
    rewrite filter_cons_False; [reflexivity|]. cbn. congruence.
Qed.

End SessionProps.

(* ===================================================================== *)
(** * Exchanges: what the router asks of the agents, and what
      [process_message] records *)
(* ===================================================================== *)

Module Exchanges.
Import Text Regex Py Orchestrator SessionManager Router.

Lemma parse_intent_cases (message : string) :
  _parse_intent message = "ambiguous" \/
  _parse_intent message = "meal_planning" \/
  _parse_intent message = "shopping" \/
  _parse_intent message = "travel" \/
  _parse_intent message = "multi_domain".
Proof.
  unfold _parse_intent.
  destruct (any_in meal_words _), (any_in shopping_words _), (any_in travel_words _);
    simpl; tauto.
Qed.

Lemma int_acc_nonneg (s : string) (acc : Z) : (0 <= acc -> 0 <= int_acc acc s)%Z.
Proof.
  revert acc. induction s as [|c s IH]; intros acc H; [exact H|].
  cbn [int_acc]. apply IH. unfold digit_value. lia.
Qed.

(** The day count asked of the meal agent is never below 1. *)
Lemma days_at_least_one (message : string) :
  (1 <= or_int (_extract_days message) 7)%Z.
Proof.
  unfold _extract_days.
  destruct (first_match day_patterns (lower message)) as [m|].
  - cbn [or_int]. pose proof (int_acc_nonneg (group1 m) 0 ltac:(lia)) as H.
    fold (int_of (group1 m)) in H.
    destruct (Z.eqb_spec (int_of (group1 m)) 0); lia.
  - destruct (contains "week" (lower message)); cbn; lia.
Qed.

Section Routes.
Variables (self : Orchestrator) (env : Env) (context : Context).

Let user_id := ctx_user_id context.
Let prefs : gmap string json := default ∅ (ctx_preferences context).
Let message := default "" (ctx_message context).
Let days := or_int (_extract_days message) 7.
Let dates := (isoformat (today env + 30), isoformat (today env + 30 + 7)).

(** The calls a leaf route may make. *)
Let meal_call := GenerateMealPlan user_id days prefs.
Let trip_call (d : string) := PlanTrip user_id d dates 2000 prefs.

Lemma meal_route_shape (n : nat) :
  exists r summary,
    route_to_agent_fuel (S n) self env "meal_planning" context = (Ok r, [meal_call]) /\
    _generate_summary "meal_planning" r = Ok summary.
Proof.
  rewrite meal_route_unfold. cbv zeta.
  fold user_id prefs message days meal_call.
  destruct (meal_agent self user_id days prefs) as [plan|e];
    eexists _, _; (split; [reflexivity|]); reflexivity.
Qed.

Lemma shopping_route_shape (n : nat) :
  route_to_agent_fuel (S n) self env "shopping" context =
  (Ok (RouteResult false None
         "Please generate a meal plan first before creating a shopping list"), []).
Proof. reflexivity. Qed.

Lemma travel_route_shape (n : nat) :
  exists r summary,
    (route_to_agent_fuel (S n) self env "travel" context = (Ok r, []) /\
     _extract_destination message = None \/
     exists d, _extract_destination message = Some d /\ d <> "" /\
       route_to_agent_fuel (S n) self env "travel" context = (Ok r, [trip_call d])) /\
    _generate_summary "travel" r = Ok summary.
Proof.
  rewrite travel_route_unfold. cbv zeta.
  fold user_id prefs message dates.
  destruct (_extract_destination message) as [d|] eqn:E.
  - rewrite (extracted_destination_truthy _ _ E). cbn [default from_option id].
    pose proof (extracted_destination_nonempty _ _ E) as Hd.
    fold (trip_call d).
    destruct (travel_agent self user_id d dates 2000 prefs) as [plan|e];
      eexists _, _;
      (split; [right; exists d; split; [reflexivity|split; [exact Hd|reflexivity]]
              | reflexivity]).
  - cbn [falsy_str]. eexists _, _. split; [left; split; reflexivity|]. reflexivity.
Qed.

Lemma unknown_route_shape (n : nat) (intent : string) :
  intent <> "meal_planning" -> intent <> "shopping" -> intent <> "travel" ->
  intent <> "multi_domain" ->
  route_to_agent_fuel (S n) self env intent context =
  (Ok (RouteResult false None ("Unknown intent: " +:+ intent)), []).
Proof.
  intros H1 H2 H3 H4. cbn [route_to_agent_fuel].
  apply String.eqb_neq in H1, H2, H3, H4. now rewrite H1, H2, H3, H4.
Qed.

(** The calls of a multi-domain route are those of its meal sub-route, if
    any, followed by those of its travel sub-route, if any. *)
Lemma multi_route_shape :
  exists results,
    route_to_agent self env "multi_domain" context =
    (Ok (RouteResult true (Some (PResults results)) "Completed multi-domain request"),
     (if contains "meal" (lower message)
      then snd (route_to_agent_fuel 1 self env "meal_planning" context) else []) ++
     (if contains "travel" (lower message) || contains "trip" (lower message)
      then snd (route_to_agent_fuel 1 self env "travel" context) else [])).
Proof.
  unfold route_to_agent. rewrite route_multi_unfold. fold message.
  destruct (route_ok_pair self env context 0 "meal_planning") as [rm [tm Hm]].
  destruct (route_ok_pair self env context 0 "travel") as [rt [tt Ht]].
  rewrite shopping_route_shape, Hm, Ht.
  destruct (contains "meal" (lower message)),
           (contains "shop" (lower message)),
           (contains "travel" (lower message) || contains "trip" (lower message));
    cbn [try_except mbind M_bind bind ret fst snd app];
    rewrite ?app_nil_r;
    eexists; reflexivity.
Qed.

(** For each of the four intents [process_message] routes, the route
    returns a result and the summary of that result is a text. *)
Lemma exchange_ok (intent : string) :
  exists result calls summary,
    route_to_agent self env intent context = (Ok result, calls) /\
    _generate_summary intent result = Ok summary.
Proof.
  destruct (String.eqb_spec intent "meal_planning") as [->|H1].
  { destruct (meal_route_shape 1) as [r [s [H1 H2]]]. eauto 6. }
  destruct (String.eqb_spec intent "shopping") as [->|H2].
  { eexists _, _, _. split; reflexivity. }
  destruct (String.eqb_spec intent "travel") as [->|H3].
  { destruct (travel_route_shape 1) as [r [s [[[H _]|[d [_ [_ H]]]] Hs]]]; eauto 6. }
  destruct (String.eqb_spec intent "multi_domain") as [->|H4].
  { destruct multi_route_shape as [rs H]. eexists _, _, _. split; [exact H|]. reflexivity. }
  unfold route_to_agent. rewrite (unknown_route_shape 1 intent) by assumption.
  eexists _, _, _. split; [reflexivity|].
  unfold _generate_summary. reflexivity.
Qed.

(** X12.  Whatever the intent handed to [route_to_agent], every call it makes
    to the meal agent asks for at least one day, and every call it makes to
    the travel agent names a destination that is not empty, the dates 30
    and 37 days from today and the budget 2000; both carry the user and
    the preferences of the context. *)
Theorem agent_calls_well_formed (intent : string) (c : call) :
  In c (snd (route_to_agent self env intent context)) ->
  match c with
  | GenerateMealPlan u n p => u = user_id /\ (1 <= n)%Z /\ p = prefs
  | PlanTrip u d ds b p =>
      u = user_id /\ d <> "" /\ _extract_destination message = Some d /\
      ds = dates /\ b = 2000%Z /\ p = prefs
  end.
Proof.
  assert (Hmeal : forall n, In c (snd (route_to_agent_fuel (S n) self env "meal_planning" context)) ->
            match c with
            | GenerateMealPlan u n p => u = user_id /\ (1 <= n)%Z /\ p = prefs
            | PlanTrip u d ds b p =>
                u = user_id /\ d <> "" /\ _extract_destination message = Some d /\
                ds = dates /\ b = 2000%Z /\ p = prefs
            end).
  { intros n. destruct (meal_route_shape n) as [r [s [-> _]]]. cbn [snd In].
    intros [<-|[]]. unfold meal_call. repeat split. apply days_at_least_one. }
  assert (Htravel : forall n, In c (snd (route_to_agent_fuel (S n) self env "travel" context)) ->
            match c with
            | GenerateMealPlan u n p => u = user_id /\ (1 <= n)%Z /\ p = prefs
            | PlanTrip u d ds b p =>
                u = user_id /\ d <> "" /\ _extract_destination message = Some d /\
                ds = dates /\ b = 2000%Z /\ p = prefs
            end).
  { intros n. destruct (travel_route_shape n) as [r [s [[[-> _]|[d [Hd [Hne ->]]]] _]]];
      cbn [snd In]; [tauto|].
    intros [<-|[]]. unfold trip_call. repeat split; assumption. }
  destruct (String.eqb_spec intent "meal_planning") as [->|H1]; [apply Hmeal|].
  destruct (String.eqb_spec intent "shopping") as [->|H2]; [intros []|].
  destruct (String.eqb_spec intent "travel") as [->|H3]; [apply Htravel|].
  destruct (String.eqb_spec intent "multi_domain") as [->|H4].
  - destruct multi_route_shape as [rs ->]. cbn [snd]. intros H.
    apply in_app_or in H as [H|H].
    + destruct (contains "meal" (lower message)); [now apply (Hmeal 0)|destruct H].
    + destruct (contains "travel" (lower message) || contains "trip" (lower message));
        [now apply (Htravel 0)|destruct H].
  - unfold route_to_agent. rewrite (unknown_route_shape 1 intent) by assumption.
    intros [].
Qed.


End Routes.

Section Exchange.
Variables (self : Orchestrator) (env : Env) (w : World).
Variables (user_id message : string) (session_id : option string).

(** What [process_message] does with a message it routes. *)
Lemma routed_exchange :
  _parse_intent message <> "ambiguous" ->
  exists result calls summary,
    let sw := if falsy_str session_id then create_session self env w user_id
              else (default "" session_id, w) in
    process_message self env w user_id message session_id =
    (Ok {[ "response" := RStr summary;
           "intent" := RStr (_parse_intent message);
           "data" := RData (rr_data result);
           "session_id" := RStr (fst sw) ]},
     update_session env (snd sw) (fst sw)
       [ {| role := "user"; content := message |};
         {| role := "assistant"; content := summary |} ],
     calls).
Proof.
  intros Hne. unfold process_message.
  destruct (if falsy_str session_id then _ else _) as [sid w1].
  apply String.eqb_neq in Hne. rewrite Hne.
  destruct (exchange_ok self env
              {| ctx_user_id := user_id; ctx_session_id := Some sid;
                 ctx_preferences := Some (get_all_preferences (memory_bank self) user_id);
                 ctx_message := Some message; ctx_extra := ∅ |}
              (_parse_intent message)) as [result [calls [summary [Hr Hs]]]].
  rewrite Hr, Hs. exists result, calls, summary. reflexivity.
Qed.


(** X15.  A routed message is recorded as two messages, the user's text and
    then the assistant's summary, and the summary recorded is the text of
    the reply.  Without a session id they are the whole history of the
    session created for the exchange, whose identifier the reply carries;
    with the id of a stored session they are appended to its history. *)
Theorem routed_exchange_recorded :
  _parse_intent message <> "ambiguous" ->
  exists summary sid reply,
    let w' := snd (fst (process_message self env w user_id message session_id)) in
    let exchange := [ {| role := "user"; content := message |};
                      {| role := "assistant"; content := summary |} ] in
    fst (fst (process_message self env w user_id message session_id)) = Ok reply /\
    reply !! "response" = Some (RStr summary) /\
    reply !! "session_id" = Some (RStr sid) /\
    (falsy_str session_id = true ->
       sid = uuid4 env (draws w) /\ get_conversation_history w' sid = exchange) /\
    (falsy_str session_id = false ->
       session_id = Some sid /\
       forall s, get_session w sid = Some s ->
         get_conversation_history w' sid = s_messages s ++ exchange).
Proof.
  intros Hne. destruct (routed_exchange Hne) as [result [calls [summary H]]].
  cbv zeta in H. rewrite H. cbn [fst snd].
  exists summary,
    (fst (if falsy_str session_id then create_session self env w user_id
          else (default "" session_id, w))).
  eexists. split; [reflexivity|]. split; [reflexivity|]. split; [reflexivity|].
  destruct (falsy_str session_id) eqn:F.
  - split; [|discriminate]. intros _. split; [reflexivity|].
    pose proof (SessionProps.new_session_updated self env w user_id
      [ {| role := "user"; content := message |};
        {| role := "assistant"; content := summary |} ]) as Hn.
    cbv zeta in Hn. destruct Hn as [_ [_ [_ [s [E [M _]]]]]].
    unfold get_conversation_history. now rewrite E.
  - split; [discriminate|]. intros _.
    destruct session_id as [x|]; [|discriminate]. cbn [default from_option id fst snd].
    split; [reflexivity|]. intros s Hs.
    destruct (SessionProps.update_session_history env w x
      [ {| role := "user"; content := message |};
        {| role := "assistant"; content := summary |} ] s Hs) as [s' [E' [M' _]]].
    unfold get_conversation_history. now rewrite E'.
Qed.

(** X16.  A routed message sent with a session id that names no stored
    session is answered, but nothing is recorded: the state is exactly as
    before, no session is created for the id, and the reply still carries
    it. *)
Theorem unknown_session_not_recorded (sid : string) :
  _parse_intent message <> "ambiguous" ->
  session_id = Some sid -> sid <> "" -> get_session w sid = None ->
  snd (fst (process_message self env w user_id message session_id)) = w /\
  exists reply,
    fst (fst (process_message self env w user_id message session_id)) = Ok reply /\
    reply !! "session_id" = Some (RStr sid).
Proof.
  intros Hne Hsess Hsid Hnone.
  destruct (routed_exchange Hne) as [result [calls [summary H]]].
  cbv zeta in H. rewrite H, Hsess. cbn [falsy_str].
  apply String.eqb_neq in Hsid. rewrite Hsid.
  cbn [default from_option id fst snd].
  split.
  - unfold update_session. unfold get_session in Hnone. now rewrite Hnone.
  - eexists. split; reflexivity.
Qed.

End Exchange.

End Exchanges.

(* ===================================================================== *)
(** * The chat entry *)
(* ===================================================================== *)

Module Chat.
Import Text Regex Py Orchestrator SessionManager App.

Section Turn.
Variables (self : Orchestrator) (env : Env) (st : State).
Variables (message user_id : string).

Lemma chat_ambiguous :
  _parse_intent message = "ambiguous" ->
  chat_with_agent self env st message user_id =
  ("Error: 'session_id'",
   {| world := if falsy_str (user_sessions st !! user_id)
               then snd (create_session self env (world st) user_id)
               else world st;
      user_sessions := user_sessions st |},
   []).
Proof.
  intros H. unfold chat_with_agent.
  rewrite (Entry.ambiguous_exchange self env (world st) user_id message _ H).
  reflexivity.
Qed.

Lemma chat_routed :
  _parse_intent message <> "ambiguous" ->
  exists summary calls,
    let sw := if falsy_str (user_sessions st !! user_id)
              then create_session self env (world st) user_id
              else (default "" (user_sessions st !! user_id), world st) in
    chat_with_agent self env st message user_id =
    (summary,
     {| world := update_session env (snd sw) (fst sw)
                   [ {| role := "user"; content := message |};
                     {| role := "assistant"; content := summary |} ];
        user_sessions := <[user_id := fst sw]> (user_sessions st) |},
     calls).
Proof.
  intros Hne.
  destruct (Exchanges.routed_exchange self env (world st) user_id message
              (user_sessions st !! user_id) Hne) as [result [calls [summary H]]].
  cbv zeta in H. exists summary, calls. cbv zeta.
  unfold chat_with_agent. rewrite H.
  rewrite !lookup_insert_ne by done. rewrite lookup_singleton_eq.
  rewrite lookup_insert_eq. reflexivity.
Qed.

(** X17.  A chat message classified [ambiguous] is never answered with the
    clarification text: what the user gets is the text of the [KeyError],
    no session id is kept for the user and no agent is called.  A user
    with no session id kept has a new, empty session created by every such
    message; with one kept, the state is as before. *)
Theorem chat_ambiguous_is_error :
  _parse_intent message = "ambiguous" ->
  let '(text, st', calls) := chat_with_agent self env st message user_id in
  text = "Error: 'session_id'" /\
  text <> _generate_clarifying_questions message /\
  user_sessions st' = user_sessions st /\
  calls = [] /\
  (falsy_str (user_sessions st !! user_id) = true ->
     draws (world st') = S (draws (world st)) /\
     exists s, get_session (world st') (uuid4 env (draws (world st))) = Some s /\
               s_user_id s = user_id /\ s_messages s = []) /\
  (falsy_str (user_sessions st !! user_id) = false -> world st' = world st).
Proof.
  intros H. rewrite (chat_ambiguous H).
  split; [reflexivity|]. split; [discriminate|]. split; [reflexivity|].
  split; [reflexivity|]. cbn [world].
  destruct (falsy_str (user_sessions st !! user_id)).
  - split; [|discriminate]. intros _. split; [reflexivity|].
    cbn [create_session snd]. unfold get_session. cbn [sessions].
    rewrite lookup_insert_eq. eexists. split; [reflexivity|]. split; reflexivity.
  - split; [discriminate|]. intros _. reflexivity.
Qed.

(** X18.  A chat message that is routed is answered with the summary; the
    session id kept for the user afterwards is the one of the session that
    recorded the exchange.  A user with an id kept stays with it and no
    session is created; a user with none gets the id drawn for the new
    session. *)
Theorem chat_routed_keeps_session :
  _parse_intent message <> "ambiguous" ->
  let '(text, st', calls) := chat_with_agent self env st message user_id in
  let exchange := [ {| role := "user"; content := message |};
                    {| role := "assistant"; content := text |} ] in
  exists sid,
    user_sessions st' = <[user_id := sid]> (user_sessions st) /\
    (falsy_str (user_sessions st !! user_id) = true ->
       sid = uuid4 env (draws (world st)) /\
       draws (world st') = S (draws (world st)) /\
       get_conversation_history (world st') sid = exchange) /\
    (falsy_str (user_sessions st !! user_id) = false ->
       user_sessions st !! user_id = Some sid /\
       user_sessions st' = user_sessions st /\
       draws (world st') = draws (world st) /\
       forall s, get_session (world st) sid = Some s ->
         get_conversation_history (world st') sid = s_messages s ++ exchange).
Proof.
  intros Hne. destruct (chat_routed Hne) as [summary [calls H]].
  cbv zeta in H. rewrite H. cbv zeta. cbn [world user_sessions].
  eexists. split; [reflexivity|].
  destruct (falsy_str (user_sessions st !! user_id)) eqn:F.
  - split; [|discriminate]. intros _.
    pose proof (SessionProps.new_session_updated self env (world st) user_id
      [ {| role := "user"; content := message |};
        {| role := "assistant"; content := summary |} ]) as Hn.
    cbv zeta in Hn. destruct Hn as [Hid [Hd [_ [s [E [M _]]]]]].
    split; [exact Hid|]. split.
    + now rewrite SessionProps.update_session_draws.
    + unfold get_conversation_history. now rewrite E.
  - split; [discriminate|]. intros _.
    destruct (user_sessions st !! user_id) as [x|] eqn:Ex; [|discriminate].
    cbn [default from_option id fst snd].
    split; [reflexivity|]. split; [now apply insert_id|]. split.
    + apply SessionProps.update_session_draws.
    + intros s Hs.
      destruct (SessionProps.update_session_history env (world st) x
        [ {| role := "user"; content := message |};
          {| role := "assistant"; content := summary |} ] s Hs) as [s' [E' [M' _]]].
      unfold get_conversation_history. now rewrite E'.
Qed.

End Turn.

(** X19.  Two routed chat messages of a user who had no session id kept are
    one conversation: the session created by the first records both
    exchanges in order, its id is the one kept for the user, and the
    second message creates no session.  (The id drawn is a text that is not
    empty, as a UUID is.) *)
Theorem chat_conversation_continues (self : Orchestrator) (env : Env) (st : State)
    (m1 m2 user_id : string) :
  _parse_intent m1 <> "ambiguous" ->
  _parse_intent m2 <> "ambiguous" ->
  user_sessions st !! user_id = None ->
  uuid4 env (draws (world st)) <> "" ->
  let '(t1, st1, _) := chat_with_agent self env st m1 user_id in
  let '(t2, st2, _) := chat_with_agent self env st1 m2 user_id in
  let sid := uuid4 env (draws (world st)) in
  user_sessions st2 !! user_id = Some sid /\
  draws (world st2) = S (draws (world st)) /\
  get_conversation_history (world st2) sid =
    [ {| role := "user"; content := m1 |};
      {| role := "assistant"; content := t1 |};
      {| role := "user"; content := m2 |};
      {| role := "assistant"; content := t2 |} ].
Proof.
  intros H1 H2 Hnone Hid.
  destruct (chat_routed self env st m1 user_id H1) as [t1 [c1 E1]].
  cbv zeta in E1. rewrite Hnone in E1. cbn [falsy_str] in E1. rewrite E1.
  pose proof (SessionProps.new_session_updated self env (world st) user_id
    [ {| role := "user"; content := m1 |};
      {| role := "assistant"; content := t1 |} ]) as Hn.
  cbv zeta in Hn. destruct Hn as [Hsid [Hdraws [_ [s [E [M _]]]]]].
  set (sid := fst (create_session self env (world st) user_id)) in *.
  set (w1 := update_session env (snd (create_session self env (world st) user_id)) sid _) in *.
  set (st1 := {| world := w1; user_sessions := _ |}).
  destruct (chat_routed self env st1 m2 user_id H2) as [t2 [c2 E2]].
  cbv zeta in E2.
  assert (Hkept : user_sessions st1 !! user_id = Some sid) by apply lookup_insert_eq.
  rewrite Hkept in E2. cbn [falsy_str default from_option id] in E2.
  assert (Hf : String.eqb sid "" = false) by (apply String.eqb_neq; congruence).
  rewrite Hf in E2. cbn [fst snd] in E2. rewrite E2.
  cbn [world user_sessions]. rewrite <- Hsid.
  split; [apply lookup_insert_eq|].
  destruct (SessionProps.update_session_history env w1 sid
    [ {| role := "user"; content := m2 |};
      {| role := "assistant"; content := t2 |} ] s E) as [s' [E' [M' _]]].
  split.
  - unfold st1. cbn [world]. unfold w1.
    now rewrite !SessionProps.update_session_draws.
  - unfold get_conversation_history. unfold st1. cbn [world]. rewrite E', M', M.
    reflexivity.
Qed.

End Chat.

(* ===================================================================== *)
(** * The memory bank *)
(* ===================================================================== *)

Module MemoryProps.
Import Text Py MemoryBank.

Lemma user_file_inj (u u' : string) :
  _get_user_file u = _get_user_file u' -> u = u'.
Proof. apply Paths.append_cancel_r. Qed.

Lemma load_save_same (b : Bank) (u : string) (d : UserData) :
  _load_user_data (_save_user_data b u d) u = d.
Proof.
  unfold _load_user_data, _save_user_data. cbn [files].
  now rewrite lookup_insert_eq.
Qed.

Lemma load_save_other (b : Bank) (u u' : string) (d : UserData) :
  u' <> u -> _load_user_data (_save_user_data b u d) u' = _load_user_data b u'.
Proof.
  intros Hne. unfold _load_user_data, _save_user_data. cbn [files].
  rewrite lookup_insert_ne; [reflexivity|].
  intros E. apply user_file_inj in E. congruence.
Qed.

Lemma load_ticks (b : Bank) (u : string) (n : nat) :
  _load_user_data {| files := files b; ticks := n |} u = _load_user_data b u.
Proof. reflexivity. Qed.

Lemma mem_In (i : string) (l : list string) : mem i l = true <-> In i l.
Proof.
  unfold mem. rewrite existsb_exists. split.
  - intros [x [Hx E]]. apply String.eqb_eq in E. now subst.
  - intros H. exists i. split; [exact H | apply String.eqb_refl].
Qed.

Lemma mem_false (i : string) (l : list string) : mem i l = false <-> ~ In i l.
Proof.
  rewrite <- mem_In. destruct (mem i l); split; congruence.
Qed.

Lemma count_app_one (l : list string) (i j : string) :
  count_occ string_dec (l ++ [i]) j =
  (count_occ string_dec l j + if string_dec i j then 1 else 0)%nat.
Proof.
  rewrite count_occ_app. cbn [count_occ].
  destruct (string_dec i j); reflexivity.
Qed.

Lemma count_remove_first (i j : string) (l : list string) :
  count_occ string_dec (remove_first i l) j =
  if string_dec i j then Nat.pred (count_occ string_dec l j)
  else count_occ string_dec l j.
Proof.
  induction l as [|x l IH]; [now destruct (string_dec i j)|].
  cbn [remove_first]. destruct (String.eqb_spec x i) as [->|Hne].
  - cbn [count_occ]. destruct (string_dec i j); reflexivity.
  - cbn [count_occ]. rewrite IH.
    destruct (string_dec x j) as [->|Hxj], (string_dec i j) as [->|Hij];
      try congruence; try reflexivity.
Qed.

Lemma remove_first_app_one (i : string) (l : list string) :
  ~ In i l -> remove_first i (l ++ [i]) = l.
Proof.
  induction l as [|x l IH]; intros H.
  - cbn. now rewrite String.eqb_refl.
  - cbn [app remove_first]. destruct (String.eqb_spec x i) as [->|Hne].
    + exfalso. apply H. now left.
    + f_equal. apply IH. intros Hin. apply H. now right.
Qed.

(** X20.  A preference saved is the one read back, for that user and key;
    every other key of the user and every key of another user reads as
    before; and [get_all_preferences] is the old dictionary with the key
    set.  A user with no file reads as having no preference. *)
Theorem preference_round_trip (b : Bank) (u k : string) (v : json) :
  let b' := save_preference b u k v in
  get_preference b' u k = Some v /\
  (forall u' k', u' <> u \/ k' <> k ->
     get_preference b' u' k' = get_preference b u' k') /\
  get_all_preferences b' u = <[k := v]> (get_all_preferences b u) /\
  (files b !! _get_user_file u = None -> get_all_preferences b' u = {[ k := v ]}).
Proof.
  cbv zeta. unfold get_preference, get_all_preferences, save_preference.
  rewrite load_save_same. cbn [preferences].
  split; [apply lookup_insert_eq|]. split; [|split; [reflexivity|]].
  - intros u' k' H. destruct (decide (u' = u)) as [->|Hu].
    + rewrite load_save_same. cbn [preferences].
      destruct H as [H|H]; [congruence|]. now apply lookup_insert_ne.
    + now rewrite load_save_other.
  - intros H. unfold _load_user_data. rewrite H. reflexivity.
Qed.

(** Each writing operation changes one section of one user's data:
    the data of every other user, and the other two sections of that
    user's, read as before. *)
Lemma writes_keep_other_sections (env : Env) (b : Bank) (o : op) :
  let b' := step env b o in
  (forall u', u' <> user_of o -> _load_user_data b' u' = _load_user_data b u') /\
  (section_of o <> Preferences ->
     get_all_preferences b' (user_of o) = get_all_preferences b (user_of o)) /\
  (section_of o <> Feedback ->
     get_feedback_history b' (user_of o) = get_feedback_history b (user_of o)) /\
  (section_of o <> Pantry ->
     get_pantry_items b' (user_of o) = get_pantry_items b (user_of o)).
Proof.
  cbv zeta. unfold get_all_preferences, get_feedback_history, get_pantry_items.
  destruct o as [u k v|u i r|u items|u i|u i]; cbn [step user_of section_of].
  - unfold save_preference. rewrite load_save_same. cbn [preferences feedback pantry].
    split; [intros; now apply load_save_other|]. repeat split; congruence.
  - unfold update_feedback. rewrite load_save_same. cbn [preferences feedback pantry].
    split; [intros u' Hu; rewrite load_save_other by exact Hu; apply load_ticks|].
    rewrite ?load_ticks. repeat split; congruence.
  - unfold save_pantry_items. rewrite load_save_same. cbn [preferences feedback pantry].
    split; [intros; now apply load_save_other|]. repeat split; congruence.
  - unfold add_pantry_item. destruct (negb _).
    + rewrite load_save_same. cbn [preferences feedback pantry].
      split; [intros; now apply load_save_other|]. repeat split; congruence.
    + repeat split; congruence.
  - unfold remove_pantry_item. destruct (mem _ _).
    + rewrite load_save_same. cbn [preferences feedback pantry].
      split; [intros; now apply load_save_other|]. repeat split; congruence.
    + repeat split; congruence.
Qed.

Lemma feedback_step (env : Env) (b : Bank) (o : op) (u : string) :
  get_feedback_history b u `prefix_of` get_feedback_history (step env b o) u.
Proof.
  unfold get_feedback_history.
  destruct (decide (u = user_of o)) as [->|Hne].
  - destruct o as [u k v|u i r|u items|u i|u i]; cbn [step user_of].
    + unfold save_preference. now rewrite load_save_same.
    + unfold update_feedback. rewrite load_save_same. cbn [feedback].
      rewrite ?load_ticks. now apply prefix_app_r.
    + unfold save_pantry_items. now rewrite load_save_same.
    + unfold add_pantry_item. destruct (negb _); [|reflexivity].
      now rewrite load_save_same.
    + unfold remove_pantry_item. destruct (mem _ _); [|reflexivity].
      now rewrite load_save_same.
  - destruct o as [u0 k v|u0 i r|u0 items|u0 i|u0 i]; cbn [step user_of] in *.
    + unfold save_preference. now rewrite load_save_other.
    + unfold update_feedback. rewrite load_save_other by exact Hne.
      now rewrite ?load_ticks.
    + unfold save_pantry_items. now rewrite load_save_other.
    + unfold add_pantry_item. destruct (negb _); [|reflexivity].
      now rewrite load_save_other.
    + unfold remove_pantry_item. destruct (mem _ _); [|reflexivity].
      now rewrite load_save_other.
Qed.

(** X22.  The feedback history is a log: [update_feedback] adds one entry at
    its end, holding the item, the rating and the time, and no run of the
    bank's operations removes or changes an entry recorded before it. *)
Theorem feedback_is_a_log (env : Env) (b : Bank) (ops : list op)
    (u item : string) (rating : json) :
  (exists entry,
     get_feedback_history (update_feedback env b u item rating) u =
       get_feedback_history b u ++ [entry] /\
     entry !! "item_id" = Some (JStr item) /\
     entry !! "rating" = Some rating /\
     entry !! "timestamp" = Some (JStr (clock env (ticks b)))) /\
  get_feedback_history b u `prefix_of` get_feedback_history (run env b ops) u.
Proof.
  split.
  - unfold get_feedback_history, update_feedback.
    rewrite load_save_same. cbn [feedback]. eexists. split; [reflexivity|].
    repeat split.
  - revert b. induction ops as [|o ops IH]; intros b; [reflexivity|].
    cbn [run foldl]. etransitivity; [apply (feedback_step env b o u)|apply IH].
Qed.

(** X23.  [add_pantry_item] puts an item in the pantry once: afterwards the
    item is there, an item that was there is not added again, the count of
    every other item is unchanged, and adding twice is adding once. *)
Theorem add_pantry_item_once (b : Bank) (u i : string) :
  let b' := add_pantry_item b u i in
  In i (get_pantry_items b' u) /\
  (forall j, count_occ string_dec (get_pantry_items b' u) j =
             if string_dec i j
             then Nat.max 1 (count_occ string_dec (get_pantry_items b u) j)
             else count_occ string_dec (get_pantry_items b u) j) /\
  add_pantry_item b' u i = b'.
Proof.
  cbv zeta. unfold get_pantry_items.
  assert (Hin : In i (pantry (_load_user_data (add_pantry_item b u i) u))).
  { unfold add_pantry_item.
    destruct (mem i (pantry (_load_user_data b u))) eqn:E; cbn [negb].
    - now apply mem_In.
    - rewrite load_save_same. cbn [pantry]. apply in_or_app. right. now left. }
  split; [exact Hin|]. split.
  - intros j. unfold add_pantry_item.
    destruct (mem i (pantry (_load_user_data b u))) eqn:E; cbn [negb].
    + destruct (string_dec i j) as [->|Hne]; [|reflexivity].
      apply mem_In in E. apply (count_occ_In string_dec) in E. lia.
    + rewrite load_save_same. cbn [pantry]. rewrite count_app_one.
      destruct (string_dec i j) as [->|Hne]; [|lia].
      apply mem_false in E. apply (count_occ_not_In string_dec) in E. lia.
  - apply mem_In in Hin. unfold add_pantry_item at 1. now rewrite Hin.
Qed.

(** X24.  [remove_pantry_item] takes out one occurrence of the item and
    nothing else: an item that [save_pantry_items] stored twice is still in
    the pantry after one removal.  Adding an item that was not in the
    pantry and removing it again gives back the pantry as it was, in
    order. *)
Theorem remove_pantry_item_once (b : Bank) (u i : string) :
  (forall j,
     count_occ string_dec (get_pantry_items (remove_pantry_item b u i) u) j =
     if string_dec i j
     then Nat.pred (count_occ string_dec (get_pantry_items b u) j)
     else count_occ string_dec (get_pantry_items b u) j) /\
  (~ In i (get_pantry_items b u) ->
   get_pantry_items (remove_pantry_item (add_pantry_item b u i) u i) u =
   get_pantry_items b u).
Proof.
  unfold get_pantry_items. split.
  - intros j. unfold remove_pantry_item.
    destruct (mem i (pantry (_load_user_data b u))) eqn:E.
    + rewrite load_save_same. cbn [pantry]. apply count_remove_first.
    + destruct (string_dec i j) as [->|Hne]; [|reflexivity].
      apply mem_false in E. apply (count_occ_not_In string_dec) in E. lia.
  - intros H. unfold add_pantry_item. apply mem_false in H as Hm. rewrite Hm.
    cbn [negb]. unfold remove_pantry_item. rewrite load_save_same. cbn [pantry].
    assert (Hi : mem i (pantry (_load_user_data b u) ++ [i]) = true).
    { apply mem_In, in_or_app. right. now left. }
    rewrite Hi, load_save_same. cbn [pantry]. now apply remove_first_app_one.
Qed.

End MemoryProps.

(* ===================================================================== *)
(** * The meal agent *)
(* ===================================================================== *)

Module MealProps.
Import Text Py MealPlanningAgent.

Lemma for_each_ok {A : Type} (f : A -> res unit) (xs : list A) :
  for_each f xs = Ok tt <-> Forall (fun x => f x = Ok tt) xs.
Proof.
  induction xs as [|x xs IH]; cbn [for_each].
  - split; [constructor | reflexivity].
  - destruct (f x) as [[]|e] eqn:E.
    + rewrite IH. split; [now constructor | now inversion 1].
    + split; [discriminate | inversion 1; congruence].
Qed.

Lemma for_each_raises {A : Type} (f : A -> res unit) (xs : list A) (e : exn) :
  for_each f xs = Raise e -> exists x, In x xs /\ f x = Raise e.
Proof.
  induction xs as [|x xs IH]; cbn [for_each]; [discriminate|].
  destruct (f x) as [[]|e'] eqn:E.
  - intros H. destruct (IH H) as [y [Hy Hf]]. exists y. split; [now right | exact Hf].
  - intros H. injection H as <-. exists x. split; [now left | exact E].
Qed.

(** The first character of the text of an exception. *)
Lemma ingredient_error (i : Ingredient) (e : exn) :
  ingredient_validate i = Raise e ->
  exn_type e = "ValueError" /\ String.get 0 (exn_text e) = Some "I"%char.
Proof.
  unfold ingredient_validate, ValueError.
  destruct (String.eqb _ _); [intros H; injection H as <-; now split|].
  destruct (Qle_bool _ _); [intros H; injection H as <-; now split|].
  destruct (String.eqb _ _); [intros H; injection H as <-; now split|].
  discriminate.
Qed.

Lemma meal_error (m : Meal) (e : exn) :
  meal_validate m = Raise e ->
  exn_type e = "ValueError" /\ String.get 0 (exn_text e) <> Some "D"%char.
Proof.
  unfold meal_validate, ValueError.
  destruct (negb _); [intros H; injection H as <-; now split|].
  destruct (String.eqb _ _); [intros H; injection H as <-; now split|].
  destruct (String.eqb _ _); [intros H; injection H as <-; now split|].
  destruct (Nat.eqb _ _); [intros H; injection H as <-; now split|].
  destruct (String.eqb _ _); [intros H; injection H as <-; now split|].
  destruct (Z.ltb _ _); [intros H; injection H as <-; now split|].
  destruct (Z.ltb _ _); [intros H; injection H as <-; now split|].
  intros H. apply for_each_raises in H as [i [_ H]].
  apply ingredient_error in H as [H1 H2]. split; [exact H1|]. now rewrite H2.
Qed.

Lemma meal_plan_error (p : MealPlan) (e : exn) :
  meal_plan_validate p = Raise e ->
  exn_type e = "ValueError" /\ String.get 0 (exn_text e) <> Some "D"%char.
Proof.
  unfold meal_plan_validate, ValueError.
  destruct (String.eqb _ _); [intros H; injection H as <-; now split|].
  destruct (String.eqb _ _); [intros H; injection H as <-; now split|].
  destruct (Z.ltb _ _); [intros H; injection H as <-; now split|].
  destruct (Nat.eqb _ _); [intros H; injection H as <-; now split|].
  destruct (negb _); [intros H; injection H as <-; now split|].
  intros H. apply for_each_raises in H as [m [_ H]]. now apply meal_error in H.
Qed.

(** What [Meal.validate] asks of a meal does not depend on which of the
    four meal types it has. *)
Lemma usable_for (recipe : Recipe) (t : string) :
  usable recipe = true -> In t meal_type_values ->
  meal_validate (_recipe_to_meal recipe t) = Ok tt.
Proof.
  unfold usable. intros H Ht.
  destruct (meal_validate (_recipe_to_meal recipe "dinner")) as [[]|] eqn:E;
    [|discriminate].
  unfold meal_validate in *. cbn [_recipe_to_meal meal_type recipe_id recipe_name
    ingredients instructions prep_time cook_time] in *.
  assert (Hin : existsb (String.eqb t) meal_type_values = true).
  { apply existsb_exists. exists t. split; [exact Ht | apply String.eqb_refl]. }
  rewrite Hin. exact E.
Qed.

Lemma meal_types_valid (n : Z) (t : string) :
  In t (_get_meal_types n) -> In t meal_type_values.
Proof.
  unfold _get_meal_types, meal_type_values.
  destruct (n =? 1)%Z; [cbn; tauto|].
  destruct (n =? 2)%Z; [cbn; tauto|].
  destruct (n =? 3)%Z; cbn; tauto.
Qed.

Lemma meal_types_nonempty (n : Z) : (1 <= length (_get_meal_types n) <= 4)%nat.
Proof.
  unfold _get_meal_types.
  destruct (n =? 1)%Z; [cbn; lia|].
  destruct (n =? 2)%Z; [cbn; lia|].
  destruct (n =? 3)%Z; cbn; lia.
Qed.

Lemma unique_recipe_count_bounds (ms : list Meal) :
  ms <> [] -> (1 <= unique_recipe_count ms <= Z.of_nat (length ms))%Z.
Proof.
  unfold unique_recipe_count. intros Hne.
  assert (Hle : forall l : list string, (length (remove_dups l) <= length l)%nat).
  { induction l as [|x l IH]; [reflexivity|]. cbn [remove_dups].
    destruct (decide_rel elem_of x l); cbn [length]; lia. }
  assert (Hpos : forall l : list string, l <> [] -> (1 <= length (remove_dups l))%nat).
  { induction l as [|x l IH]; [congruence|]. intros _. cbn [remove_dups].
    destruct (decide_rel elem_of x l) as [Hin|Hin]; [|cbn [length]; lia].
    apply IH. intros ->. inversion Hin. }
  specialize (Hle (map recipe_id ms)). rewrite length_map in Hle.
  specialize (Hpos (map recipe_id ms)).
  destruct ms as [|m ms]; [congruence|]. specialize (Hpos ltac:(discriminate)).
  cbn [length] in *. lia.
Qed.

Lemma one_recipe_counts_once (ms : list Meal) (x : string) :
  ms <> [] -> Forall (fun m => recipe_id m = x) ms -> unique_recipe_count ms = 1%Z.
Proof.
  unfold unique_recipe_count. intros Hne H.
  assert (E : remove_dups (map recipe_id ms) = [x]).
  { induction H as [|m ms Hm Hms IH]; [congruence|].
    cbn [map remove_dups]. rewrite Hm.
    destruct ms as [|m' ms].
    - cbn. destruct (decide_rel elem_of x []) as [Hin|]; [inversion Hin | reflexivity].
    - specialize (IH ltac:(discriminate)).
      destruct (decide_rel elem_of x (map recipe_id (m' :: ms))) as [|Hnin];
        [exact IH|].
      exfalso. apply Hnin. cbn [map]. inversion Hms; subst.
      match goal with H : recipe_id m' = _ |- _ => rewrite H end. left. }
  now rewrite E.
Qed.

Section Loop.
Variables (tool : RecipeTool) (restrictions cuisines : list string).

Local Abbreviation body := (plan_one_meal tool restrictions cuisines).

(** One pass of the inner loop adds at most one meal, of the meal type at
    hand. *)
Lemma plan_one_meal_adds (st : list Meal * nat) (t : string) :
  exists extra,
    fst (body st t) = fst st ++ extra /\
    (length extra <= 1)%nat /\
    Forall (fun m => meal_type m = t) extra.
Proof.
  destruct st as [ms n]. unfold plan_one_meal.
  destruct (search_recipes tool _ restrictions 5) as [|r rs].
  - destruct (get_random_recipes tool n 5 restrictions) as [|r rs].
    + exists []. cbn. rewrite app_nil_r. repeat split; [lia | constructor].
    + eexists [_]. cbn. repeat split; [lia | now repeat constructor].
  - eexists [_]. cbn. repeat split; [lia | now repeat constructor].
Qed.

Lemma inner_loop_adds (ts : list string) (st : list Meal * nat) :
  exists extra,
    fst (foldl body st ts) = fst st ++ extra /\
    (length extra <= length ts)%nat /\
    Forall (fun m => In (meal_type m) ts) extra.
Proof.
  revert st. induction ts as [|t ts IH]; intros st.
  - exists []. cbn. rewrite app_nil_r. repeat split; [lia | constructor].
  - cbn [foldl]. destruct (plan_one_meal_adds st t) as [e1 [E1 [L1 F1]]].
    destruct (IH (body st t)) as [e2 [E2 [L2 F2]]].
    exists (e1 ++ e2). rewrite E2, E1, app_assoc. split; [reflexivity|]. split.
    + rewrite length_app. cbn [length]. lia.
    + apply Forall_app. split.
      * eapply Forall_impl; [exact F1|]. intros m <-. now left.
      * eapply Forall_impl; [exact F2|]. intros m H. now right.
Qed.

Lemma outer_loop_adds (ts : list string) (days : list nat) (st : list Meal * nat) :
  exists extra,
    fst (foldl (fun st (_ : nat) => foldl body st ts) st days) = fst st ++ extra /\
    (length extra <= length days * length ts)%nat /\
    Forall (fun m => In (meal_type m) ts) extra.
Proof.
  revert st. induction days as [|d days IH]; intros st.
  - exists []. cbn. rewrite app_nil_r. repeat split; [lia | constructor].
  - cbn [foldl]. destruct (inner_loop_adds ts st) as [e1 [E1 [L1 F1]]].
    destruct (IH (foldl body st ts)) as [e2 [E2 [L2 F2]]].
    exists (e1 ++ e2). rewrite E2, E1, app_assoc. split; [reflexivity|]. split.
    + rewrite length_app. cbn [length]. lia.
    + now apply Forall_app.
Qed.

(** With no cuisine to rotate through, every search is the same search,
    and a search that finds something gives every meal the same recipe. *)
Lemma loop_one_recipe (r0 : Recipe) (rest : list Recipe) (ts : list string)
    (days : list nat) (st : list Meal * nat) :
  cuisines = [] ->
  search_recipes tool None restrictions 5 = r0 :: rest ->
  exists extra,
    fst (foldl (fun st (_ : nat) => foldl body st ts) st days) = fst st ++ extra /\
    Forall (fun m => recipe_id m = r_id r0) extra.
Proof.
  intros Hc Hs.
  assert (Hone : forall st t, body st t = (fst st ++ [_recipe_to_meal r0 t], snd st)).
  { intros [ms n] t. unfold plan_one_meal. rewrite Hc, Hs. reflexivity. }
  assert (Hin : forall ts st, exists extra,
            fst (foldl body st ts) = fst st ++ extra /\
            Forall (fun m => recipe_id m = r_id r0) extra).
  { clear ts st. induction ts as [|t ts IH]; intros st.
    - exists []. cbn. rewrite app_nil_r. split; [reflexivity | constructor].
    - cbn [foldl]. destruct (IH (body st t)) as [e [E F]].
      exists (_recipe_to_meal r0 t :: e). rewrite E, Hone. cbn [fst].
      rewrite <- app_assoc. split; [reflexivity|]. now constructor. }
  revert st. induction days as [|d days IH]; intros st.
  - exists []. cbn. rewrite app_nil_r. split; [reflexivity | constructor].
  - cbn [foldl]. destruct (Hin ts st) as [e1 [E1 F1]].
    destruct (IH (foldl body st ts)) as [e2 [E2 F2]].
    exists (e1 ++ e2). rewrite E2, E1, app_assoc. split; [reflexivity|].
    now apply Forall_app.
Qed.

Hypothesis Hstock : well_stocked tool restrictions.

Lemma plan_one_meal_stocked (st : list Meal * nat) (t : string) :
  exists recipe,
    body st t = (fst st ++ [_recipe_to_meal recipe t], snd st) /\
    usable recipe = true.
Proof.
  destruct st as [ms n]. unfold plan_one_meal.
  destruct (Hstock (match cuisines with
                    | [] => None
                    | _ => cuisines !! (length ms mod length cuisines)%nat
                    end)) as [r [rs [E U]]].
  rewrite E. exists r. split; [reflexivity | exact U].
Qed.

Lemma inner_loop_stocked (ts : list string) (st : list Meal * nat) :
  Forall (fun t => In t meal_type_values) ts ->
  exists extra,
    fst (foldl body st ts) = fst st ++ extra /\
    map meal_type extra = ts /\
    Forall (fun m => meal_validate m = Ok tt) extra.
Proof.
  revert st. induction ts as [|t ts IH]; intros st Hts.
  - exists []. cbn. rewrite app_nil_r. repeat split. constructor.
  - cbn [foldl]. destruct (plan_one_meal_stocked st t) as [r [E1 U]].
    inversion Hts as [|? ? Ht Hts']; subst.
    destruct (IH (body st t) Hts') as [e2 [E2 [M2 F2]]].
    exists (_recipe_to_meal r t :: e2). rewrite E2, E1. cbn [fst].
    rewrite <- app_assoc. split; [reflexivity|]. split.
    + cbn [map _recipe_to_meal meal_type]. now rewrite M2.
    + constructor; [now apply usable_for | exact F2].
Qed.

Lemma outer_loop_stocked (ts : list string) (days : list nat) (st : list Meal * nat) :
  Forall (fun t => In t meal_type_values) ts ->
  exists extra,
    fst (foldl (fun st (_ : nat) => foldl body st ts) st days) = fst st ++ extra /\
    map meal_type extra = concat (replicate (length days) ts) /\
    Forall (fun m => meal_validate m = Ok tt) extra.
Proof.
  intros Hts. revert st. induction days as [|d days IH]; intros st.
  - exists []. cbn. rewrite app_nil_r. repeat split. constructor.
  - cbn [foldl]. destruct (inner_loop_stocked ts st Hts) as [e1 [E1 [M1 F1]]].
    destruct (IH (foldl body st ts)) as [e2 [E2 [M2 F2]]].
    exists (e1 ++ e2). rewrite E2, E1, app_assoc. split; [reflexivity|]. split.
    + rewrite map_app, M1, M2. reflexivity.
    + now apply Forall_app.
Qed.

End Loop.

Lemma plan_id_given (x : string) : String.eqb ("plan_" +:+ x) "" = false.
Proof. rewrite !Paths.append_cons. reflexivity. Qed.

Section Plans.
Variables (tool : RecipeTool) (env : Env) (user : string) (days : Z).
Variable preferences : option Prefs.

Let restrictions := default [] (preferences ≫= dietary_restrictions).
Let cuisines := default [] (preferences ≫= cuisine_preferences).
Let types := _get_meal_types (default 3%Z (preferences ≫= meals_per_day)).

Lemma plan_sound (plan : MealPlan) :
  generate_meal_plan tool env user days preferences = Ok plan ->
  (1 <= days)%Z /\
  duration_days plan = days /\ start_date plan = today env /\
  user_id plan = user /\ user <> "" /\
  (1 <= length (meals plan) <= Z.to_nat days * length types)%nat /\
  total_recipes plan = unique_recipe_count (meals plan) /\
  (1 <= total_recipes plan <= Z.of_nat (length (meals plan)))%Z /\
  Forall (fun m => meal_validate m = Ok tt /\ In (meal_type m) types) (meals plan).
Proof.
  unfold generate_meal_plan. fold restrictions cuisines types.
  destruct (Z.ltb_spec days 1) as [|Hd]; [discriminate|].
  destruct (outer_loop_adds tool restrictions cuisines types
              (seq 0 (Z.to_nat days)) ([], 0%nat)) as [extra [E [L F]]].
  destruct (foldl _ _ _) as [ms n]. cbn [fst app] in E. subst ms.
  rewrite length_seq in L.
  destruct (meal_plan_validate _) as [[]|e] eqn:V; [|discriminate].
  intros H. injection H as <-.
  unfold duration_days. cbn [start_date end_date user_id meals total_recipes].
  unfold meal_plan_validate in V.
  cbn [plan_id user_id start_date end_date meals total_recipes] in V.
  rewrite plan_id_given in V.
  destruct (String.eqb_spec user "") as [|Hu]; [discriminate|].
  destruct (Z.ltb_spec (today env + (days - 1)) (today env)); [discriminate|].
  destruct (Nat.eqb_spec (length extra) 0) as [|Hlen]; [discriminate|].
  rewrite Z.eqb_refl in V. cbn [negb] in V.
  apply for_each_ok in V.
  split; [exact Hd|]. split; [lia|]. split; [reflexivity|]. split; [reflexivity|].
  split; [exact Hu|]. split; [lia|]. split; [reflexivity|]. split.
  - apply unique_recipe_count_bounds. now destruct extra.
  - rewrite Forall_forall in *. intros m Hm. split; [now apply V | now apply F].
Qed.

Lemma plan_errors :
  (forall e, generate_meal_plan tool env user days preferences = Raise e ->
             exn_type e = "ValueError") /\
  ((days < 1)%Z <->
   generate_meal_plan tool env user days preferences =
     ValueError "Days must be at least 1") /\
  ((1 <= days)%Z -> user = "" ->
   generate_meal_plan tool env user days preferences =
     ValueError "user_id is required") /\
  ((1 <= days)%Z -> user <> "" ->
   (forall c r n, search_recipes tool c r n = []) ->
   (forall k r n, get_random_recipes tool k n r = []) ->
   generate_meal_plan tool env user days preferences =
     ValueError "Meal plan must have at least one meal").
Proof.
  unfold generate_meal_plan. fold restrictions cuisines types.
  split; [|split; [|split]].
  - intros e. destruct (days <? 1)%Z.
    + intros H. injection H as <-. reflexivity.
    + destruct (foldl _ _ _) as [ms n].
      destruct (meal_plan_validate _) as [[]|e'] eqn:V; [discriminate|].
      intros H. injection H as <-. now apply meal_plan_error in V.
  - destruct (Z.ltb_spec days 1) as [Hd|Hd].
    + split; [reflexivity | intros _; exact Hd].
    + split; [lia|].
      destruct (foldl _ _ _) as [ms n].
      destruct (meal_plan_validate _) as [[]|e'] eqn:V; [discriminate|].
      intros H. injection H as ->. apply meal_plan_error in V as [_ V].
      now contradiction V.
  - intros Hd ->. destruct (Z.ltb_spec days 1) as [|_]; [lia|].
    destruct (foldl _ _ _) as [ms n].
    unfold meal_plan_validate.
    cbn [plan_id user_id start_date end_date meals total_recipes].
    now rewrite plan_id_given.
  - intros Hd Hu Hs Hr. destruct (Z.ltb_spec days 1) as [|_]; [lia|].
    assert (Hnone : forall ds st,
              fst (foldl (fun st (_ : nat) =>
                     foldl (plan_one_meal tool restrictions cuisines) st types) st ds)
              = fst st).
    { assert (Hin : forall ts st,
                fst (foldl (plan_one_meal tool restrictions cuisines) st ts) = fst st).
      { induction ts as [|t ts IH]; intros st; [reflexivity|].
        cbn [foldl]. rewrite IH. destruct st as [ms n]. unfold plan_one_meal.
        now rewrite Hs, Hr. }
      induction ds as [|d ds IH]; intros st; [reflexivity|].
      cbn [foldl]. now rewrite IH, Hin. }
    specialize (Hnone (seq 0 (Z.to_nat days)) ([], 0%nat)).
    destruct (foldl _ _ _) as [ms n]. cbn [fst] in Hnone. subst ms.
    unfold meal_plan_validate.
    cbn [plan_id user_id start_date end_date meals total_recipes].
    rewrite plan_id_given. apply String.eqb_neq in Hu. rewrite Hu.
    destruct (Z.ltb_spec (today env + (days - 1)) (today env)); [lia|].
    reflexivity.
Qed.

Lemma plan_full :
  (1 <= days)%Z -> user <> "" -> well_stocked tool restrictions ->
  exists plan,
    generate_meal_plan tool env user days preferences = Ok plan /\
    map meal_type (meals plan) = concat (replicate (Z.to_nat days) types) /\
    length (meals plan) = (Z.to_nat days * length types)%nat /\
    duration_days plan = days /\
    meals plan =
      fst (foldl (fun st (_ : nat) =>
                    foldl (plan_one_meal tool restrictions cuisines) st types)
                 ([], 0%nat) (seq 0 (Z.to_nat days))) /\
    total_recipes plan = unique_recipe_count (meals plan).
Proof.
  intros Hd Hu Hstock. unfold generate_meal_plan. fold restrictions cuisines types.
  destruct (Z.ltb_spec days 1) as [|_]; [lia|].
  assert (Hts : Forall (fun t => In t meal_type_values) types).
  { apply Forall_forall. intros t Ht. apply list_elem_of_In in Ht.
    now apply meal_types_valid in Ht. }
  destruct (outer_loop_stocked tool restrictions cuisines Hstock types
              (seq 0 (Z.to_nat days)) ([], 0%nat) Hts) as [extra [E [M F]]].
  destruct (foldl _ _ _) as [ms n]. cbn [fst app] in E. subst ms.
  rewrite length_seq in M.
  assert (Hlen : length extra = (Z.to_nat days * length types)%nat).
  { rewrite <- (length_map meal_type), M. clear.
    induction (Z.to_nat days) as [|k IH]; [reflexivity|].
    cbn [replicate concat]. rewrite length_app, IH. lia. }
  assert (Hpos : (1 <= length extra)%nat).
  { rewrite Hlen.
    pose proof (meal_types_nonempty (default 3%Z (preferences ≫= meals_per_day))).
    fold types in H. nia. }
  unfold meal_plan_validate.
  cbn [plan_id user_id start_date end_date meals total_recipes].
  rewrite plan_id_given. apply String.eqb_neq in Hu. rewrite Hu.
  destruct (Z.ltb_spec (today env + (days - 1)) (today env)); [lia|].
  destruct (Nat.eqb_spec (length extra) 0); [lia|].
  rewrite Z.eqb_refl. cbn [negb].
  apply for_each_ok in F. rewrite F.
  eexists. split; [reflexivity|].
  cbn [meals total_recipes fst]. split; [exact M|]. split; [exact Hlen|].
  split; [unfold duration_days; cbn [start_date end_date]; lia|].
  split; reflexivity.
Qed.

End Plans.

(** X25.  A plan that [generate_meal_plan] returns spans exactly the days
    asked for, starting today; it has at least one meal and at most one
    for each meal type of each day; every meal passes [Meal.validate] and
    has one of the meal types of the day; and [total_recipes] counts the
    distinct recipes of its meals. *)
Theorem generated_plan_is_sound (tool : RecipeTool) (env : Env) (user : string)
    (days : Z) (preferences : option Prefs) (plan : MealPlan) :
  generate_meal_plan tool env user days preferences = Ok plan ->
  let types := _get_meal_types (default 3%Z (preferences ≫= meals_per_day)) in
  (1 <= days)%Z /\
  duration_days plan = days /\ start_date plan = today env /\
  user_id plan = user /\ user <> "" /\
  (1 <= length (meals plan) <= Z.to_nat days * length types)%nat /\
  total_recipes plan = unique_recipe_count (meals plan) /\
  (1 <= total_recipes plan <= Z.of_nat (length (meals plan)))%Z /\
  Forall (fun m => meal_validate m = Ok tt /\ In (meal_type m) types) (meals plan).
Proof. apply plan_sound. Qed.



(** With a day count of one or more, what the agent raises is not the
    error for the day count. *)
Lemma raised_not_for_days (tool : RecipeTool) (env : Env) (user : string)
    (days : Z) (preferences : option Prefs) (e : exn) :
  (1 <= days)%Z ->
  generate_meal_plan tool env user days preferences = Raise e ->
  String.get 0 (exn_text e) <> Some "D"%char.
Proof.
  intros Hd. unfold generate_meal_plan.
  destruct (Z.ltb_spec days 1) as [|_]; [lia|].
  destruct (foldl _ _ _) as [ms n].
  destruct (meal_plan_validate _) as [[]|e'] eqn:V; [discriminate|].
  intros H. injection H as <-. now apply meal_plan_error in V.
Qed.

End MealProps.

(* ===================================================================== *)
(** * The meal route over the meal agent *)
(* ===================================================================== *)

Module MealRoute.
Import Text Regex Py Orchestrator.

Section Route.
Variables (tool : MealPlanningAgent.RecipeTool) (menv : MealPlanningAgent.Env).
Variable read : gmap string json -> option MealPlanningAgent.Prefs.
Variables (self : Orchestrator) (env : Env) (context : Context).
Hypothesis Hagent : meal_agent self = MealPlanningAgent.as_meal_agent tool menv read.

Let message := default "" (ctx_message context).
Let days := or_int (_extract_days message) 7.
Let prefs := read (default ∅ (ctx_preferences context)).
Let types :=
  MealPlanningAgent._get_meal_types
    (default 3%Z (prefs ≫= MealPlanningAgent.meals_per_day)).


End Route.

End MealRoute.

(* ===================================================================== *)
(** * The recipe tool, and the meal agent over it *)
(* ===================================================================== *)

Module ToolProps.
Import Text Py MealPlanningAgent RecipeDatabaseTool.

Lemma narrowed_in (keep : Recipe -> bool) (l : list Recipe) (r : Recipe) :
  In r (narrowed keep l) -> In r l.
Proof.
  unfold narrowed. destruct (List.filter keep l) as [|x f] eqn:E; [trivial|].
  rewrite <- E. intros H. now apply filter_In in H.
Qed.

Lemma narrowed_nonempty (keep : Recipe -> bool) (l : list Recipe) :
  l <> [] -> narrowed keep l <> [].
Proof.
  unfold narrowed. destruct (List.filter keep l); [trivial | discriminate].
Qed.

(** A filter is applied in full or not at all. *)
Lemma narrowed_all_or_none (keep : Recipe -> bool) (l : list Recipe) :
  (forall r, In r (narrowed keep l) -> keep r = true) \/
  (narrowed keep l = l /\ forall r, In r l -> keep r = false).
Proof.
  unfold narrowed. destruct (List.filter keep l) as [|x f] eqn:E.
  - right. split; [reflexivity|]. intros r Hr.
    destruct (keep r) eqn:K; [|reflexivity].
    assert (In r (List.filter keep l)) by (apply filter_In; auto).
    rewrite E in H. destruct H.
  - left. rewrite <- E. intros r Hr. now apply filter_In in Hr.
Qed.

Lemma by_cuisine_in (c : option string) (l : list Recipe) (r : Recipe) :
  In r (by_cuisine c l) -> In r l.
Proof.
  unfold by_cuisine. destruct c as [c|]; [|trivial].
  destruct (String.eqb c ""); [trivial | apply narrowed_in].
Qed.

Lemma by_cuisine_nonempty (c : option string) (l : list Recipe) :
  l <> [] -> by_cuisine c l <> [].
Proof.
  unfold by_cuisine. destruct c as [c|]; [|trivial].
  destruct (String.eqb c ""); [trivial | apply narrowed_nonempty].
Qed.

Lemma by_restrictions_in (d : option (list string)) (l : list Recipe) (r : Recipe) :
  In r (by_restrictions d l) -> In r l.
Proof.
  unfold by_restrictions. destruct d as [[|x d]|]; trivial. apply narrowed_in.
Qed.

Lemma by_restrictions_nonempty (d : option (list string)) (l : list Recipe) :
  l <> [] -> by_restrictions d l <> [].
Proof.
  unfold by_restrictions. destruct d as [[|x d]|]; trivial. apply narrowed_nonempty.
Qed.

Lemma take_in (k : nat) (l : list Recipe) (r : Recipe) :
  In r (take k l) -> In r l.
Proof.
  revert l. induction k as [|k IH]; intros [|x l]; simpl; try tauto.
  intros [->|H]; [now left | right; now apply IH].
Qed.

Lemma slice_to_in (n : Z) (l : list Recipe) (r : Recipe) :
  In r (slice_to n l) -> In r l.
Proof. unfold slice_to. destruct (0 <=? n)%Z; apply take_in. Qed.

Lemma slice_to_nonempty (n : Z) (l : list Recipe) :
  (1 <= n)%Z -> l <> [] -> slice_to n l <> [].
Proof.
  intros Hn Hl. unfold slice_to. destruct (Z.leb_spec 0 n); [|lia].
  destruct l as [|x l]; [congruence|].
  destruct (Z.to_nat n) as [|k] eqn:E; [lia|]. discriminate.
Qed.

Section Search.
Variables (self : Tool) (query : string) (cuisine : option string).
Variables (dietary_restrictions : option (list string)) (max_results : Z).
Hypothesis Hretries : max_retries self <> 0%nat.

Lemma search_unfold :
  search_recipes self query cuisine dietary_restrictions max_results =
  Some (slice_to max_results
          (let recipes :=
             by_restrictions dietary_restrictions
               (by_cuisine cuisine _get_mock_recipes) in
           if String.eqb query "" then recipes
           else narrowed (fun r => contains (lower query) (lower (r_name r)))
                  recipes)).
Proof.
  unfold search_recipes. destruct (max_retries self); [congruence | reflexivity].
Qed.


End Search.

Lemma mock_recipes_usable (r : Recipe) : In r _get_mock_recipes -> usable r = true.
Proof.
  assert (H : forallb usable _get_mock_recipes = true) by (vm_compute; reflexivity).
  rewrite forallb_forall in H. apply H.
Qed.

(** Over the tool, every search the agent makes finds a usable recipe. *)
Lemma shipped_is_stocked (self : Tool) (restrictions : list string) :
  max_retries self <> 0%nat -> well_stocked (as_recipe_tool self) restrictions.
Proof.
  intros Hr cuisine. cbn [as_recipe_tool MealPlanningAgent.search_recipes].
  rewrite (search_unfold self "" cuisine (Some restrictions) 5 Hr).
  cbn [default from_option id]. cbv zeta. cbn [String.eqb].
  set (stage2 := by_restrictions (Some restrictions)
                   (by_cuisine cuisine _get_mock_recipes)).
  assert (N2 : stage2 <> []).
  { apply by_restrictions_nonempty, by_cuisine_nonempty. discriminate. }
  pose proof (slice_to_nonempty 5 stage2 ltac:(lia) N2) as N.
  destruct (slice_to 5 stage2) as [|r rest] eqn:E; [congruence|].
  exists r, rest. split; [reflexivity|].
  apply mock_recipes_usable.
  apply (by_cuisine_in cuisine), (by_restrictions_in (Some restrictions)).
  fold stage2. apply (slice_to_in 5). rewrite E. now left.
Qed.


End ToolProps.

(* ===================================================================== *)
(** * What the patterns capture *)
(* ===================================================================== *)

Module Captures.
Import Text Regex Py Orchestrator Language.

Lemma append_nil_r (a : string) : a +:+ "" = a.
Proof. induction a as [|c a IH]; [reflexivity|]. rewrite Paths.append_cons. now f_equal. Qed.

Lemma consumed_append (pre s' : string) : consumed (pre +:+ s') s' = pre.
Proof.
  unfold consumed. rewrite Paths.append_length.
  replace (String.length pre + String.length s' - String.length s')%nat
    with (String.length pre) by lia.
  induction pre as [|c pre IH].
  - cbn [String.length]. destruct s'; reflexivity.
  - rewrite Paths.append_cons. cbn [String.length String.substring]. now f_equal.
Qed.

Lemma lit_k_sound {A : Type} (w s : string) (k : string -> option A) (x : A) :
  lit_k w s k = Some x -> exists s', s = w +:+ s' /\ k s' = Some x.
Proof.
  revert s. induction w as [|c w IH]; intros s H; cbn [lit_k] in H.
  - exists s. split; [reflexivity | exact H].
  - destruct s as [|d s]; [discriminate|].
    destruct (Ascii.eqb_spec c d) as [->|]; [|discriminate].
    destruct (IH _ H) as [s' [-> Hk]]. exists s'. split; [reflexivity | exact Hk].
Qed.

Lemma star_k_sound {A : Type} (p : ascii -> bool) (s : string)
    (k : string -> option A) (x : A) :
  star_k p s k = Some x ->
  exists pre s', s = pre +:+ s' /\ all_in p pre = true /\ k s' = Some x.
Proof.
  induction s as [|c s IH]; intros H; cbn [star_k] in H.
  - exists "", "". repeat split. exact H.
  - destruct (p c) eqn:Pc.
    + destruct (star_k p s k) as [y|] eqn:E.
      * injection H as ->. destruct (IH eq_refl) as [pre [s' [-> [Hp Hk]]]].
        exists (String c pre), s'. rewrite Paths.append_cons.
        split; [reflexivity|]. split; [|exact Hk]. cbn [all_in]. now rewrite Pc.
      * exists "", (String c s). repeat split. exact H.
    + exists "", (String c s). repeat split. exact H.
Qed.

Lemma captured_refl (Q : string -> Prop) (pre : string) (g : option string) :
  captured Q pre g g.
Proof. now left. Qed.

Lemma captured_seq (Q : string -> Prop) (p1 p2 : string) (g g1 g2 : option string) :
  captured Q p1 g g1 -> captured Q p2 g1 g2 -> captured Q (p1 +:+ p2) g g2.
Proof.
  intros [->|[a [t [b [-> [-> Ht]]]]]] [->|[a' [t' [b' [-> [-> Ht']]]]]].
  - now left.
  - right. exists (p1 +:+ a'), t', b'. rewrite !Paths.append_assoc. auto.
  - right. exists a, t, (b +:+ p2). rewrite !Paths.append_assoc. auto.
  - right. exists ((a +:+ t +:+ b) +:+ a'), t', b'. rewrite !Paths.append_assoc. auto.
Qed.

(** What the matcher hands to the rest of the pattern: the input less a
    text of the pattern's language, and a capture taken from that text. *)
Lemma match_k_sound {A : Type} (Q : string -> Prop) (r : regex) :
  groups Q r ->
  forall (s : string) (g : option string)
         (k : string -> option string -> option A) (x : A),
  match_k r s g k = Some x ->
  exists pre s' g',
    s = pre +:+ s' /\ lang r pre /\ k s' g' = Some x /\ captured Q pre g g'.
Proof.
  induction r as [w|p|p|p|r1 IH1 r2 IH2|r1 IH1|r1 IH1];
    intros HQ s g k x H; cbn [match_k] in H; cbn [lang groups] in *.
  - apply lit_k_sound in H as [s' [-> Hk]].
    exists w, s', g. repeat split; [exact Hk | apply captured_refl].
  - destruct s as [|c s]; [discriminate|]. destruct (p c) eqn:Pc; [|discriminate].
    exists (String c ""), s, g. repeat split; [eauto | exact H | apply captured_refl].
  - apply star_k_sound in H as [pre [s' [-> [Hp Hk]]]].
    exists pre, s', g. repeat split; [exact Hp | exact Hk | apply captured_refl].
  - destruct s as [|c s]; [discriminate|]. destruct (p c) eqn:Pc; [|discriminate].
    apply star_k_sound in H as [pre [s' [-> [Hp Hk]]]].
    exists (String c pre), s', g. rewrite Paths.append_cons.
    repeat split; [discriminate | cbn [all_in]; now rewrite Pc | exact Hk
                  | apply captured_refl].
  - destruct HQ as [HQ1 HQ2].
    destruct (IH1 HQ1 _ _ _ _ H) as [p1 [s1 [g1 [-> [L1 [H1 C1]]]]]].
    destruct (IH2 HQ2 _ _ _ _ H1) as [p2 [s2 [g2 [-> [L2 [H2 C2]]]]]].
    exists (p1 +:+ p2), s2, g2. rewrite Paths.append_assoc.
    repeat split; [eauto | exact H2 | now apply (captured_seq Q p1 p2 g g1 g2)].
  - destruct (match_k r1 s g k) as [y|] eqn:E.
    + injection H as ->.
      destruct (IH1 HQ _ _ _ _ E) as [p1 [s1 [g1 [-> [L1 [H1 C1]]]]]].
      exists p1, s1, g1. repeat split; [now right | exact H1 | exact C1].
    + exists "", s, g. repeat split; [now left | exact H | apply captured_refl].
  - destruct HQ as [HQ1 HQ2].
    destruct (IH1 HQ1 _ _ _ _ H) as [p1 [s1 [g1 [-> [L1 [H1 C1]]]]]].
    rewrite consumed_append in H1.
    exists p1, s1, (Some p1). repeat split; [exact L1 | exact H1 |].
    right. exists "", p1, "". rewrite append_nil_r. repeat split. now apply HQ2.
Qed.

(** The text a search captures is a piece of the text searched, and one
    that the group matches. *)
Lemma re_search_captures (Q : string -> Prop) (r : regex) (s t : string)
    (m : match_obj) :
  groups Q r -> re_search r s = Some m -> m_group1 m = Some t ->
  occurs t s /\ Q t.
Proof.
  intros HQ. induction s as [|c s IH]; cbn [re_search]; intros H Hm.
  - destruct (re_match r "") as [m'|] eqn:E; [|discriminate]. injection H as ->.
    unfold re_match in E.
    destruct (match_k_sound Q r HQ _ _ _ _ E) as [pre [s' [g' [Hs [_ [Hk C]]]]]].
    injection Hk as <-. cbn [m_group1] in Hm. subst g'.
    destruct C as [|[a [t' [b [-> [Ht HQt]]]]]]; [discriminate|].
    injection Ht as ->. split; [|exact HQt].
    exists a, (b +:+ s'). rewrite Hs. now rewrite !Paths.append_assoc.
  - destruct (re_match r (String c s)) as [m'|] eqn:E.
    + injection H as ->. unfold re_match in E.
      destruct (match_k_sound Q r HQ _ _ _ _ E) as [pre [s' [g' [Hs [_ [Hk C]]]]]].
      injection Hk as <-. cbn [m_group1] in Hm. subst g'.
      destruct C as [|[a [t' [b [-> [Ht HQt]]]]]]; [discriminate|].
      injection Ht as ->. split; [|exact HQt].
      exists a, (b +:+ s'). rewrite Hs. now rewrite !Paths.append_assoc.
    + destruct (IH H Hm) as [[a [b Hab]] HQt]. split; [|exact HQt].
      exists (String c a), b. rewrite Hab. reflexivity.
Qed.

Lemma first_match_captures (Q : string -> Prop) (ps : list regex) (s t : string)
    (m : match_obj) :
  Forall (groups Q) ps -> first_match ps s = Some m -> m_group1 m = Some t ->
  occurs t s /\ Q t.
Proof.
  induction ps as [|r ps IH]; cbn [first_match]; [discriminate|].
  intros Hps H Hm. inversion Hps as [|? ? Hr Hps']; subst.
  destruct (re_search r s) as [m'|] eqn:E.
  - injection H as ->. eapply re_search_captures; eauto.
  - now apply IH.
Qed.

Lemma cap_word_capitalised (w : string) : lang cap_word w -> capitalised w.
Proof.
  intros [a [b [-> [[c [-> Hc]] [Hne Hb]]]]].
  exists c, b. repeat split; assumption.
Qed.

Lemma place_is_place_name (d : string) :
  lang (Seq cap_word (Opt (Seq (Plus is_space) cap_word))) d -> place_name d.
Proof.
  intros [w1 [rest [-> [H1 Hrest]]]]. apply cap_word_capitalised in H1.
  exists w1. split; [exact H1|].
  destruct Hrest as [->|[sp [w2 [-> [[Hne Hsp] H2]]]]].
  - left. apply append_nil_r.
  - right. exists sp, w2. apply cap_word_capitalised in H2. repeat split; assumption.
Qed.

Lemma destination_groups : Forall (groups place_name) destination_patterns.
Proof.
  unfold destination_patterns, seq, place. cbn [foldr].
  repeat constructor; cbn [groups cap_word]; repeat split;
    try exact place_is_place_name.
Qed.

Lemma day_groups : Forall (groups digits) day_patterns.
Proof.
  unfold day_patterns, n_days, n_dash_day, for_n_days, seq, days_word. cbn [foldr].
  repeat constructor; cbn [groups lang]; unfold digits; firstorder.
Qed.

Lemma group1_some (m : match_obj) (ps : list regex) (s : string) :
  forallb (fun r => safe r && binds r) ps = true ->
  first_match ps s = Some m -> m_group1 m = Some (group1 m).
Proof.
  intros Hps H.
  destruct (RegexFacts.first_match_group ps s m Hps H) as [t [Ht _]].
  unfold group1. now rewrite Ht.
Qed.

(** X29.  A destination that [_extract_destination] returns is a piece of
    the message as it stands: one word made of a capital letter and one or
    more small letters, or two such words with whitespace between them. *)
Theorem extracted_destination_is_place_name (message d : string) :
  _extract_destination message = Some d ->
  occurs d message /\ place_name d.
Proof.
  unfold _extract_destination.
  destruct (first_match destination_patterns message) as [m|] eqn:E; [|discriminate].
  intros H. injection H as <-.
  apply (first_match_captures place_name destination_patterns message (group1 m) m
           destination_groups E).
  now apply (group1_some m destination_patterns message).
Qed.

(** X30.  A day count that [_extract_days] returns is either the number
    written by a run of decimal digits of the lower-cased message, so that
    [int] is never given anything else, or the 7 of a message that
    mentions a week and matches no pattern; it is never negative. *)
Theorem extracted_days_come_from_digits (message : string) (n : Z) :
  _extract_days message = Some n ->
  (0 <= n)%Z /\
  ((exists t, occurs t (lower message) /\ digits t /\ n = int_of t) \/
   (first_match day_patterns (lower message) = None /\
    contains "week" (lower message) = true /\ n = 7%Z)).
Proof.
  unfold _extract_days.
  destruct (first_match day_patterns (lower message)) as [m|] eqn:E.
  - intros H. injection H as <-. split.
    + apply (Exchanges.int_acc_nonneg (group1 m) 0). lia.
    + left. exists (group1 m).
      destruct (first_match_captures digits day_patterns (lower message) (group1 m) m
                  day_groups E) as [Ho Hd].
      { now apply (group1_some m day_patterns (lower message)). }
      repeat split; [exact Ho | apply Hd | apply Hd].
  - destruct (contains "week" (lower message)) eqn:W; [|discriminate].
    intros H. injection H as <-. split; [lia|]. right. repeat split.
Qed.

End Captures.

(* ===================================================================== *)
(** * The theorems at work *)
(* ===================================================================== *)

Module Instances.
Import Text Regex Py Orchestrator SessionManager App Language.

Lemma three_days_is_routed : _parse_intent "Plan meals for 3 days" <> "ambiguous".
Proof. intros H. vm_compute in H. discriminate H. Qed.

Lemma keyed_after_a_run :
  keyed empty_world /\
  exists s,
    get_session
      (run demo demo_env empty_world
         [ CreateSession "u"; UpdateSession "session-0" [hello; hi];
           UpdateSessionMetadata "session-0" "topic" (JStr "meals");
           CloseSession "session-1" ]) "session-0" = Some s /\
    s_session_id s = "session-0".
Proof.
  split; [apply SessionProps.keyed_empty|].
  eexists. split; [reflexivity|].
  apply (SessionProps.sessions_stay_keyed demo demo_env empty_world
           [ CreateSession "u"; UpdateSession "session-0" [hello; hi];
             UpdateSessionMetadata "session-0" "topic" (JStr "meals");
             CloseSession "session-1" ] SessionProps.keyed_empty "session-0").
  reflexivity.
Defined.

Lemma two_updates_append :
  let w := snd (create_session demo demo_env empty_world "u") in
  get_conversation_history
    (update_session demo_env (update_session demo_env w "session-0" [hello])
       "session-0" [hi]) "session-0" = [hello; hi].
Proof.
  cbv zeta.
  destruct (SessionProps.update_session_appends demo_env
              (snd (create_session demo demo_env empty_world "u")) "session-0"
              [hello] [hi] _ eq_refl) as [_ [H _]].
  exact H.
Defined.

Lemma first_session_is_listed :
  exists s,
    get_session (snd (create_session demo demo_env empty_world "u")) "session-0" = Some s /\
    list_user_sessions (snd (create_session demo demo_env empty_world "u")) "u"
      ≡ₚ s :: list_user_sessions empty_world "u".
Proof.
  pose proof (SessionProps.create_session_lists demo demo_env empty_world "u" eq_refl)
    as H.
  cbn [create_session] in H. destruct H as [[s [H1 [_ H3]]] _].
  exists s. split; [exact H1 | exact H3].
Defined.

Lemma trip_call_at_tokyo :
  _extract_destination "Plan a trip to Tokyo" = Some "Tokyo" /\ "Tokyo" <> "".
Proof.
  destruct (Exchanges.agent_calls_well_formed demo demo_env
              (demo_context "Plan a trip to Tokyo" ∅) "travel"
              (PlanTrip "u" "Tokyo" ("2026-12-03", "2026-12-10") 2000 ∅))
    as [_ [H1 [H2 _]]].
  - left. vm_compute. reflexivity.
  - split; [exact H2 | exact H1].
Defined.

Lemma three_days_recorded :
  exists reply,
    fst (fst (process_message demo demo_env empty_world "u"
                "Plan meals for 3 days" None)) = Ok reply /\
    reply !! "session_id" = Some (RStr "session-0").
Proof.
  destruct (Exchanges.routed_exchange_recorded demo demo_env empty_world "u"
              "Plan meals for 3 days" None three_days_is_routed)
    as [summary [sid [reply [H1 [_ [H3 [H4 _]]]]]]].
  exists reply. split; [exact H1|].
  destruct (H4 eq_refl) as [E _]. rewrite H3, E. reflexivity.
Defined.

Lemma three_days_to_nowhere :
  snd (fst (process_message demo demo_env empty_world "u"
              "Plan meals for 3 days" (Some "gone"))) = empty_world.
Proof.
  apply (Exchanges.unknown_session_not_recorded demo demo_env empty_world "u"
           "Plan meals for 3 days" (Some "gone") "gone" three_days_is_routed eq_refl).
  - discriminate.
  - reflexivity.
Defined.

Lemma hello_there_chat :
  fst (fst (chat_with_agent demo demo_env initial "hello there" "default_user")) =
  "Error: 'session_id'".
Proof.
  pose proof (Chat.chat_ambiguous_is_error demo demo_env initial "hello there"
                "default_user" eq_refl) as H.
  destruct (chat_with_agent demo demo_env initial "hello there" "default_user")
    as [[text st'] calls].
  destruct H as [H _]. exact H.
Defined.

Lemma three_days_chat :
  user_sessions
    (snd (fst (chat_with_agent demo demo_env initial "Plan meals for 3 days" "u")))
  !! "u" = Some "session-0".
Proof.
  pose proof (Chat.chat_routed_keeps_session demo demo_env initial
                "Plan meals for 3 days" "u" three_days_is_routed) as H.
  destruct (chat_with_agent demo demo_env initial "Plan meals for 3 days" "u")
    as [[text st'] calls].
  cbv zeta in H. destruct H as [sid [H1 [H2 _]]].
  destruct (H2 eq_refl) as [E _]. cbn [fst snd]. rewrite H1, E.
  apply lookup_insert_eq.
Defined.

Lemma two_chats_one_session :
  let '(t1, st1, _) := chat_with_agent demo demo_env initial "Plan meals for 3 days" "u" in
  let '(t2, st2, _) := chat_with_agent demo demo_env st1 "Plan meals for 2 days" "u" in
  user_sessions st2 !! "u" = Some "session-0" /\
  draws (world st2) = 1%nat /\
  length (get_conversation_history (world st2) "session-0") = 4%nat.
Proof.
  assert (H2 : _parse_intent "Plan meals for 2 days" <> "ambiguous").
  { intros H. vm_compute in H. discriminate H. }
  pose proof (Chat.chat_conversation_continues demo demo_env initial
                "Plan meals for 3 days" "Plan meals for 2 days" "u"
                three_days_is_routed H2 eq_refl ltac:(discriminate)) as H.
  destruct (chat_with_agent demo demo_env initial "Plan meals for 3 days" "u")
    as [[t1 st1] c1].
  destruct (chat_with_agent demo demo_env st1 "Plan meals for 2 days" "u")
    as [[t2 st2] c2].
  cbv zeta in H. destruct H as [Ha [Hb Hc]].
  change (uuid4 demo_env (draws (world initial))) with "session-0" in Hc.
  split; [exact Ha|]. split; [exact Hb|]. now rewrite Hc.
Defined.

Lemma tokyo_is_a_place_name :
  occurs "Tokyo" "Plan a trip to Tokyo for 5 days" /\ place_name "Tokyo".
Proof.
  apply (Captures.extracted_destination_is_place_name
           "Plan a trip to Tokyo for 5 days" "Tokyo").
  vm_compute. reflexivity.
Defined.

Lemma five_day_count :
  (0 <= 5)%Z /\
  ((exists t, occurs t (lower "Create a 5-day vegetarian meal plan") /\
              digits t /\ 5%Z = int_of t) \/
   (first_match day_patterns (lower "Create a 5-day vegetarian meal plan") = None /\
    contains "week" (lower "Create a 5-day vegetarian meal plan") = true /\
    5%Z = 7%Z)).
Proof.
  apply (Captures.extracted_days_come_from_digits
           "Create a 5-day vegetarian meal plan" 5).
  vm_compute. reflexivity.
Defined.

Lemma pasta_is_stocked : MealPlanningAgent.well_stocked MealPlanningAgent.pasta_tool [].
Proof. intros cuisine. exists MealPlanningAgent.pasta, []. split; reflexivity. Qed.

Lemma two_days_of_pasta :
  exists plan,
    MealPlanningAgent.generate_meal_plan MealPlanningAgent.pasta_tool
      MealPlanningAgent.a_day "u" 2 None = Ok plan /\
    MealPlanningAgent.duration_days plan = 2%Z /\
    (1 <= MealPlanningAgent.total_recipes plan)%Z.
Proof.
  eexists. split; [vm_compute; reflexivity|].
  destruct (MealProps.generated_plan_is_sound MealPlanningAgent.pasta_tool
              MealPlanningAgent.a_day "u" 2 None _ eq_refl)
    as [_ [H1 [_ [_ [_ [_ [_ [H2 _]]]]]]]].
  split; [exact H1 | apply H2].
Defined.





End Instances.
